(** * placeholder-js: [formatStringWithData]

    A shallow embedding of [src/formatStringWithData.ts] and the properties
    of its template scanner, placeholder evaluator, path resolver, argument
    parser and transformation registry.

    Conventions of the embedding.
    - A JavaScript string is a [string]: a sequence of code units, of which
      the model carries the ones below 256.
    - A JavaScript number is carried as a [Z]: the integer valued numbers
      that a double holds exactly (time stamps, counts, array lengths); an
      integer that no double holds stands for the double nearest to it when
      it is printed.  Numbers with a fractional part are outside the
      embedding.
    - A call that may raise returns a [completion]: [Normal v] or [Throw e].
    - The regular expressions of the source are kept as syntax trees and run
      by a backtracking matcher, so each one can be read against the source.
    - [Date.parse], [toLocaleDateString] and the text of a built-in
      function belong to the host; the definitions that reach them take a
      [Host] record.
    - Property lookup ([part in current], [current[part]]) finds the own
      properties of the data document first and then follows the prototype
      chain through [Array.prototype] and [Object.prototype]. *)

From Stdlib Require Import ZArith NArith Nnat List Bool Lia Ascii String.
From Stdlib Require Import DecimalString DecimalN DecimalZ.
Import ListNotations.

#[local] Set Warnings "-register-all".

Local Open Scope list_scope.
Local Open Scope string_scope.

(** ** Completions: normal results and raised errors *)

Inductive error : Type :=
| TypeError (msg : string).

Inductive completion (A : Type) : Type :=
| Normal (a : A)
| Throw (e : error).

Arguments Normal {A} a.
Arguments Throw {A} e.

Definition bind {A B : Type} (c : completion A) (f : A -> completion B)
  : completion B :=
  match c with
  | Normal a => f a
  | Throw e => Throw e
  end.

Notation "x <- c ;; k" := (bind c (fun x => k))
  (at level 61, c at next level, right associativity).

(** [try { return c } catch (error) { return handler }] *)
Definition try_catch {A : Type} (c : completion A) (handler : A) : completion A :=
  match c with
  | Normal a => Normal a
  | Throw _ => Normal handler
  end.

(** ** Strings of the host language *)

Module JsString.

Definition code (c : ascii) : N := N_of_ascii c.

(** White space and line terminators, as [\s] and [trim] see them:
    TAB, LF, VT, FF, CR, SP and NBSP. *)
Definition is_space (c : ascii) : bool :=
  let n := code c in
  ((9 <=? n) && (n <=? 13) || (n =? 32) || (n =? 160))%N.

(** [\w] is [A-Za-z0-9_]. *)
Definition is_word (c : ascii) : bool :=
  let n := code c in
  ((65 <=? n) && (n <=? 90) || (97 <=? n) && (n <=? 122)
   || (48 <=? n) && (n <=? 57) || (n =? 95))%N.

(** [.] matches everything but a line terminator (LF, CR). *)
Definition is_dot (c : ascii) : bool :=
  let n := code c in
  negb ((n =? 10) || (n =? 13))%N.

(** The class of one code unit, and a class without some code units. *)
Definition char (a : ascii) (c : ascii) : bool := Ascii.eqb a c.
Definition none_of (l : list ascii) (c : ascii) : bool :=
  negb (existsb (Ascii.eqb c) l).

Fixpoint trimStart (s : string) : string :=
  match s with
  | String c s' => if is_space c then trimStart s' else s
  | EmptyString => EmptyString
  end.

Fixpoint trimEnd (s : string) : string :=
  match s with
  | String c s' =>
      let t := trimEnd s' in
      if is_space c && (t =? "") then "" else String c t
  | EmptyString => EmptyString
  end.

Definition trim (s : string) : string := trimEnd (trimStart s).

Definition startsWith (s p : string) : bool := prefix p s.

Definition endsWith (s p : string) : bool :=
  (length p <=? length s)%nat
  && (substring (length s - length p) (length p) s =? p).

(** [s.slice(1, -1)] *)
Definition slice_1_m1 (s : string) : string :=
  substring 1 (length s - 2) s.

(** [!s] on a string *)
Definition is_empty (s : string) : bool :=
  match s with EmptyString => true | _ => false end.

(** [s.split(sep)]: the pieces of [s] between the occurrences of [sep],
    found from the left and not overlapping.  [skip] counts the code units
    of an occurrence still to pass over, [cur] is the piece being read. *)
Fixpoint split_go (sep s : string) (skip : nat) (cur : string) : list string :=
  match s with
  | EmptyString => [cur]
  | String c s' =>
      match skip with
      | S n => split_go sep s' n cur
      | O =>
          if prefix sep s
          then cur :: split_go sep s' (length sep - 1) ""
          else split_go sep s' 0 (cur ++ String c "")
      end
  end.

Fixpoint chars (s : string) : list string :=
  match s with
  | EmptyString => []
  | String c s' => String c "" :: chars s'
  end.

Definition split (s sep : string) : list string :=
  if is_empty sep then chars s else split_go sep s 0 "".

(** [l.join(sep)] on a list of strings *)
Fixpoint join (l : list string) (sep : string) : string :=
  match l with
  | [] => ""
  | [x] => x
  | x :: l' => x ++ sep ++ join l' sep
  end.

End JsString.

(** ** Regular expressions

    The fragment the source uses: character classes, greedy and lazy
    repetition of a class, sequence, alternation, capturing groups and the
    two anchors. *)

Module Regex.

Inductive regex : Type :=
| Chr (p : ascii -> bool)        (* one code unit of a class *)
| Star (p : ascii -> bool)       (* [p*], greedy *)
| StarLazy (p : ascii -> bool)   (* [p*?] *)
| Seq (r1 r2 : regex)
| Alt (r1 r2 : regex)
| Group (r : regex)              (* [( r )], numbered in order *)
| Bos                            (* [^] *)
| Eos.                           (* [$] *)

(** [p+] *)
Definition Plus (p : ascii -> bool) : regex := Seq (Chr p) (Star p).

(** A continuation receives the position reached, the input left from
    there and the groups closed so far, last first; an answer is the
    groups and the end position of a whole match. *)
Definition answer : Type := option (list string * nat).
Definition cont : Type := nat -> string -> list string -> answer.

Fixpoint star_greedy (p : ascii -> bool) (i : nat) (s : string)
         (caps : list string) (k : cont) : answer :=
  match s with
  | String c s' =>
      if p c then
        match star_greedy p (S i) s' caps k with
        | Some a => Some a
        | None => k i s caps
        end
      else k i s caps
  | EmptyString => k i s caps
  end.

Fixpoint star_lazy (p : ascii -> bool) (i : nat) (s : string)
         (caps : list string) (k : cont) : answer :=
  match k i s caps with
  | Some a => Some a
  | None =>
      match s with
      | String c s' => if p c then star_lazy p (S i) s' caps k else None
      | EmptyString => None
      end
  end.

(** The backtracking matcher: [rmatch r i s caps k] matches [r] at
    position [i], where the input left is [s], and hands what follows to
    the continuation [k]; the first way to match that [k] accepts wins. *)
Fixpoint rmatch (r : regex) (i : nat) (s : string) (caps : list string)
         (k : cont) : answer :=
  match r with
  | Chr p =>
      match s with
      | String c s' => if p c then k (S i) s' caps else None
      | EmptyString => None
      end
  | Star p => star_greedy p i s caps k
  | StarLazy p => star_lazy p i s caps k
  | Seq r1 r2 =>
      rmatch r1 i s caps (fun i' s' caps' => rmatch r2 i' s' caps' k)
  | Alt r1 r2 =>
      match rmatch r1 i s caps k with
      | Some a => Some a
      | None => rmatch r2 i s caps k
      end
  | Group r' =>
      rmatch r' i s caps
             (fun i' s' caps' => k i' s' (substring 0 (i' - i) s :: caps'))
  | Bos => if (i =? 0)%nat then k i s caps else None
  | Eos => match s with EmptyString => k i s caps | _ => None end
  end.

(** The least number of code units a match of [r] takes. *)
Fixpoint min_width (r : regex) : nat :=
  match r with
  | Chr _ => 1
  | Star _ | StarLazy _ | Bos | Eos => 0
  | Seq r1 r2 => min_width r1 + min_width r2
  | Alt r1 r2 => Nat.min (min_width r1) (min_width r2)
  | Group r' => min_width r'
  end.

(** A match of [r] that starts exactly at position [i]: the match array
    (whole match, then the groups) and the position after the match. *)
Definition match_here (r : regex) (i : nat) (s : string)
  : option (list string * nat) :=
  match rmatch r i s [] (fun i' _ caps => Some (caps, i')) with
  | Some (caps, e) => Some (substring 0 (e - i) s :: rev caps, e)
  | None => None
  end.

(** [s.match(r)] for a regex without the [g] flag: the leftmost match. *)
Fixpoint search_from (r : regex) (i : nat) (s : string) : option (list string) :=
  match match_here r i s with
  | Some (m, _) => Some m
  | None =>
      match s with
      | String _ s' => search_from r (S i) s'
      | EmptyString => None
      end
  end.

Definition match_ (s : string) (r : regex) : option (list string) :=
  search_from r 0 s.

(** The match arrays that [while ((m = r.exec(s)) !== null)] sees for a
    regex with the [g] flag.  [i] is the position, [skip] what is left of
    the last match ([lastIndex - i]). *)
Fixpoint exec_loop (r : regex) (s : string) (i skip : nat) : list (list string) :=
  match skip with
  | S n =>
      match s with
      | String _ s' => exec_loop r s' (S i) n
      | EmptyString => []
      end
  | O =>
      match match_here r i s with
      | Some (m, e) =>
          m :: match s with
               | String _ s' => exec_loop r s' (S i) (e - i - 1)
               | EmptyString => []
               end
      | None =>
          match s with
          | String _ s' => exec_loop r s' (S i) 0
          | EmptyString => []
          end
      end
  end.

Definition exec_all (r : regex) (s : string) : list (list string) :=
  exec_loop r s 0 0.

(** [s.replace(r, f)] for a regex with the [g] flag and a function [f]
    called with the match array: the text outside the matches is copied,
    each match gives way to what [f] returns. *)
Fixpoint replace_loop (r : regex) (f : list string -> completion string)
         (s : string) (i skip : nat) : completion string :=
  match skip with
  | S n =>
      match s with
      | String _ s' => replace_loop r f s' (S i) n
      | EmptyString => Normal ""
      end
  | O =>
      match match_here r i s with
      | Some (m, e) =>
          v <- f m ;;
          rest <- match s with
                  | String c s' =>
                      if (e =? i)%nat
                      then (t <- replace_loop r f s' (S i) 0 ;; Normal (String c t))
                      else replace_loop r f s' (S i) (e - i - 1)
                  | EmptyString => Normal ""
                  end ;;
          Normal (v ++ rest)
      | None =>
          match s with
          | String c s' =>
              t <- replace_loop r f s' (S i) 0 ;; Normal (String c t)
          | EmptyString => Normal ""
          end
      end
  end.

Definition replace (s : string) (r : regex)
           (f : list string -> completion string) : completion string :=
  replace_loop r f s 0 0.

End Regex.

Infix "+>" := Regex.Seq (at level 60, right associativity).
Infix "<|>" := Regex.Alt (at level 65, right associativity).

(** ** The data document *)

(** [type Json = null | boolean | number | string | Json[] | { [prop]: Json }].
    The fields of an object are its own properties; their keys are unique. *)
Inductive Json : Type :=
| JNull
| JBool (b : bool)
| JNumber (n : Z)
| JString (s : string)
| JArray (items : list Json)
| JObject (fields : list (string * Json)).

(** ** Values and the host *)

(** The two prototype objects a data document inherits from. *)
Inductive proto : Type :=
| ObjectPrototype
| ArrayPrototype.

(** What a path can resolve to: a value of the document or, through the
    prototype chain that [in] and [[]] follow, a prototype object or one of
    its methods.  A value that may be [undefined] is an [option]: [None] is
    [undefined]. *)
Inductive value : Type :=
| VJson (j : Json)
| VPrototype (p : proto)
| VFunction (p : proto) (name : string).

(** What is left to the host: [Date.parse] ([None] is [NaN]),
    [toLocaleDateString] of a time value in milliseconds, and the text
    [String] gives for a built-in method. *)
Record Host : Type := {
  Date_parse : string -> option Z;
  toLocaleDateString : Z -> string;
  Function_toString : proto -> string -> string
}.

Module Js.
Import JsString.

(** [fields] as a map from key to value. *)
Fixpoint own_property (fields : list (string * Json)) (key : string)
  : option Json :=
  match fields with
  | [] => None
  | (k, v) :: rest => if k =? key then Some v else own_property rest key
  end.

(** The decimal digits of an integer, with its sign. *)
Definition decimal (n : Z) : string :=
  NilZero.string_of_int (Z.to_int n).

(** The double nearest to the integer [v], [0 <= v]: [v] rounded to 53
    significant bits, a tie going to the even significand.  The result is
    [2 ^ 1024] or more where the double is [Infinity]. *)
Definition to_double (v : Z) : Z :=
  let sh := (Z.log2 v - 52)%Z in
  if (sh <=? 0)%Z then v
  else
    let q := Z.shiftr v sh in
    let r := (v - Z.shiftl q sh)%Z in
    let half := Z.shiftl 1 (sh - 1) in
    let q' := if (half <? r)%Z || ((r =? half)%Z && Z.odd q)
              then (q + 1)%Z else q in
    Z.shiftl q' sh.

(** The shortest decimal that reads back as the double [x], as
    [Number::toString] asks for it: the digits [s] and the exponent [e] of
    [s * 10 ^ e], with as few digits [k] as possible; of two decimals of
    [k] digits the one nearer to [x], the even one on a tie.  [n] is the
    number of digits of [x]; with [k = n] the decimal is [x] itself. *)
Fixpoint shortest (x n k : Z) (fuel : nat) : Z * Z :=
  match fuel with
  | O => (x, 0%Z)
  | S fuel' =>
      let e := (n - k)%Z in
      let p := (10 ^ e)%Z in
      let lo := (x / p)%Z in
      let hi := (lo + 1)%Z in
      let ok_lo := (to_double (lo * p) =? x)%Z in
      let ok_hi := (to_double (hi * p) =? x)%Z in
      let below := (lo, e) in
      let above := if (hi =? 10 ^ k)%Z then (1%Z, (e + k)%Z) else (hi, e) in
      if ok_lo && ok_hi then
        let dlo := (x - lo * p)%Z in
        let dhi := (hi * p - x)%Z in
        if (dlo <? dhi)%Z then below
        else if (dhi <? dlo)%Z then above
        else if Z.even lo then below else above
      else if ok_lo then below
      else if ok_hi then above
      else shortest x n (k + 1) fuel'
  end.

Fixpoint zeros (n : nat) : string :=
  match n with
  | O => ""
  | S n' => String "0" (zeros n')
  end.

(** [Number::toString] on a double [x] that is an integer above 0: the
    digits followed by zeros up to 21 digits, the exponent form beyond. *)
Definition Number_toString_double (x : Z) : string :=
  if (2 ^ 1024 <=? x)%Z then "Infinity"
  else
    let n := length (decimal x) in
    let '(s, e) := shortest x (Z.of_nat n) 1 n in
    let digits := decimal s in
    let point := (Z.of_nat (length digits) + e)%Z in
    if (point <=? 21)%Z then digits ++ zeros (Z.to_nat e)
    else
      match digits with
      | String d "" => String d ("e+" ++ decimal (point - 1))
      | String d rest => String d ("." ++ rest ++ "e+" ++ decimal (point - 1))
      | "" => ""
      end.

(** [String(n)] for an integer valued number.  Up to [2 ^ 53] every
    integer is a double and the shortest decimal that reads back as it is
    the integer itself; beyond, [n] stands for the double nearest to it. *)
Definition Number_toString (n : Z) : string :=
  if (Z.abs n <=? 2 ^ 53)%Z then decimal n
  else if (n <? 0)%Z then "-" ++ Number_toString_double (to_double (- n))
  else Number_toString_double (to_double n).

Definition Boolean_toString (b : bool) : string :=
  if b then "true" else "false".

(** [String(v)] for a value of the document.  An array is joined with
    commas, [null] elements giving the empty string.  An object goes
    through [toString] and [valueOf]: the inherited [toString] answers
    ["[object Object]"]; an own property named [toString] hides it, is not
    callable (it is a [Json]), and the inherited or own [valueOf] gives no
    primitive either, so the conversion raises a [TypeError]. *)
Fixpoint Json_toString (v : Json) : completion string :=
  match v with
  | JNull => Normal "null"
  | JBool b => Normal (Boolean_toString b)
  | JNumber n => Normal (Number_toString n)
  | JString s => Normal s
  | JArray items =>
      (fix join_items (l : list Json) : completion string :=
         match l with
         | [] => Normal ""
         | x :: l' =>
             a <- match x with JNull => Normal "" | _ => Json_toString x end ;;
             match l' with
             | [] => Normal a
             | _ :: _ => b <- join_items l' ;; Normal (a ++ "," ++ b)
             end
         end) items
  | JObject fields =>
      match own_property fields "toString" with
      | Some _ => Throw (TypeError "Cannot convert object to primitive value")
      | None => Normal "[object Object]"
      end
  end.

(** [String(v)].  [Object.prototype] is an object without fields of the
    document, [Array.prototype] an empty array. *)
Definition ToString (host : Host) (v : value) : completion string :=
  match v with
  | VJson j => Json_toString j
  | VPrototype ObjectPrototype => Normal "[object Object]"
  | VPrototype ArrayPrototype => Normal ""
  | VFunction p name => Normal (Function_toString host p name)
  end.

(** [!!v] *)
Definition truthy (v : Json) : bool :=
  match v with
  | JNull => false
  | JBool b => b
  | JNumber n => negb (n =? 0)%Z
  | JString s => negb (is_empty s)
  | JArray _ | JObject _ => true
  end.

(** An array index is a key that is the decimal text of a number. *)
Definition array_index (key : string) : option N :=
  match NilEmpty.uint_of_string key with
  | Some d =>
      let n := N.of_uint d in
      if NilEmpty.string_of_uint (N.to_uint n) =? key then Some n else None
  | None => None
  end.

(** The own property [part] of an array: [length] or an element. *)
Definition array_property (items : list Json) (part : string) : option Json :=
  if part =? "length" then Some (JNumber (Z.of_nat (List.length items)))
  else match array_index part with
       | Some n =>
           if (n <? N.of_nat (List.length items))%N
           then nth_error items (N.to_nat n)
           else None
       | None => None
       end.

(** The methods of [Object.prototype] and of [Array.prototype]. *)
Definition Object_prototype : list string :=
  [ "constructor"; "hasOwnProperty"; "isPrototypeOf"; "propertyIsEnumerable";
    "toLocaleString"; "toString"; "valueOf";
    "__defineGetter__"; "__defineSetter__"; "__lookupGetter__";
    "__lookupSetter__" ].

Definition Array_prototype : list string :=
  [ "constructor"; "at"; "concat"; "copyWithin"; "entries"; "every"; "fill";
    "filter"; "find"; "findIndex"; "findLast"; "findLastIndex"; "flat";
    "flatMap"; "forEach"; "includes"; "indexOf"; "join"; "keys";
    "lastIndexOf"; "map"; "pop"; "push"; "reduce"; "reduceRight"; "reverse";
    "shift"; "slice"; "some"; "sort"; "splice"; "toLocaleString";
    "toReversed"; "toSorted"; "toSpliced"; "toString"; "unshift"; "values";
    "with" ].

(** The property [part] that the prototype object [p] holds itself, read
    for an object whose prototype is [above] ([None] where it has none):
    [__proto__] on [Object.prototype] answers that prototype, [length] on
    [Array.prototype] is 0, the rest are the methods. *)
Definition prototype_property (p : proto) (above : option proto)
           (part : string) : option value :=
  match p with
  | ObjectPrototype =>
      if part =? "__proto__" then
        Some (match above with
              | Some q => VPrototype q
              | None => VJson JNull
              end)
      else if existsb (String.eqb part) Object_prototype
           then Some (VFunction ObjectPrototype part)
           else None
  | ArrayPrototype =>
      if part =? "length" then Some (VJson (JNumber 0))
      else if existsb (String.eqb part) Array_prototype
           then Some (VFunction ArrayPrototype part)
           else None
  end.

(** The first prototype of the chain that holds [part]. *)
Fixpoint inherited (chain : list proto) (above : option proto)
         (part : string) : option value :=
  match chain with
  | [] => None
  | p :: chain' =>
      match prototype_property p above part with
      | Some v => Some v
      | None => inherited chain' above part
      end
  end.

(** [part in current ? Some current[part] : None], for a [current] that
    passes [current && typeof current === "object"]; [None] for one that
    does not ([null], a primitive, a function).  Own properties come
    first, then the prototype chain. *)
Definition get_property (current : value) (part : string) : option value :=
  match current with
  | VJson (JObject fields) =>
      match own_property fields part with
      | Some v => Some (VJson v)
      | None => inherited [ObjectPrototype] (Some ObjectPrototype) part
      end
  | VJson (JArray items) =>
      match array_property items part with
      | Some v => Some (VJson v)
      | None =>
          inherited [ArrayPrototype; ObjectPrototype] (Some ArrayPrototype) part
      end
  | VPrototype ObjectPrototype =>
      inherited [ObjectPrototype] None part
  | VPrototype ArrayPrototype =>
      inherited [ArrayPrototype; ObjectPrototype] (Some ObjectPrototype) part
  | _ => None
  end.

End Js.

Module JsDate.

(** [TimeClip]: a time value is at most 8.64e15 ms from the epoch. *)
Definition TimeClip (t : Z) : option Z :=
  if (Z.abs t <=? 8640000000000000)%Z then Some t else None.

(** [new Date(n).getTime()] for a number [n]; [None] is [NaN]. *)
Definition of_number (n : Z) : option Z := TimeClip n.

End JsDate.

(** ** The transformation registry *)

(** A parsed argument of a transformation call: a string or an array of
    strings ([parseTransformationArgs] builds nothing else). *)
Inductive arg : Type :=
| AString (s : string)
| AArray (l : list string).

Module Transformations.
Import JsString Js.

(** [String(x)] on an argument that may be [undefined] *)
Definition arg_toString (x : option arg) : string :=
  match x with
  | None => "undefined"
  | Some (AString s) => s
  | Some (AArray l) => join l ","
  end.

Definition String_opt (x : option string) : string :=
  match x with
  | None => "undefined"
  | Some s => s
  end.

(** A transformation takes the resolved value and the remaining
    arguments; what it returns is a string, or whatever argument it
    hands back. *)
Definition transformation : Type :=
  option value -> list arg -> completion (option arg).

(** [value === undefined || value === null ? defaultValue : String(value)] *)
Definition default (host : Host) : transformation :=
  fun value rest =>
    let defaultValue := hd_error rest in
    match value with
    | None | Some (VJson JNull) => Normal defaultValue
    | Some v => s <- ToString host v ;; Normal (Some (AString s))
    end.

(** [new Date(value).getTime()]: a number is a time value, a boolean or
    [null] is first turned into a number, a string is parsed, anything else
    is first turned into a string. *)
Definition Date_of_value (host : Host) (value : value) : completion (option Z) :=
  match value with
  | VJson (JNumber n) => Normal (JsDate.of_number n)
  | VJson (JBool b) => Normal (JsDate.of_number (if b then 1 else 0)%Z)
  | VJson JNull => Normal (JsDate.of_number 0)
  | VJson (JString s) => Normal (Date_parse host s)
  | _ => s <- ToString host value ;; Normal (Date_parse host s)
  end.

Definition date (host : Host) : transformation :=
  fun value _ =>
    try_catch
      (match value with
       | None | Some (VJson JNull) => Normal (Some (AString ""))
       | Some (VJson (JString "")) => Normal (Some (AString ""))
       | Some v =>
           date <- match v with
                   | VJson (JNumber n) =>
                       (* If the value is less than 1e11, assume it's in seconds. *)
                       if (n <? 10 ^ 11)%Z
                       then Normal (JsDate.of_number (n * 1000))
                       else Normal (JsDate.of_number n)
                   | _ => Date_of_value host v
                   end ;;
           match date with
           | None => Normal (Some (AString "#ERROR"))
           | Some t => Normal (Some (AString (toLocaleDateString host t)))
           end
       end)
      (Some (AString "#ERROR")).

(** [const [search, replace] = pair]: the first two things the pair
    yields when iterated, [undefined] where it has run out. *)
Definition destructure2 (pair : arg) : option string * option string :=
  match pair with
  | AArray l => (nth_error l 0, nth_error l 1)
  | AString s => (nth_error (chars s) 0, nth_error (chars s) 1)
  end.

Definition replace_step (result : string) (pair : arg) : string :=
  let '(search, replace) := destructure2 pair in
  (* Only perform replacement if search is a non-empty string. *)
  match search with
  | Some "" => result
  | _ => join (split result (String_opt search)) (String_opt replace)
  end.

Definition replace (host : Host) : transformation :=
  fun value replacePairs =>
    result <- ToString host (match value with
                             | None | Some (VJson JNull) => VJson (JString "")
                             | Some v => v
                             end) ;;
    Normal (Some (AString (fold_left replace_step replacePairs result))).

(** [type Transformations]: the arguments a transformation declares
    after the value: [default] one string, [date] none, [replace] any
    number of string arrays. *)
Definition signature_ok (name : string) (rest : list arg) : bool :=
  if name =? "default" then
    match rest with [AString _] => true | _ => false end
  else if name =? "date" then
    match rest with [] => true | _ => false end
  else if name =? "replace" then
    forallb (fun a => match a with AArray _ => true | AString _ => false end) rest
  else false.

(** [defaultTransformations] *)
Definition defaultTransformations (host : Host)
  : list (string * transformation) :=
  [ ("default", default host); ("date", date host); ("replace", replace host) ].

(** [defaultTransformations.hasOwnProperty(name)] and
    [defaultTransformations[name]] *)
Fixpoint lookup (name : string) (table : list (string * transformation))
  : option transformation :=
  match table with
  | [] => None
  | (k, f) :: rest => if k =? name then Some f else lookup name rest
  end.

End Transformations.

(** ** The argument parser *)

Module Parser.
Import JsString Regex.

(** [/ \s* ( \[ [^\]]* \] | ' [^']* ' | [^,\s] [^,]* ) \s* ( , | $ ) /g],
    written here with spaces between its parts *)
Definition argsRegex : regex :=
  Star is_space
  +> Group (   (Chr (char "[") +> Star (none_of ["]"%char]) +> Chr (char "]"))
           <|> (Chr (char "'") +> Star (none_of ["'"%char]) +> Chr (char "'"))
           <|> (Chr (fun c => none_of [","%char] c && negb (is_space c))
                +> Star (none_of [","%char])))
  +> Star is_space
  +> Group (Chr (char ",") <|> Eos).

(** [/ \s* ( ' [^']* ' | [^,\s] [^,]* ) \s* ( , | $ ) /g] *)
Definition arrRegex : regex :=
  Star is_space
  +> Group (   (Chr (char "'") +> Star (none_of ["'"%char]) +> Chr (char "'"))
           <|> (Chr (fun c => none_of [","%char] c && negb (is_space c))
                +> Star (none_of [","%char])))
  +> Star is_space
  +> Group (Chr (char ",") <|> Eos).

Definition parseElement (arrMatch : list string) : string :=
  let element := trim (nth 1 arrMatch "") in
  if startsWith element "'" && endsWith element "'"
  then slice_1_m1 element
  else element.

Definition parseToken (m : list string) : arg :=
  let token := trim (nth 1 m "") in
  if startsWith token "[" && endsWith token "]" then
    let inner := trim (slice_1_m1 token) in
    if is_empty inner then AArray []
    else AArray (map parseElement (exec_all arrRegex inner))
  else if startsWith token "'" && endsWith token "'" then
    AString (slice_1_m1 token)
  else AString token.

Definition parseTransformationArgs (argsString : string) : list arg :=
  map parseToken (exec_all argsRegex argsString).

End Parser.

(** ** The path resolver *)

Module Resolver.
Import JsString Js.

(** The loop over [parts]. *)
Fixpoint resolve_parts (current : value) (parts : list string) : option value :=
  match parts with
  | [] => Some current
  | part :: rest =>
      match get_property current part with
      | Some v => resolve_parts v rest
      | None => None
      end
  end.

Definition resolveDataPath (data : Json) (path : string) : option value :=
  if is_empty path then None
  else resolve_parts (VJson data) (split path ".").

End Resolver.

(** ** The placeholder evaluator and the template scanner *)

Module Format.
Import JsString Js Regex Transformations Parser Resolver.

(** [/ {{ ( [^{}]*? ) }} /g] *)
Definition placeholderRegex : regex :=
  Chr (char "{") +> Chr (char "{")
  +> Group (StarLazy (none_of ["{"%char; "}"%char]))
  +> Chr (char "}") +> Chr (char "}").

(** [/ ^ ( \w+ ) \( ( .* ) \) $ /] *)
Definition transformationRegex : regex :=
  Bos +> Group (Plus is_word) +> Chr (char "(")
  +> Group (Star is_dot) +> Chr (char ")") +> Eos.

(** [keyArg ? resolveDataPath(dataToUse, String(keyArg)) : undefined] *)
Definition keyValue (dataToUse : Json) (parsedArgs : list arg) : option value :=
  let keyArg := match parsedArgs with a :: _ => a | [] => AString "" end in
  let is_truthy := match keyArg with
                   | AString s => negb (is_empty s)
                   | AArray _ => true
                   end in
  if is_truthy
  then resolveDataPath dataToUse (arg_toString (Some keyArg))
  else None.

(** The transformation branch, from the parsing of the arguments on. *)
Definition callTransformation (dataToUse : Json) (f : transformation)
           (argsString : string) : completion string :=
  let parsedArgs := parseTransformationArgs argsString in
  let dataValue := keyValue dataToUse parsedArgs in
  let remainingArgs := tl parsedArgs in
  r <- try_catch (f dataValue remainingArgs) (Some (AString "#ERROR")) ;;
  Normal (arg_toString r).

(** The function given to [template.replace]: from the match array to
    the replacement text ([replace] turns what the function returns into a
    string). *)
Definition replacer (host : Host) (dataToUse : Json) (m : list string)
  : completion string :=
  let placeholderContent := nth 1 m "" in
  let trimmedContent := trim placeholderContent in
  if is_empty trimmedContent then Normal ""
  else
    match match_ trimmedContent transformationRegex with
    | Some transformationMatch =>
        let transformName := nth 1 transformationMatch "" in
        let argsString := nth 2 transformationMatch "" in
        match lookup transformName (defaultTransformations host) with
        | None => Normal "#ERROR"
        | Some f => callTransformation dataToUse f argsString
        end
    | None =>
        match resolveDataPath dataToUse trimmedContent with
        | None | Some (VJson JNull) => Normal ""
        | Some value => ToString host value
        end
    end.

(** [data || {}] *)
Definition dataToUse (data : option Json) : Json :=
  match data with
  | Some d => if truthy d then d else JObject []
  | None => JObject []
  end.

Definition formatStringWithData (host : Host) (template : option string)
           (data : option Json) : completion string :=
  match template with
  | None => Normal ""
  | Some t =>
      if is_empty t then Normal ""
      else Regex.replace t placeholderRegex (replacer host (dataToUse data))
  end.

End Format.

(** ** A reference host

    A host to run examples on: [toLocaleDateString] is the short date
    [month/day/year], not zero padded, of the UTC calendar day (the [en-US]
    convention); [Date.parse] reads the date form [YYYY-MM-DD] and answers
    [NaN] for anything else; a built-in function prints as native code. *)

Module ReferenceHost.
Import JsString Js.
Local Open Scope Z_scope.

(** The civil date of a day number (days since 1970-01-01). *)
Definition civil_from_days (z : Z) : Z * Z * Z :=
  let z := z + 719468 in
  let era := z / 146097 in
  let doe := z - era * 146097 in
  let yoe := (doe - doe / 1460 + doe / 36524 - doe / 146096) / 365 in
  let y := yoe + era * 400 in
  let doy := doe - (365 * yoe + yoe / 4 - yoe / 100) in
  let mp := (5 * doy + 2) / 153 in
  let d := doy - (153 * mp + 2) / 5 + 1 in
  let m := if mp <? 10 then mp + 3 else mp - 9 in
  (if m <=? 2 then y + 1 else y, m, d).

Definition days_from_civil (y m d : Z) : Z :=
  let y := if m <=? 2 then y - 1 else y in
  let era := y / 400 in
  let yoe := y - era * 400 in
  let doy := (153 * (if m >? 2 then m - 3 else m + 9) + 2) / 5 + d - 1 in
  let doe := yoe * 365 + yoe / 4 - yoe / 100 + doy in
  era * 146097 + doe - 719468.

Definition msPerDay : Z := 86400000.

Definition short_date (t : Z) : string :=
  let '(y, m, d) := civil_from_days (t / msPerDay) in
  (Number_toString m ++ "/" ++ Number_toString d ++ "/" ++ Number_toString y)%string.

Definition digits (s : string) : option Z :=
  match NilEmpty.uint_of_string s with
  | Some d => Some (Z.of_N (N.of_uint d))
  | None => None
  end.

Definition parse_iso_date (s : string) : option Z :=
  if ((String.length s =? 10)%nat
      && (substring 4 1 s =? "-")%string && (substring 7 1 s =? "-")%string)%bool
  then
    match digits (substring 0 4 s), digits (substring 5 2 s),
          digits (substring 8 2 s) with
    | Some y, Some m, Some d =>
        let n := days_from_civil y m d in
        let '(y', m', d') := civil_from_days n in
        if ((y' =? y) && (m' =? m) && (d' =? d))%bool
        then Some (n * msPerDay) else None
    | _, _, _ => None
    end
  else None.

(** The text of a built-in function. *)
Definition function_text (p : proto) (name : string) : string :=
  let shown :=
    if (name =? "constructor")%string
    then match p with
         | ObjectPrototype => "Object"
         | ArrayPrototype => "Array"
         end%string
    else name in
  ("function " ++ shown ++ "() { [native code] }")%string.

Definition host : Host :=
  {| Date_parse := parse_iso_date;
     toLocaleDateString := short_date;
     Function_toString := function_text |}.

End ReferenceHost.

(** ** The template scanner, read off the regular expression

    What [template.replace] does with [placeholderRegex], written as a
    scanner of its own; [replace_loop_scan] below shows that the two agree. *)

Module Scanner.
Import JsString Regex.

(** [[^{}]] *)
Definition nb : ascii -> bool := none_of ["{"%char; "}"%char].

Definition starts_close (s : string) : bool :=
  match s with
  | String c (String c' _) => char "}" c && char "}" c'
  | _ => false
  end.

(** The length of the brace free text in front of the first closing
    pair, if that is what [s] starts with. *)
Fixpoint close_at (s : string) : option nat :=
  match s with
  | String c s' =>
      if char "}" c
         && match s' with String c' _ => char "}" c' | EmptyString => false end
      then Some 0
      else if nb c then option_map S (close_at s') else None
  | EmptyString => None
  end.

(** The placeholder that starts at the head of [s]: its body and the
    length of the whole region. *)
Definition placeholder_at (s : string) : option (string * nat) :=
  match s with
  | String c1 (String c2 s2) =>
      if char "{" c1 && char "{" c2 then
        match close_at s2 with
        | Some m => Some (substring 0 m s2, m + 4)
        | None => None
        end
      else None
  | _ => None
  end.

Fixpoint scan (f : list string -> completion string) (s : string) (skip : nat)
  : completion string :=
  match skip with
  | S n =>
      match s with
      | String _ s' => scan f s' n
      | EmptyString => Normal ""
      end
  | O =>
      match placeholder_at s with
      | Some (body, len) =>
          v <- f [substring 0 len s; body] ;;
          rest <- match s with
                  | String _ s' => scan f s' (len - 1)
                  | EmptyString => Normal ""
                  end ;;
          Normal (v ++ rest)
      | None =>
          match s with
          | String c s' => t <- scan f s' 0 ;; Normal (String c t)
          | EmptyString => Normal ""
          end
      end
  end.

(** [s] has no [{] and no [}]. *)
Fixpoint brace_free (s : string) : bool :=
  match s with
  | String c s' => nb c && brace_free s'
  | EmptyString => true
  end.

(** A closing pair occurs somewhere in [s]. *)
Fixpoint has_close (s : string) : bool :=
  starts_close s
  || match s with
     | String _ s' => has_close s'
     | EmptyString => false
     end.

(** The continuation of the lazy star: the closing pair, then the end of
    the match; [j] and [s0] are where the group started. *)
Definition close_cont (j : nat) (s0 : string) : cont :=
  fun i' s' caps' =>
    rmatch (Chr (char "}") +> Chr (char "}")) i' s'
           (substring 0 (i' - j) s0 :: caps')
           (fun i'' _ caps => Some (caps, i'')).

End Scanner.

(** ** Reference definitions for the transformations *)

Module Reference.
Import JsString Js.

(** A global literal replacement: every occurrence of [search] in [s],
    found from the left and not overlapping, gives way to
    [replacement]. *)
Fixpoint replaceAll_go (search replacement s : string) (skip : nat) : string :=
  match s with
  | EmptyString => ""
  | String c s' =>
      match skip with
      | S n => replaceAll_go search replacement s' n
      | O =>
          if prefix search s
          then replacement ++ replaceAll_go search replacement s' (length search - 1)
          else String c (replaceAll_go search replacement s' 0)
      end
  end.

Definition replaceAll (s search replacement : string) : string :=
  replaceAll_go search replacement s 0.

(** The pairs applied in order, each to the output of the one before; a
    pair with an empty search string changes nothing. *)
Definition apply_pairs (start : string) (pairs : list (string * string)) : string :=
  fold_left
    (fun acc pair =>
       if is_empty (fst pair) then acc else replaceAll acc (fst pair) (snd pair))
    pairs start.

(** The argument that [['search', 'replacement']] parses to. *)
Definition pair_arg (pair : string * string) : arg :=
  AArray [fst pair; snd pair].

(** A document in which no object has an own property named [toString]:
    [String] raises on no part of it. *)
Fixpoint plain (j : Json) : bool :=
  match j with
  | JArray items => forallb plain items
  | JObject fields =>
      match own_property fields "toString" with
      | Some _ => false
      | None => true
      end
      && (fix plain_fields (l : list (string * Json)) : bool :=
            match l with
            | [] => true
            | (_, v) :: l' => plain v && plain_fields l'
            end) fields
  | _ => true
  end.

Fixpoint plain_fields (l : list (string * Json)) : bool :=
  match l with
  | [] => true
  | (_, v) :: l' => plain v && plain_fields l'
  end.

Definition safe (v : value) : bool :=
  match v with
  | VJson j => plain j
  | VPrototype _ | VFunction _ _ => true
  end.

(** The text of the instant [t] ms after the epoch: the host's short
    date, or the sentinel when [t] is no time value. *)
Definition instant_text (host : Host) (t : Z) : string :=
  match JsDate.of_number t with
  | Some t' => toLocaleDateString host t'
  | None => "#ERROR"
  end.

(** The key of the element [i] of an array. *)
Definition index_key (i : nat) : string :=
  NilEmpty.string_of_uint (N.to_uint (N.of_nat i)).

(** [s] has no dot. *)
Fixpoint dot_free (s : string) : bool :=
  match s with
  | String c s' => negb (Ascii.eqb c ".") && dot_free s'
  | EmptyString => true
  end.

End Reference.

(** ** The argument expressions, read off as a tokenizer

    What one turn of the [exec] loops of [parseTransformationArgs] matches,
    written without backtracking; [match_here_args] and [match_here_arr]
    below show that it agrees with the two regular expressions. *)

Module Tokens.
Import JsString Regex.

Fixpoint take_while (p : ascii -> bool) (s : string) : string :=
  match s with
  | String c s' => if p c then String c (take_while p s') else ""
  | EmptyString => ""
  end.

Fixpoint drop_while (p : ascii -> bool) (s : string) : string :=
  match s with
  | String c s' => if p c then drop_while p s' else s
  | EmptyString => ""
  end.

(** Every code unit of [s] is in the class [p]. *)
Fixpoint all_chars (p : ascii -> bool) (s : string) : bool :=
  match s with
  | String c s' => p c && all_chars p s'
  | EmptyString => true
  end.

(** [s] without its first [n] code units. *)
Fixpoint drop (n : nat) (s : string) : string :=
  match n, s with
  | S n', String _ s' => drop n' s'
  | _, _ => s
  end.

(** [\s* ( , | $ )]: the white space and the comma or end of input behind
    a token; the text of the last group and the length of it all. *)
Definition token_end (s : string) : option (string * nat) :=
  let ws := take_while is_space s in
  match drop_while is_space s with
  | EmptyString => Some ("", length ws)
  | String c _ => if char "," c then Some (",", length ws + 1) else None
  end.

(** A token between [opening] and the next [closing]: its text and the
    input behind it. *)
Definition delimited (opening closing : ascii) (s : string)
  : option (string * string) :=
  match s with
  | String c s1 =>
      if char opening c then
        match drop_while (none_of [closing]) s1 with
        | String c' rest =>
            Some (String c (take_while (none_of [closing]) s1 ++ String c' ""), rest)
        | EmptyString => None
        end
      else None
  | EmptyString => None
  end.

(** A delimited token with the end of a token behind it. *)
Definition delimited_token (opening closing : ascii) (s : string)
  : option (string * string * nat) :=
  match delimited opening closing s with
  | Some (tok, rest) =>
      match token_end rest with
      | Some (g2, n) => Some (tok, g2, length tok + n)
      | None => None
      end
  | None => None
  end.

(** [[^,\s] [^,]*] with the end of a token behind it. *)
Definition bare_token (s : string) : option (string * string * nat) :=
  match s with
  | String c s1 =>
      if none_of [","%char] c && negb (is_space c) then
        let tok := String c (take_while (none_of [","%char]) s1) in
        match drop_while (none_of [","%char]) s1 with
        | EmptyString => Some (tok, "", length tok)
        | String _ _ => Some (tok, ",", length tok + 1)
        end
      else None
  | EmptyString => None
  end.

Definition or_else {A : Type} (a b : option A) : option A :=
  match a with
  | Some x => Some x
  | None => b
  end.

(** The alternatives of the first group, in the order of the expression;
    [brackets] says whether array literals are among them. *)
Definition token_at (brackets : bool) (s : string)
  : option (string * string * nat) :=
  or_else (if brackets then delimited_token "[" "]" s else None)
          (or_else (delimited_token "'" "'" s) (bare_token s)).

(** A match that starts at the head of [s]: the match array and its
    length. *)
Definition arg_at (brackets : bool) (s : string) : option (list string * nat) :=
  let ws := take_while is_space s in
  match token_at brackets (drop_while is_space s) with
  | Some (g1, g2, n) =>
      Some ([substring 0 (length ws + n) s; g1; g2], length ws + n)
  | None => None
  end.

(** The [exec] loop. *)
Fixpoint tokenize (brackets : bool) (s : string) (skip : nat)
  : list (list string) :=
  match skip with
  | S n =>
      match s with
      | String _ s' => tokenize brackets s' n
      | EmptyString => []
      end
  | O =>
      match arg_at brackets s with
      | Some (m, n) =>
          m :: match s with
               | String _ s' => tokenize brackets s' (n - 1)
               | EmptyString => []
               end
      | None =>
          match s with
          | String _ s' => tokenize brackets s' 0
          | EmptyString => []
          end
      end
  end.

(** The continuation behind the first group, which started at position
    [i] on the input [s]: the group is closed, then comes the end of the
    token. *)
Definition token_cont (i : nat) (s : string) : cont :=
  fun i' s' caps' =>
    rmatch (Star is_space +> Group (Chr (char ",") <|> Eos)) i' s'
           (substring 0 (i' - i) s :: caps')
           (fun i'' _ caps => Some (caps, i'')).

(** A code unit of a plain token: no comma, quote, bracket or white
    space. *)
Definition bare_char (c : ascii) : bool :=
  none_of [","%char; "'"%char; "["%char; "]"%char] c && negb (is_space c).

(** The input behind a token and its white space: the end of the input,
    or a comma and the rest. *)
Definition behind (rest : option string) : string :=
  match rest with
  | None => ""
  | Some r => "," ++ r
  end.

(** The text of an argument list: strings in single quotes, arrays in
    brackets, a comma and a space between two arguments or elements. *)
Definition quote (s : string) : string := "'" ++ s ++ "'".

Fixpoint render_elements (l : list string) : string :=
  match l with
  | [] => ""
  | [x] => quote x
  | x :: l' => quote x ++ ", " ++ render_elements l'
  end.

Definition render_arg (a : arg) : string :=
  match a with
  | AString s => quote s
  | AArray l => "[" ++ render_elements l ++ "]"
  end.

Fixpoint render_args (l : list arg) : string :=
  match l with
  | [] => ""
  | [a] => render_arg a
  | a :: l' => render_arg a ++ ", " ++ render_args l'
  end.

(** The arguments that the text can hold: no quote inside a string, and
    no closing bracket inside an element of an array. *)
Definition quotable (s : string) : bool := all_chars (none_of ["'"%char]) s.

Definition renderable (a : arg) : bool :=
  match a with
  | AString s => quotable s
  | AArray l => forallb (fun s => quotable s && all_chars (none_of ["]"%char]) s) l
  end.

End Tokens.

(** ** Well formed placeholders

    The texts for which the properties of whole placeholders are stated: a
    key path of words and dots, literals without line terminator, brace,
    quote or closing bracket. *)

Module Calls.
Import JsString Regex Scanner Tokens.

Definition path_char (c : ascii) : bool := is_word c || char "." c.

Definition literal_char (c : ascii) : bool :=
  is_dot c && nb c && none_of ["'"%char; "]"%char] c.

Definition literal (s : string) : bool := all_chars literal_char s.

Definition literal_arg (a : arg) : bool :=
  match a with
  | AString s => literal s
  | AArray l => forallb literal l
  end.

(** [name(inner)], with white space around it, between the delimiters. *)
Definition call (ws1 name inner ws2 : string) : string :=
  "{{" ++ ws1 ++ name ++ "(" ++ inner ++ ")" ++ ws2 ++ "}}".

(** The arguments of a call: the key alone, or the key, a comma, a space
    and the other arguments. *)
Definition call_args (key : string) (args : list arg) : string :=
  match args with
  | [] => key
  | _ :: _ => key ++ ", " ++ render_args args
  end.

End Calls.

(** ** Predicates on templates, values and keys *)

Module Shapes.
Import JsString Js.

Definition starts_open (s : string) : bool :=
  match s with
  | String c (String c' _) => char "{" c && char "{" c'
  | _ => false
  end.

(** An opening pair occurs somewhere in [s]. *)
Fixpoint has_open (s : string) : bool :=
  starts_open s
  || match s with
     | String _ s' => has_open s'
     | EmptyString => false
     end.

(** [search] occurs somewhere in [s]. *)
Fixpoint occurs (search s : string) : bool :=
  prefix search s
  || match s with
     | String _ s' => occurs search s'
     | EmptyString => false
     end.

(** A value that passes [current && typeof current === "object"]. *)
Definition indexable (v : value) : bool :=
  match v with
  | VJson (JObject _) | VJson (JArray _) | VPrototype _ => true
  | _ => false
  end.

(** A key that every object inherits from [Object.prototype]. *)
Definition inherited_name (key : string) : bool :=
  (key =? "__proto__") || existsb (String.eqb key) Object_prototype.

End Shapes.

(** ** Induction on documents *)

Section Json_induction.

Variable P : Json -> Prop.
Hypothesis Hnull : P JNull.
Hypothesis Hbool : forall b, P (JBool b).
Hypothesis Hnumber : forall n, P (JNumber n).
Hypothesis Hstring : forall s, P (JString s).
Hypothesis Harray : forall items, Forall P items -> P (JArray items).
Hypothesis Hobject :
  forall fields, Forall (fun kv => P (snd kv)) fields -> P (JObject fields).

Fixpoint Json_induction (j : Json) : P j :=
  match j with
  | JNull => Hnull
  | JBool b => Hbool b
  | JNumber n => Hnumber n
  | JString s => Hstring s
  | JArray items =>
      Harray items
        ((fix all (l : list Json) : Forall P l :=
            match l with
            | [] => Forall_nil P
            | x :: l' => Forall_cons x (Json_induction x) (all l')
            end) items)
  | JObject fields =>
      Hobject fields
        ((fix all (l : list (string * Json)) : Forall (fun kv => P (snd kv)) l :=
            match l with
            | [] => Forall_nil _
            | kv :: l' => Forall_cons kv (Json_induction (snd kv)) (all l')
            end) fields)
  end.

End Json_induction.

(** * Properties *)

Import JsString Js Regex Transformations Parser Resolver Format Scanner Reference.
Import Tokens Calls Shapes.

(** ** Strings and completions *)

Lemma append_assoc (a b c : string) : (a ++ b) ++ c = a ++ (b ++ c).
Proof. induction a as [|x a IH]; simpl; [reflexivity | now rewrite IH]. Qed.

Lemma append_nil_r (a : string) : a ++ "" = a.
Proof. induction a as [|x a IH]; simpl; [reflexivity | now rewrite IH]. Qed.

Lemma length_append (a b : string) : length (a ++ b) = (length a + length b)%nat.
Proof. induction a as [|x a IH]; simpl; [reflexivity | now rewrite IH]. Qed.

Lemma substring_0_0 (s : string) : substring 0 0 s = "".
Proof. destruct s; reflexivity. Qed.

Lemma substring_0_append (a b : string) (n : nat) :
  substring 0 (length a + n) (a ++ b) = a ++ substring 0 n b.
Proof. induction a as [|x a IH]; simpl; [reflexivity | now rewrite IH]. Qed.

Lemma substring_0_length (a b : string) : substring 0 (length a) (a ++ b) = a.
Proof.
  replace (length a) with (length a + 0) by lia.
  rewrite substring_0_append, substring_0_0. apply append_nil_r.
Qed.

Lemma substring_0_app_le (p z : string) (m : nat) :
  m <= length p -> substring 0 m (p ++ z) = substring 0 m p.
Proof.
  revert m. induction p as [|a p IH]; intros m Hm.
  - cbn [length] in Hm. replace m with 0 by lia. now rewrite !substring_0_0.
  - destruct m as [|m]; [reflexivity|]. cbn [append substring length] in *.
    rewrite IH by lia. reflexivity.
Qed.

Lemma bind_Normal_r {A} (c : completion A) : (x <- c ;; Normal x) = c.
Proof. destruct c; reflexivity. Qed.

(** [String(n)] on numbers in and beyond the range of the integers that
    print as their digits. *)
Example Number_toString_examples :
  Number_toString 0 = "0"
  /\ Number_toString (-42) = "-42"
  /\ Number_toString (2 ^ 53) = "9007199254740992"
  /\ Number_toString (2 ^ 53 + 2) = "9007199254740994"
  /\ Number_toString (2 ^ 64) = "18446744073709552000"
  /\ Number_toString (10 ^ 21 - 2 ^ 17) = "999999999999999900000"
  /\ Number_toString (10 ^ 21) = "1e+21"
  /\ Number_toString (- 10 ^ 21) = "-1e+21"
  /\ Number_toString (2 ^ 70) = "1.1805916207174113e+21"
  /\ Number_toString (2 ^ 1024 - 2 ^ 971) = "1.7976931348623157e+308".
Proof. vm_compute. repeat split; reflexivity. Qed.

(** ** The scanner agrees with the regular expression *)

Lemma close_not_nb c : char "}" c = true -> nb c = false.
Proof.
  unfold char, nb, none_of. intros H. apply Ascii.eqb_eq in H. subst c. reflexivity.
Qed.

Lemma open_not_nb c : char "{" c = true -> nb c = false.
Proof.
  unfold char, nb, none_of. intros H. apply Ascii.eqb_eq in H. subst c. reflexivity.
Qed.

Lemma open_not_close c : char "{" c = true -> char "}" c = false.
Proof.
  unfold char. intros H. apply Ascii.eqb_eq in H. subst c. reflexivity.
Qed.

Lemma nb_not_close c : nb c = true -> char "}" c = false.
Proof.
  intros H. destruct (char "}" c) eqn:E; [|reflexivity].
  apply close_not_nb in E. congruence.
Qed.

Lemma close_cont_eq j s0 i s caps :
  close_cont j s0 i s caps =
  if starts_close s then Some (substring 0 (i - j) s0 :: caps, S (S i)) else None.
Proof.
  unfold close_cont, starts_close. cbn [rmatch].
  destruct s as [|c [|c' s]]; [reflexivity| |].
  - destruct (char "}" c); reflexivity.
  - destruct (char "}" c); [|reflexivity].
    destruct (char "}" c'); reflexivity.
Qed.

Lemma star_lazy_close (s pre : string) (j : nat) :
  star_lazy nb (j + length pre) s [] (close_cont j (pre ++ s))
  = match close_at s with
    | Some m => Some ([pre ++ substring 0 m s], j + length pre + m + 2)
    | None => None
    end.
Proof.
  revert pre. induction s as [|c s IH]; intros pre.
  - reflexivity.
  - cbn [star_lazy close_at]. rewrite close_cont_eq.
    change (starts_close (String c s))
      with (match s with
            | String c' _ => char "}" c && char "}" c'
            | EmptyString => false
            end).
    destruct (char "}" c) eqn:Hc.
    + rewrite (close_not_nb c Hc). destruct s as [|c' s']; [reflexivity|].
      cbn [andb]. destruct (char "}" c') eqn:Hc'; [|reflexivity].
      f_equal. f_equal.
      * f_equal. replace (j + length pre - j) with (length pre + 0) by lia.
        now rewrite substring_0_append.
      * lia.
    + replace (match s with
               | String c' _ => false && char "}" c'
               | EmptyString => false
               end)
        with false by (destruct s; reflexivity).
      cbn [andb]. destruct (nb c) eqn:Hnb; [|reflexivity].
      specialize (IH (pre ++ String c "")).
      rewrite length_append in IH. cbn [length] in IH.
      replace (S (j + length pre)) with (j + (length pre + 1)) by lia.
      rewrite append_assoc in IH. cbn [append] in IH.
      rewrite IH. destruct (close_at s) as [m|]; [|reflexivity].
      cbn [option_map]. f_equal. f_equal.
      * f_equal. rewrite append_assoc. reflexivity.
      * lia.
Qed.

Lemma match_here_placeholder (i : nat) (s : string) :
  match_here placeholderRegex i s =
  match placeholder_at s with
  | Some (body, len) => Some ([substring 0 len s; body], i + len)
  | None => None
  end.
Proof.
  unfold match_here, placeholderRegex, placeholder_at.
  destruct s as [|c1 s]; [reflexivity|]. cbn [rmatch].
  destruct (char "{" c1); [|destruct s; reflexivity].
  destruct s as [|c2 s]; [reflexivity|].
  destruct (char "{" c2); [|reflexivity]. cbn [andb].
  change (star_lazy _ (S (S i)) s [] _)
    with (star_lazy nb (S (S i)) s [] (close_cont (S (S i)) s)).
  pose proof (star_lazy_close s "" (S (S i))) as H.
  cbn [length append] in H. rewrite Nat.add_0_r in H. rewrite H.
  destruct (close_at s) as [m|]; [|reflexivity].
  cbn [rev app]. f_equal. f_equal; [|lia].
  f_equal. f_equal. lia.
Qed.

Lemma close_at_bound p m : close_at p = Some m -> m + 2 <= length p.
Proof.
  revert m. induction p as [|a p IH]; intros m; [discriminate|].
  cbn [close_at length].
  destruct (char "}" a && _) eqn:E.
  - intros [= <-]. destruct p; [|cbn [length]; lia].
    rewrite andb_false_r in E. discriminate.
  - destruct (nb a); [|discriminate].
    destruct (close_at p) as [m'|]; [|discriminate].
    intros [= <-]. specialize (IH m' eq_refl). lia.
Qed.

Lemma placeholder_at_bound s body len :
  placeholder_at s = Some (body, len) -> 4 <= len <= length s.
Proof.
  unfold placeholder_at. destruct s as [|c1 [|c2 s]]; try discriminate.
  destruct (char "{" c1 && char "{" c2); [|discriminate].
  destruct (close_at s) as [m|] eqn:E; [|discriminate].
  apply close_at_bound in E. intros [= <- <-]. cbn [length]. lia.
Qed.

(** [template.replace(placeholderRegex, f)] is [scan f]. *)
Lemma replace_loop_scan f s : forall i skip,
  replace_loop placeholderRegex f s i skip = scan f s skip.
Proof.
  induction s as [|c s IH]; intros i skip.
  - destruct skip; cbn [replace_loop scan];
      [rewrite match_here_placeholder|]; reflexivity.
  - destruct skip as [|n]; cbn [replace_loop scan]; [|apply IH].
    rewrite match_here_placeholder.
    destruct (placeholder_at (String c s)) as [[body len]|] eqn:Hp.
    + apply placeholder_at_bound in Hp.
      replace (i + len =? i)%nat with false by (symmetry; apply Nat.eqb_neq; lia).
      replace (i + len - i - 1) with (len - 1) by lia.
      rewrite IH. reflexivity.
    + rewrite IH. reflexivity.
Qed.

Lemma format_scan host t data :
  formatStringWithData host (Some t) data
  = scan (replacer host (dataToUse data)) t 0.
Proof.
  unfold formatStringWithData, Regex.replace. destruct t as [|c t]; [reflexivity|].
  cbn [is_empty]. apply replace_loop_scan.
Qed.

(** ** The scanner on a template cut into parts *)

Lemma scan_0 f s :
  scan f s 0 =
  match placeholder_at s with
  | Some (body, len) =>
      v <- f [substring 0 len s; body] ;;
      rest <- match s with
              | String _ s' => scan f s' (len - 1)
              | EmptyString => Normal ""
              end ;;
      Normal (v ++ rest)
  | None =>
      match s with
      | String c s' => t <- scan f s' 0 ;; Normal (String c t)
      | EmptyString => Normal ""
      end
  end.
Proof. destruct s; reflexivity. Qed.

Lemma scan_skip f x y : scan f (x ++ y) (length x) = scan f y 0.
Proof.
  induction x as [|c x IH]; [reflexivity|]. cbn [append length scan]. exact IH.
Qed.

Lemma close_at_body body post :
  brace_free body = true ->
  close_at (body ++ String "}" (String "}" post)) = Some (length body).
Proof.
  induction body as [|c b IH]; intros H.
  - reflexivity.
  - cbn [brace_free] in H. apply andb_true_iff in H as [Hc Hb].
    cbn [append close_at]. rewrite (nb_not_close c Hc), Hc. cbn [andb].
    rewrite (IH Hb). reflexivity.
Qed.

Lemma placeholder_at_body body post :
  brace_free body = true ->
  placeholder_at ("{{" ++ body ++ "}}" ++ post) = Some (body, length body + 4).
Proof.
  intros H. cbn [append placeholder_at].
  change (char "{" "{") with true. cbn [andb].
  rewrite (close_at_body body post H), substring_0_length. reflexivity.
Qed.

(** A placeholder at the head of the template: the function is called on
    it, and the scan goes on behind it. *)
Lemma scan_placeholder f body post :
  brace_free body = true ->
  scan f ("{{" ++ body ++ "}}" ++ post) 0 =
  (v <- f ["{{" ++ body ++ "}}"; body] ;;
   rest <- scan f post 0 ;;
   Normal (v ++ rest)).
Proof.
  intros H. rewrite scan_0, (placeholder_at_body body post H).
  replace (substring 0 (length body + 4) ("{{" ++ body ++ "}}" ++ post))
    with ("{{" ++ body ++ "}}").
  2:{ replace ("{{" ++ body ++ "}}" ++ post) with (("{{" ++ body ++ "}}") ++ post).
      - replace (length body + 4) with (length ("{{" ++ body ++ "}}")).
        + now rewrite substring_0_length.
        + cbn [append length]. rewrite length_append. cbn [length]. lia.
      - cbn [append]. now rewrite append_assoc. }
  cbn [append].
  replace (length body + 4 - 1) with (length (String "{" (body ++ "}}"))).
  2:{ cbn [length]. rewrite length_append. cbn [length]. lia. }
  replace (String "{" (body ++ String "}" (String "}" post)))
    with (String "{" (body ++ "}}") ++ post).
  2:{ cbn [append]. now rewrite append_assoc. }
  rewrite scan_skip. reflexivity.
Qed.

Lemma close_at_app_open p c y :
  char "{" c = true -> close_at (p ++ String c y) = close_at p.
Proof.
  intros Hc. induction p as [|a p IH].
  - cbn [append close_at]. rewrite (open_not_close c Hc), (open_not_nb c Hc). reflexivity.
  - cbn [append close_at]. rewrite IH.
    destruct p as [|a' p']; cbn [append]; [|reflexivity].
    rewrite (open_not_close c Hc). reflexivity.
Qed.

(** An opening pair behind [pre] changes nothing for a placeholder that
    starts in [pre]. *)
Lemma placeholder_at_app_open pre y :
  pre <> "" ->
  placeholder_at (pre ++ String "{" (String "{" y)) = placeholder_at pre.
Proof.
  intros Hpre. destruct pre as [|c1 pre]; [congruence|]. clear Hpre.
  destruct pre as [|c2 pre].
  - cbn [append placeholder_at close_at].
    change (char "}" "{") with false. change (nb "{") with false.
    cbn [andb]. destruct (char "{" c1 && char "{" "{"); reflexivity.
  - cbn [append placeholder_at].
    destruct (char "{" c1 && char "{" c2); [|reflexivity].
    rewrite close_at_app_open by reflexivity.
    destruct (close_at pre) as [m|] eqn:E; [|reflexivity].
    apply close_at_bound in E. rewrite substring_0_app_le by lia. reflexivity.
Qed.

(** The text in front of an opening pair is scanned on its own. *)
Lemma scan_app f pre y : forall skip,
  skip <= length pre ->
  scan f (pre ++ String "{" (String "{" y)) skip =
  (a <- scan f pre skip ;;
   b <- scan f (String "{" (String "{" y)) 0 ;;
   Normal (a ++ b)).
Proof.
  induction pre as [|c p IH]; intros skip Hskip.
  - cbn [length] in Hskip. replace skip with 0 by lia.
    cbn [append]. change (scan f "" 0) with (@Normal string "").
    cbn [bind append]. now rewrite bind_Normal_r.
  - destruct skip as [|n].
    + rewrite (scan_0 f (String c p)).
      change (String c p ++ String "{" (String "{" y))
        with (String c (p ++ String "{" (String "{" y))).
      rewrite scan_0.
      change (String c (p ++ String "{" (String "{" y)))
        with (String c p ++ String "{" (String "{" y)).
      rewrite placeholder_at_app_open by discriminate.
      destruct (placeholder_at (String c p)) as [[body len]|] eqn:Hp.
      * apply placeholder_at_bound in Hp. cbn [length] in Hp.
        rewrite substring_0_app_le by (cbn [length]; lia).
        cbn [append]. rewrite IH by lia.
        destruct (f _); [|reflexivity]. cbn [bind].
        destruct (scan f p (len - 1)); [|reflexivity]. cbn [bind].
        destruct (scan f _ 0); [|reflexivity]. cbn [bind].
        now rewrite append_assoc.
      * cbn [append]. rewrite IH by lia.
        destruct (scan f p 0); [|reflexivity]. cbn [bind].
        destruct (scan f _ 0); reflexivity.
    + cbn [append scan]. cbn [length] in Hskip. apply IH. lia.
Qed.

Lemma close_at_has_close s m : close_at s = Some m -> has_close s = true.
Proof.
  revert m. induction s as [|a s IH]; intros m; [discriminate|].
  cbn [close_at has_close]. unfold starts_close.
  destruct s as [|a' s'].
  - rewrite andb_false_r. destruct (nb a); discriminate.
  - destruct (char "}" a && char "}" a'); [reflexivity|].
    destruct (nb a); [|discriminate].
    destruct (close_at (String a' s')) as [m'|] eqn:E; [|discriminate].
    intros _. rewrite (IH m' eq_refl). apply orb_true_r.
Qed.

Lemma has_close_tail c s : has_close (String c s) = false -> has_close s = false.
Proof. cbn [has_close]. intros H. apply orb_false_iff in H. tauto. Qed.

Lemma no_close_placeholder s : has_close s = false -> placeholder_at s = None.
Proof.
  intros H. unfold placeholder_at. destruct s as [|c1 [|c2 s]]; try reflexivity.
  destruct (char "{" c1 && char "{" c2); [|reflexivity].
  destruct (close_at s) as [m|] eqn:E; [|reflexivity].
  apply close_at_has_close in E.
  apply has_close_tail, has_close_tail in H. congruence.
Qed.

(** Text without a closing pair is copied as it is. *)
Lemma scan_no_close f s : has_close s = false -> scan f s 0 = Normal s.
Proof.
  induction s as [|c s IH]; intros H; [reflexivity|].
  rewrite scan_0, (no_close_placeholder _ H), (IH (has_close_tail _ _ H)).
  reflexivity.
Qed.

(** A placeholder anywhere in a template: the parts around it are
    formatted on their own and the placeholder gives way to what
    [replacer] returns on its body. *)
Lemma format_placeholder host data pre body post :
  brace_free body = true ->
  formatStringWithData host (Some (pre ++ "{{" ++ body ++ "}}" ++ post)) data =
  (a <- formatStringWithData host (Some pre) data ;;
   v <- replacer host (dataToUse data) ["{{" ++ body ++ "}}"; body] ;;
   b <- formatStringWithData host (Some post) data ;;
   Normal (a ++ v ++ b)).
Proof.
  intros H. rewrite !format_scan.
  change ("{{" ++ body ++ "}}" ++ post)
    with (String "{" (String "{" (body ++ "}}" ++ post))).
  rewrite scan_app by lia.
  change (String "{" (String "{" (body ++ "}}" ++ post)))
    with ("{{" ++ body ++ "}}" ++ post).
  rewrite (scan_placeholder _ body post H).
  destruct (scan _ pre 0); [|reflexivity]. cbn [bind].
  destruct (replacer _ _ _); [|reflexivity]. cbn [bind].
  destruct (scan _ post 0); reflexivity.
Qed.

(** A single placeholder as the whole template. *)
Lemma format_single host data body :
  brace_free body = true ->
  formatStringWithData host (Some ("{{" ++ body ++ "}}")) data =
  replacer host (dataToUse data) ["{{" ++ body ++ "}}"; body].
Proof.
  intros H. pose proof (format_placeholder host data "" body "" H) as E.
  cbn [append] in E. cbn [append]. rewrite E.
  cbn [formatStringWithData is_empty bind].
  destruct (replacer _ _ _); [|reflexivity]. cbn [bind append].
  now rewrite append_nil_r.
Qed.

(** ** Plain key paths *)

(** X30. In any template, a placeholder whose trimmed body is not empty
    and is not a transformation call is a plain key path: it gives way to
    the empty string when [resolveDataPath] answers [undefined] or [null]
    on the trimmed body, and to [String(value)] of what it answers
    otherwise; the text before and after it is formatted on its own. *)
Theorem plain_key_path_placeholder host data pre body post :
  brace_free body = true ->
  trim body <> "" ->
  match_ (trim body) transformationRegex = None ->
  formatStringWithData host (Some (pre ++ "{{" ++ body ++ "}}" ++ post)) data =
  (a <- formatStringWithData host (Some pre) data ;;
   v <- match resolveDataPath (dataToUse data) (trim body) with
        | None | Some (VJson JNull) => Normal ""
        | Some value => ToString host value
        end ;;
   b <- formatStringWithData host (Some post) data ;;
   Normal (a ++ v ++ b)).
Proof.
  intros Hbody Hne Hplain. rewrite (format_placeholder host data pre body post Hbody).
  unfold replacer. cbn [nth]. rewrite Hplain.
  destruct (trim body) as [|c t]; [congruence|]. reflexivity.
Qed.

Lemma plain_key_path_placeholder_witness :
  brace_free "name" = true
  /\ trim "name" <> ""
  /\ match_ (trim "name") transformationRegex = None
  /\ formatStringWithData ReferenceHost.host (Some "Hello, {{name}}!")
       (Some (JObject [("name", JString "John Doe")]))
     = Normal "Hello, John Doe!".
Proof.
  assert (H1 : brace_free "name" = true) by reflexivity.
  assert (H2 : trim "name" <> "") by discriminate.
  assert (H3 : match_ (trim "name") transformationRegex = None) by reflexivity.
  refine (conj H1 (conj H2 (conj H3 _))).
  exact (plain_key_path_placeholder ReferenceHost.host
           (Some (JObject [("name", JString "John Doe")]))
           "Hello, " "name" "!" H1 H2 H3).
Defined.

(** C1, at the failing input. The empty document has no key [toString],
    and the placeholder of a key that the document lacks is to give way to
    the empty string, as [{{nonExistentKey}}] does.  The [in] test of the
    resolver finds [toString] on [Object.prototype] all the same:
    [{{toString}}] gives way to the text of the built-in function.  The
    registry, which asks [hasOwnProperty], does not find that name. *)
Theorem plain_key_path_inherited_name host :
  let data := JObject [] in
  own_property [] "toString" = None
  /\ resolveDataPath data "toString"
     = Some (VFunction ObjectPrototype "toString")
  /\ formatStringWithData host (Some "{{toString}}") (Some data)
     = Normal (Function_toString host ObjectPrototype "toString")
  /\ formatStringWithData ReferenceHost.host (Some "{{toString}}") (Some data)
     = Normal "function toString() { [native code] }"
  /\ formatStringWithData host (Some "{{nonExistentKey}}") (Some data)
     = Normal ""
  /\ lookup "toString" (defaultTransformations host) = None
  /\ formatStringWithData host (Some "{{toString(x)}}") (Some data)
     = Normal "#ERROR".
Proof.
  cbv zeta. repeat split; try reflexivity.
  exact (format_single host (Some (JObject [])) "toString" eq_refl).
Qed.

(** ** Unterminated placeholders *)

Lemma has_close_open tail : has_close ("{{" ++ tail) = has_close tail.
Proof.
  cbn [append has_close starts_close].
  change (char "}" "{") with false. cbn [andb orb].
  destruct tail; reflexivity.
Qed.

(** C8. An opening pair with no closing pair behind it stays in the
    output as it is, with all the text that follows it; in particular
    [format("{{name", {name: "x"})] is ["{{name"]. *)
Theorem unterminated_placeholder_literal host data pre tail :
  has_close tail = false ->
  formatStringWithData host (Some (pre ++ "{{" ++ tail)) data =
  (a <- formatStringWithData host (Some pre) data ;;
   Normal (a ++ "{{" ++ tail)).
Proof.
  intros H. rewrite !format_scan.
  change ("{{" ++ tail) with (String "{" (String "{" tail)).
  rewrite scan_app by lia.
  rewrite (scan_no_close _ (String "{" (String "{" tail))).
  - reflexivity.
  - change (String "{" (String "{" tail)) with ("{{" ++ tail).
    now rewrite has_close_open.
Qed.

Lemma unterminated_placeholder_literal_witness :
  has_close "name" = false
  /\ formatStringWithData ReferenceHost.host (Some "{{name")
       (Some (JObject [("name", JString "x")]))
     = Normal "{{name".
Proof.
  assert (H : has_close "name" = false) by reflexivity.
  refine (conj H _).
  exact (unterminated_placeholder_literal ReferenceHost.host
           (Some (JObject [("name", JString "x")])) "" "name" H).
Defined.

(** ** Transformation calls *)

Lemma transformation_match_nonempty s tm :
  match_ s transformationRegex = Some tm -> is_empty s = false.
Proof. destruct s; [discriminate | reflexivity]. Qed.

Lemma lookup_unknown host name :
  name <> "default" -> name <> "date" -> name <> "replace" ->
  lookup name (defaultTransformations host) = None.
Proof.
  intros H1 H2 H3. unfold defaultTransformations. cbn [lookup].
  rewrite (proj2 (String.eqb_neq "default" name)) by congruence.
  rewrite (proj2 (String.eqb_neq "date" name)) by congruence.
  rewrite (proj2 (String.eqb_neq "replace" name)) by congruence.
  reflexivity.
Qed.

(** C6. A placeholder that is a transformation call whose name is none of
    [default], [date] and [replace] gives way to ["#ERROR"], whatever the
    data; in particular [format("{{bogus(x)}}", {x: 1})] is ["#ERROR"]. *)
Theorem unknown_transformation_error host data pre body post tm :
  brace_free body = true ->
  match_ (trim body) transformationRegex = Some tm ->
  nth 1 tm "" <> "default" ->
  nth 1 tm "" <> "date" ->
  nth 1 tm "" <> "replace" ->
  formatStringWithData host (Some (pre ++ "{{" ++ body ++ "}}" ++ post)) data =
  (a <- formatStringWithData host (Some pre) data ;;
   b <- formatStringWithData host (Some post) data ;;
   Normal (a ++ "#ERROR" ++ b)).
Proof.
  intros Hbody Hcall H1 H2 H3.
  rewrite (format_placeholder host data pre body post Hbody).
  unfold replacer. cbn [nth].
  rewrite (transformation_match_nonempty _ _ Hcall), Hcall.
  rewrite (lookup_unknown host _ H1 H2 H3). reflexivity.
Qed.

Lemma unknown_transformation_error_witness :
  brace_free "bogus(x)" = true
  /\ match_ (trim "bogus(x)") transformationRegex = Some ["bogus(x)"; "bogus"; "x"]
  /\ nth 1 ["bogus(x)"; "bogus"; "x"] "" <> "default"
  /\ nth 1 ["bogus(x)"; "bogus"; "x"] "" <> "date"
  /\ nth 1 ["bogus(x)"; "bogus"; "x"] "" <> "replace"
  /\ formatStringWithData ReferenceHost.host (Some "{{bogus(x)}}")
       (Some (JObject [("x", JNumber 1)]))
     = Normal "#ERROR".
Proof.
  assert (H1 : brace_free "bogus(x)" = true) by reflexivity.
  assert (H2 : match_ (trim "bogus(x)") transformationRegex
               = Some ["bogus(x)"; "bogus"; "x"]) by reflexivity.
  assert (H3 : nth 1 ["bogus(x)"; "bogus"; "x"] "" <> "default") by discriminate.
  assert (H4 : nth 1 ["bogus(x)"; "bogus"; "x"] "" <> "date") by discriminate.
  assert (H5 : nth 1 ["bogus(x)"; "bogus"; "x"] "" <> "replace") by discriminate.
  refine (conj H1 (conj H2 (conj H3 (conj H4 (conj H5 _))))).
  exact (unknown_transformation_error ReferenceHost.host
           (Some (JObject [("x", JNumber 1)])) "" "bogus(x)" ""
           ["bogus(x)"; "bogus"; "x"] H1 H2 H3 H4 H5).
Defined.

(** C7 as stated, on a call whose arguments do not fit the transformation:
    [default] called without a fallback raises nothing, it hands back the
    missing argument, and the placeholder reads ["undefined"], not
    ["#ERROR"]. *)
Lemma argument_mismatch_not_error :
  signature_ok "default" (tl (parseTransformationArgs "missing")) = false
  /\ formatStringWithData ReferenceHost.host (Some "{{default(missing)}}")
       (Some (JObject []))
     = Normal "undefined"
  /\ formatStringWithData ReferenceHost.host (Some "{{default(missing)}}")
       (Some (JObject []))
     <> Normal "#ERROR".
Proof.
  split; [reflexivity|]. split; [reflexivity|]. discriminate.
Qed.

(** C7, amended. A failure raised while the transformation of a call runs
    is caught: the placeholder gives way to ["#ERROR"] and the rest of the
    template is formatted as usual. *)
Theorem transformation_failure_caught host data pre body post tm f e :
  brace_free body = true ->
  match_ (trim body) transformationRegex = Some tm ->
  lookup (nth 1 tm "") (defaultTransformations host) = Some f ->
  f (keyValue (dataToUse data) (parseTransformationArgs (nth 2 tm "")))
    (tl (parseTransformationArgs (nth 2 tm ""))) = Throw e ->
  formatStringWithData host (Some (pre ++ "{{" ++ body ++ "}}" ++ post)) data =
  (a <- formatStringWithData host (Some pre) data ;;
   b <- formatStringWithData host (Some post) data ;;
   Normal (a ++ "#ERROR" ++ b)).
Proof.
  intros Hbody Hcall Hf Hraise.
  rewrite (format_placeholder host data pre body post Hbody).
  unfold replacer. cbn [nth].
  rewrite (transformation_match_nonempty _ _ Hcall), Hcall, Hf.
  unfold callTransformation. rewrite Hraise. reflexivity.
Qed.

Lemma transformation_failure_caught_witness :
  let data := Some (JObject [("x", JObject [("toString", JNumber 1)])]) in
  let tm := ["default(x,'a')"; "default"; "x,'a'"] in
  let e := TypeError "Cannot convert object to primitive value" in
  brace_free "default(x,'a')" = true
  /\ match_ (trim "default(x,'a')") transformationRegex = Some tm
  /\ lookup (nth 1 tm "") (defaultTransformations ReferenceHost.host)
     = Some (default ReferenceHost.host)
  /\ default ReferenceHost.host
       (keyValue (dataToUse data) (parseTransformationArgs (nth 2 tm "")))
       (tl (parseTransformationArgs (nth 2 tm ""))) = Throw e
  /\ formatStringWithData ReferenceHost.host (Some "{{default(x,'a')}}") data
     = Normal "#ERROR".
Proof.
  intros data tm e.
  assert (H1 : brace_free "default(x,'a')" = true) by reflexivity.
  assert (H2 : match_ (trim "default(x,'a')") transformationRegex = Some tm)
    by reflexivity.
  assert (H3 : lookup (nth 1 tm "") (defaultTransformations ReferenceHost.host)
               = Some (default ReferenceHost.host)) by reflexivity.
  assert (H4 : default ReferenceHost.host
                 (keyValue (dataToUse data) (parseTransformationArgs (nth 2 tm "")))
                 (tl (parseTransformationArgs (nth 2 tm ""))) = Throw e)
    by reflexivity.
  refine (conj H1 (conj H2 (conj H3 (conj H4 _)))).
  exact (transformation_failure_caught ReferenceHost.host data "" "default(x,'a')" ""
           tm (default ReferenceHost.host) e H1 H2 H3 H4).
Defined.

(** C4. [default] hands back the fallback when the value is missing or
    [null], and [String(value)] otherwise. *)
Theorem default_fallback host :
  (forall (value : option value) (fallback : string),
      default host value [AString fallback] =
      match value with
      | None | Some (VJson JNull) => Normal (Some (AString fallback))
      | Some v => s <- ToString host v ;; Normal (Some (AString s))
      end)
  /\ formatStringWithData host (Some "{{default(missing,'X')}}")
       (Some (JObject [])) = Normal "X"
  /\ formatStringWithData host (Some "{{default(k,'X')}}")
       (Some (JObject [("k", JNull)])) = Normal "X"
  /\ formatStringWithData host (Some "{{default(k,'X')}}")
       (Some (JObject [("k", JString "v")])) = Normal "v".
Proof.
  split.
  - intros [[[]| |]|] fallback; reflexivity.
  - split; [reflexivity|]. split; reflexivity.
Qed.

(** C10. A [null] data document is treated as the empty mapping, as an
    absent one is. *)
Theorem null_data_is_empty_mapping host template :
  formatStringWithData host template (Some JNull)
  = formatStringWithData host template (Some (JObject []))
  /\ formatStringWithData host template None
     = formatStringWithData host template (Some (JObject [])).
Proof. split; reflexivity. Qed.

(** C2, at the failing input. A plain key path that resolves to an object
    with an own property named [toString] raises a [TypeError] out of
    [formatStringWithData]; the same value in a transformation call is
    caught and gives ["#ERROR"]. *)
Theorem plain_key_path_raises host :
  let data := Some (JObject [("x", JObject [("toString", JNumber 1)])]) in
  formatStringWithData host (Some "{{x}}") data
  = Throw (TypeError "Cannot convert object to primitive value")
  /\ formatStringWithData host (Some "{{default(x,'a')}}") data
     = Normal "#ERROR".
Proof. split; reflexivity. Qed.

(** ** [replace] *)

Lemma split_go_nonempty sep s skip cur : split_go sep s skip cur <> [].
Proof.
  revert skip cur. induction s as [|c s IH]; intros skip cur; [discriminate|].
  cbn [split_go]. destruct skip; [|apply IH].
  destruct (prefix sep (String c s)); [discriminate | apply IH].
Qed.

Lemma join_cons x l sep : l <> [] -> join (x :: l) sep = x ++ sep ++ join l sep.
Proof. destruct l; [congruence | reflexivity]. Qed.

(** [split] then [join] is the global literal replacement. *)
Lemma join_split_go sep r s : forall skip cur,
  join (split_go sep s skip cur) r = cur ++ replaceAll_go sep r s skip.
Proof.
  induction s as [|c s IH]; intros skip cur.
  - cbn [split_go join replaceAll_go]. now rewrite append_nil_r.
  - cbn [split_go replaceAll_go]. destruct skip as [|n]; [|apply IH].
    destruct (prefix sep (String c s)).
    + rewrite join_cons by apply split_go_nonempty.
      rewrite IH. reflexivity.
    + rewrite IH, append_assoc. reflexivity.
Qed.

Lemma replace_step_pair result pair :
  replace_step result (pair_arg pair) =
  if is_empty (fst pair) then result
  else replaceAll result (fst pair) (snd pair).
Proof.
  destruct pair as [search replacement]. unfold replace_step, pair_arg.
  cbn [destructure2 nth_error fst snd String_opt].
  destruct search as [|c search]; [reflexivity|].
  cbn [is_empty]. unfold split, replaceAll. cbn [is_empty].
  rewrite join_split_go. reflexivity.
Qed.

Lemma fold_replace_step pairs : forall start,
  fold_left replace_step (map pair_arg pairs) start = apply_pairs start pairs.
Proof.
  unfold apply_pairs.
  induction pairs as [|p pairs IH]; intros start; [reflexivity|].
  cbn [map fold_left]. rewrite replace_step_pair. apply IH.
Qed.

(** C3. On pairs [[search, replacement]], [replace] starts from
    [String(value)] (the empty string for a missing or [null] value) and
    applies to it, in the order of the arguments, the global literal
    replacement of each pair, a pair with an empty search string changing
    nothing. *)
Theorem replace_pairs_in_order host :
  (forall (value : option value) (pairs : list (string * string)),
      Transformations.replace host value (map pair_arg pairs) =
      (start <- ToString host (match value with
                               | None | Some (VJson JNull) => VJson (JString "")
                               | Some v => v
                               end) ;;
       Normal (Some (AString (apply_pairs start pairs)))))
  /\ formatStringWithData host
       (Some "{{replace(d, ['is','WAS'], ['test','T'])}}")
       (Some (JObject [("d", JString "This is a test.")]))
     = Normal "ThWAS WAS a T.".
Proof.
  split; [|reflexivity].
  intros value pairs. unfold Transformations.replace.
  destruct (ToString _); [|reflexivity]. cbn [bind].
  now rewrite fold_replace_step.
Qed.

(** ** [date] *)

Lemma date_number host v rest :
  date host (Some (VJson (JNumber v))) rest =
  Normal (Some (AString (instant_text host (if (v <? 10 ^ 11)%Z then v * 1000 else v)%Z))).
Proof.
  unfold date, instant_text. destruct (v <? 10 ^ 11)%Z; cbn [bind];
    destruct (JsDate.of_number _); reflexivity.
Qed.

Lemma format_date_t host (j : Json) :
  formatStringWithData host (Some "{{date(t)}}") (Some (JObject [("t", j)]))
  = Normal (arg_toString
              (match date host (Some (VJson j)) [] with
               | Normal r => r
               | Throw _ => Some (AString "#ERROR")
               end)).
Proof.
  rewrite (format_single host _ "date(t)" eq_refl).
  unfold replacer. cbn [nth].
  change (trim "date(t)") with "date(t)". cbn [is_empty].
  change (match_ "date(t)" transformationRegex) with (Some ["date(t)"; "date"; "t"]).
  cbn [nth]. change (lookup "date" (defaultTransformations host)) with (Some (date host)).
  unfold callTransformation.
  change (parseTransformationArgs "t") with [AString "t"].
  cbn [tl]. change (keyValue _ [AString "t"]) with (Some (VJson j)).
  destruct (date host (Some (VJson j)) []); reflexivity.
Qed.

(** C5 as stated, at [v = 1000000]: on the reference host, 1000000 is
    below the threshold and is read as seconds (12 January 1970), and so is
    1000000 * 1000 (9 September 2001); the two do not render the same
    date. *)
Lemma date_small_seconds_differ :
  (1000000 < 10 ^ 11)%Z
  /\ formatStringWithData ReferenceHost.host (Some "{{date(t)}}")
       (Some (JObject [("t", JNumber 1000000)])) = Normal "1/12/1970"
  /\ formatStringWithData ReferenceHost.host (Some "{{date(t)}}")
       (Some (JObject [("t", JNumber (1000000 * 1000))])) = Normal "9/9/2001"
  /\ formatStringWithData ReferenceHost.host (Some "{{date(t)}}")
       (Some (JObject [("t", JNumber 1000000)]))
     <> formatStringWithData ReferenceHost.host (Some "{{date(t)}}")
          (Some (JObject [("t", JNumber (1000000 * 1000))])).
Proof.
  split; [reflexivity|]. split; [reflexivity|]. split; [reflexivity|].
  vm_compute. discriminate.
Qed.

(** C5, amended. [date] reads a number below 1e11 as seconds and a number
    at or above 1e11 as milliseconds since the epoch; so a number [v] of
    seconds with [1e8 <= v < 1e11] renders as [v * 1000] milliseconds
    does, and 1678886400 renders as 1678886400000 does. *)
Theorem date_seconds_or_milliseconds host (v : Z) :
  date host (Some (VJson (JNumber v))) []
  = Normal (Some (AString (instant_text host
                             (if (v <? 10 ^ 11)%Z then v * 1000 else v)%Z)))
  /\ ((10 ^ 8 <= v < 10 ^ 11)%Z ->
      formatStringWithData host (Some "{{date(t)}}")
        (Some (JObject [("t", JNumber v)]))
      = formatStringWithData host (Some "{{date(t)}}")
          (Some (JObject [("t", JNumber (v * 1000))])))
  /\ formatStringWithData host (Some "{{date(t)}}")
       (Some (JObject [("t", JNumber 1678886400)]))
     = formatStringWithData host (Some "{{date(t)}}")
         (Some (JObject [("t", JNumber 1678886400000)])).
Proof.
  split; [apply date_number|]. split; [|reflexivity].
  intros Hv. rewrite !format_date_t, !date_number.
  replace (v <? 10 ^ 11)%Z with true by (symmetry; apply Z.ltb_lt; lia).
  replace (v * 1000 <? 10 ^ 11)%Z with false by (symmetry; apply Z.ltb_ge; lia).
  reflexivity.
Qed.

Lemma date_seconds_or_milliseconds_witness :
  (10 ^ 8 <= 1678886400 < 10 ^ 11)%Z
  /\ formatStringWithData ReferenceHost.host (Some "{{date(t)}}")
       (Some (JObject [("t", JNumber 1678886400)]))
     = formatStringWithData ReferenceHost.host (Some "{{date(t)}}")
         (Some (JObject [("t", JNumber (1678886400 * 1000))])).
Proof.
  assert (H : (10 ^ 8 <= 1678886400 < 10 ^ 11)%Z) by (split; reflexivity || discriminate).
  refine (conj H _).
  exact (proj1 (proj2 (date_seconds_or_milliseconds ReferenceHost.host 1678886400)) H).
Defined.

(** ** Array elements *)

Lemma array_index_key i : array_index (index_key i) = Some (N.of_nat i).
Proof.
  unfold array_index, index_key.
  rewrite NilEmpty.usu, DecimalN.Unsigned.of_to, String.eqb_refl. reflexivity.
Qed.

Lemma index_key_not_length i : (index_key i =? "length") = false.
Proof.
  apply String.eqb_neq. intros E.
  pose proof (array_index_key i) as H. rewrite E in H. discriminate.
Qed.

(** On an array, the decimal text of [i] is the key of the element [i]. *)
Lemma array_property_index items i :
  array_property items (index_key i) = nth_error items i.
Proof.
  unfold array_property. rewrite index_key_not_length, array_index_key.
  destruct (N.of_nat i <? N.of_nat (List.length items))%N eqn:E.
  - now rewrite Nat2N.id.
  - apply N.ltb_ge in E. symmetry. apply nth_error_None. lia.
Qed.

Lemma prefix_dot c s : prefix "." (String c s) = Ascii.eqb c ".".
Proof.
  cbn [prefix]. destruct (ascii_dec "." c) as [<-|n].
  - destruct s; reflexivity.
  - symmetry. apply Ascii.eqb_neq. congruence.
Qed.

Lemma split_go_dot_free k : forall cur,
  dot_free k = true -> split_go "." k 0 cur = [cur ++ k].
Proof.
  induction k as [|c k IH]; intros cur H.
  - cbn [split_go]. now rewrite append_nil_r.
  - cbn [dot_free] in H. apply andb_true_iff in H as [Hc Hk].
    apply negb_true_iff in Hc.
    cbn [split_go]. rewrite prefix_dot, Hc, (IH _ Hk), append_assoc. reflexivity.
Qed.

Lemma split_go_key_dot k rest : forall cur,
  dot_free k = true -> dot_free rest = true ->
  split_go "." (k ++ String "." rest) 0 cur = [cur ++ k; rest].
Proof.
  induction k as [|c k IH]; intros cur Hk Hrest.
  - cbn [append split_go]. rewrite prefix_dot. cbn [length Nat.sub].
    change (Ascii.eqb "." ".") with true. cbv iota.
    rewrite (split_go_dot_free rest "" Hrest), append_nil_r. reflexivity.
  - cbn [dot_free] in Hk. apply andb_true_iff in Hk as [Hc Hk].
    apply negb_true_iff in Hc.
    cbn [append split_go]. rewrite prefix_dot, Hc, (IH _ Hk Hrest), append_assoc.
    reflexivity.
Qed.

Lemma dot_free_uint d : dot_free (NilEmpty.string_of_uint d) = true.
Proof. induction d; cbn [NilEmpty.string_of_uint dot_free]; try rewrite IHd; reflexivity. Qed.

(** C9. Where the document holds an array under [key], the path [key.i]
    resolves to the element [i] of the array, the decimal text of [i]
    being its key; in particular
    [format("{{items.0}}", {items: ["apple", "banana"]})] is ["apple"]. *)
Theorem array_element_by_index_segment host :
  (forall fields key items (i : nat) (x : Json),
      dot_free key = true ->
      own_property fields key = Some (JArray items) ->
      nth_error items i = Some x ->
      resolveDataPath (JObject fields) (key ++ "." ++ index_key i)
      = Some (VJson x))
  /\ formatStringWithData host (Some "{{items.0}}")
       (Some (JObject [("items", JArray [JString "apple"; JString "banana"])]))
     = Normal "apple".
Proof.
  split; [|reflexivity].
  intros fields key items i x Hkey Hitems Hx. unfold resolveDataPath.
  replace (is_empty (key ++ "." ++ index_key i)) with false by (destruct key; reflexivity).
  unfold split. cbn [is_empty].
  change ("." ++ index_key i) with (String "." (index_key i)).
  rewrite (split_go_key_dot key (index_key i) "" Hkey (dot_free_uint _)).
  cbn [append resolve_parts get_property]. rewrite Hitems.
  cbn [resolve_parts get_property]. rewrite array_property_index, Hx. reflexivity.
Qed.

Lemma array_element_by_index_segment_witness :
  let items := [JString "apple"; JString "banana"] in
  let fields := [("items", JArray items)] in
  dot_free "items" = true
  /\ own_property fields "items" = Some (JArray items)
  /\ nth_error items 0 = Some (JString "apple")
  /\ resolveDataPath (JObject fields) "items.0" = Some (VJson (JString "apple")).
Proof.
  intros items fields.
  assert (H1 : dot_free "items" = true) by reflexivity.
  assert (H2 : own_property fields "items" = Some (JArray items)) by reflexivity.
  assert (H3 : nth_error items 0 = Some (JString "apple")) by reflexivity.
  refine (conj H1 (conj H2 (conj H3 _))).
  exact (proj1 (array_element_by_index_segment ReferenceHost.host) fields "items"
           items 0 (JString "apple") H1 H2 H3).
Defined.

(** ** Matches consume a prefix of the input *)

Lemma star_greedy_sound p s : forall i caps k a,
  star_greedy p i s caps k = Some a ->
  exists x s' caps', s = x ++ s' /\ k (i + length x) s' caps' = Some a.
Proof.
  induction s as [|c s IH]; intros i caps k a; cbn [star_greedy].
  - intros H. exists "", "", caps. cbn [length append].
    rewrite Nat.add_0_r. auto.
  - assert (Hhere : k i (String c s) caps = Some a ->
                    exists x s' caps',
                      String c s = x ++ s' /\ k (i + length x) s' caps' = Some a).
    { intros H. exists "", (String c s), caps. cbn [length append].
      rewrite Nat.add_0_r. auto. }
    destruct (p c); [|exact Hhere].
    destruct (star_greedy p (S i) s caps k) as [a'|] eqn:E; [|exact Hhere].
    intros [= <-]. destruct (IH _ _ _ _ E) as (x & s' & caps' & -> & Hk).
    exists (String c x), s', caps'. cbn [length append].
    replace (i + S (length x)) with (S i + length x) by lia. auto.
Qed.

Lemma star_lazy_sound p s : forall i caps k a,
  star_lazy p i s caps k = Some a ->
  exists x s' caps', s = x ++ s' /\ k (i + length x) s' caps' = Some a.
Proof.
  induction s as [|c s IH]; intros i caps k a; cbn [star_lazy].
  - destruct (k i "" caps) eqn:E; [|discriminate].
    intros [= <-]. exists "", "", caps. cbn [length append].
    rewrite Nat.add_0_r. auto.
  - destruct (k i (String c s) caps) eqn:E.
    + intros [= <-]. exists "", (String c s), caps. cbn [length append].
      rewrite Nat.add_0_r. auto.
    + destruct (p c); [|discriminate]. intros H.
      destruct (IH _ _ _ _ H) as (x & s' & caps' & -> & Hk).
      exists (String c x), s', caps'. cbn [length append].
      replace (i + S (length x)) with (S i + length x) by lia. auto.
Qed.

(** Whatever way [r] matches, it takes a prefix [x] of the input, of at
    least [min_width r] code units, and the continuation is entered
    behind it. *)
Lemma rmatch_sound r : forall i s caps k a,
  rmatch r i s caps k = Some a ->
  exists x s' caps',
    s = x ++ s' /\ k (i + length x) s' caps' = Some a /\ min_width r <= length x.
Proof.
  induction r as [p|p|p|r1 IH1 r2 IH2|r1 IH1 r2 IH2|r IH| |];
    intros i s caps k a; cbn [rmatch min_width].
  - destruct s as [|c s]; [discriminate|]. destruct (p c); [|discriminate].
    intros H. exists (String c ""), s, caps. cbn [length append].
    replace (i + 1) with (S i) by lia. auto.
  - intros H. destruct (star_greedy_sound _ _ _ _ _ _ H) as (x & s' & caps' & -> & Hk).
    exists x, s', caps'. repeat split; [assumption | lia].
  - intros H. destruct (star_lazy_sound _ _ _ _ _ _ H) as (x & s' & caps' & -> & Hk).
    exists x, s', caps'. repeat split; [assumption | lia].
  - intros H. destruct (IH1 _ _ _ _ _ H) as (x1 & s1 & caps1 & -> & H1 & Hle1).
    destruct (IH2 _ _ _ _ _ H1) as (x2 & s2 & caps2 & -> & H2 & Hle2).
    exists (x1 ++ x2), s2, caps2. rewrite length_append, append_assoc.
    rewrite Nat.add_assoc. repeat split; [assumption | lia].
  - destruct (rmatch r1 i s caps k) as [a'|] eqn:E.
    + intros [= <-]. destruct (IH1 _ _ _ _ _ E) as (x & s' & caps' & -> & Hk & Hle).
      exists x, s', caps'. repeat split; [assumption | lia].
    + intros H. destruct (IH2 _ _ _ _ _ H) as (x & s' & caps' & -> & Hk & Hle).
      exists x, s', caps'. repeat split; [assumption | lia].
  - intros H. destruct (IH _ _ _ _ _ H) as (x & s' & caps' & -> & Hk & Hle).
    exists x, s', (substring 0 (i + length x - i) (x ++ s') :: caps'). auto.
  - destruct (i =? 0)%nat; [|discriminate]. intros H.
    exists "", s, caps. cbn [length append]. rewrite Nat.add_0_r. auto.
  - destruct s; [|discriminate]. intros H.
    exists "", "", caps. cbn [length append]. rewrite Nat.add_0_r. auto.
Qed.

Lemma match_here_progress r i s m e :
  match_here r i s = Some (m, e) -> i + min_width r <= e.
Proof.
  unfold match_here.
  destruct (rmatch r i s [] _) as [[caps e']|] eqn:E; [|discriminate].
  intros [= _ <-].
  destruct (rmatch_sound _ _ _ _ _ _ E) as (x & s' & caps' & _ & Hk & Hle).
  injection Hk as _ <-. lia.
Qed.

(** X19. Each turn of the two [exec] loops of [parseTransformationArgs] moves
    [lastIndex] forward. *)
Lemma args_match_advances i s m e :
  (match_here argsRegex i s = Some (m, e) -> i < e)
  /\ (match_here arrRegex i s = Some (m, e) -> i < e).
Proof.
  split; intros H; apply match_here_progress in H;
    [change (min_width argsRegex) with 1 in H
    |change (min_width arrRegex) with 1 in H]; lia.
Qed.

Lemma args_match_advances_witness :
  match_here argsRegex 0 "a,b" = Some (["a,"; "a"; ","], 2) /\ 0 < 2.
Proof.
  assert (H : match_here argsRegex 0 "a,b" = Some (["a,"; "a"; ","], 2)) by reflexivity.
  refine (conj H _).
  exact (proj1 (args_match_advances 0 "a,b" ["a,"; "a"; ","] 2) H).
Defined.

(** ** What a transformation call looks like *)

Lemma endsWith_paren x : endsWith (x ++ ")") ")" = true.
Proof.
  unfold endsWith. rewrite length_append. cbn [length].
  replace (1 <=? length x + 1)%nat with true by (symmetry; apply Nat.leb_le; lia).
  replace (length x + 1 - 1) with (length x) by lia.
  cbn [andb]. apply String.eqb_eq.
  induction x as [|c x IH]; [reflexivity | exact IH].
Qed.

Lemma transformation_match_here i s m e :
  match_here transformationRegex i s = Some (m, e) ->
  i = 0 /\ endsWith s ")" = true.
Proof.
  unfold match_here, transformationRegex.
  destruct (rmatch _ i s [] _) as [[caps e']|] eqn:E; [|discriminate].
  intros _. cbn [rmatch] in E.
  destruct (i =? 0)%nat eqn:Hi; [|discriminate].
  apply Nat.eqb_eq in Hi. split; [exact Hi|].
  change (rmatch (Group (Plus is_word)) i s []
            (fun i1 s1 caps1 =>
               rmatch (Chr (char "(")) i1 s1 caps1
                 (fun i2 s2 caps2 =>
                    rmatch (Group (Star is_dot)) i2 s2 caps2
                      (fun i3 s3 caps3 =>
                         rmatch (Chr (char ")") +> Eos) i3 s3 caps3
                           (fun i4 _ caps4 => Some (caps4, i4)))))
          = Some (caps, e')) in E.
  apply rmatch_sound in E as (x1 & s1 & caps1 & -> & E & _).
  apply rmatch_sound in E as (x2 & s2 & caps2 & -> & E & _).
  apply rmatch_sound in E as (x3 & s3 & caps3 & -> & E & _).
  cbn [rmatch] in E. destruct s3 as [|c [|c' s3]]; try discriminate.
  - destruct (char ")" c) eqn:Hc; [|discriminate].
    apply Ascii.eqb_eq in Hc. subst c.
    rewrite <- !append_assoc. apply endsWith_paren.
  - destruct (char ")" c); discriminate.
Qed.

Lemma transformation_search i s m :
  search_from transformationRegex i s = Some m ->
  i = 0 /\ endsWith s ")" = true.
Proof.
  revert i. induction s as [|c s IH]; intros i; cbn [search_from].
  - destruct (match_here transformationRegex i "") as [[m' e]|] eqn:E; [|discriminate].
    intros _. exact (transformation_match_here _ _ _ _ E).
  - destruct (match_here transformationRegex i (String c s)) as [[m' e]|] eqn:E.
    + intros _. exact (transformation_match_here _ _ _ _ E).
    + intros H. apply IH in H as [H _]. discriminate.
Qed.

(** X20. A body that does not end with a closing parenthesis is no
    transformation call: it is read as a key path. *)
Lemma key_path_is_plain t :
  endsWith t ")" = false -> match_ t transformationRegex = None.
Proof.
  intros H. unfold match_.
  destruct (search_from transformationRegex 0 t) as [m|] eqn:E; [|reflexivity].
  apply transformation_search in E as [_ E]. congruence.
Qed.

Lemma key_path_is_plain_witness :
  endsWith "user.name" ")" = false
  /\ match_ "user.name" transformationRegex = None.
Proof.
  assert (H : endsWith "user.name" ")" = false) by reflexivity.
  refine (conj H _). exact (key_path_is_plain "user.name" H).
Defined.

(** ** Documents on which nothing is raised *)

Lemma join_items_plain items :
  Forall (fun x => plain x = true -> exists s, Json_toString x = Normal s) items ->
  forallb plain items = true ->
  exists s, Json_toString (JArray items) = Normal s.
Proof.
  intros HF. induction HF as [|x l Hx HF IH]; intros Hp.
  - exists "". reflexivity.
  - cbn [forallb] in Hp. apply andb_true_iff in Hp as [Hpx Hpl].
    destruct (IH Hpl) as [b Hb]. destruct (Hx Hpx) as [a Ha].
    assert (Ha' : exists a', match x with
                             | JNull => Normal ""
                             | _ => Json_toString x
                             end = Normal a').
    { destruct x; eauto. }
    destruct Ha' as [a' Ha'].
    cbn [Json_toString] in *. rewrite Ha'. cbn [bind].
    destruct l; [eauto|]. rewrite Hb. cbn [bind]. eauto.
Qed.

Lemma plain_toString j : plain j = true -> exists s, Json_toString j = Normal s.
Proof.
  induction j as [| b | n | s | items IH | fields _] using Json_induction; intros Hp.
  - eexists; reflexivity.
  - eexists; reflexivity.
  - eexists; reflexivity.
  - eexists; reflexivity.
  - apply join_items_plain; assumption.
  - cbn [plain] in Hp. apply andb_true_iff in Hp as [Hts _].
    cbn [Json_toString].
    destruct (own_property fields "toString"); [discriminate | eauto].
Qed.

Lemma safe_toString host v : safe v = true -> exists s, ToString host v = Normal s.
Proof.
  destruct v as [j|[]|p name]; cbn [safe ToString]; intros H; eauto.
  apply plain_toString, H.
Qed.

Lemma plain_fields_own fields key v :
  plain_fields fields = true -> own_property fields key = Some v -> plain v = true.
Proof.
  induction fields as [|[k x] fields IH]; cbn [plain_fields own_property]; [discriminate|].
  intros H. apply andb_true_iff in H as [Hx Hf].
  destruct (k =? key); [intros [= <-]; exact Hx | apply IH, Hf].
Qed.

Lemma plain_items_nth items n v :
  forallb plain items = true -> nth_error items n = Some v -> plain v = true.
Proof.
  intros H Hn. apply nth_error_In in Hn.
  rewrite forallb_forall in H. apply H, Hn.
Qed.

Lemma inherited_safe chain above part v :
  inherited chain above part = Some v -> safe v = true.
Proof.
  revert v. induction chain as [|p chain IH]; intros v; cbn [inherited]; [discriminate|].
  destruct (prototype_property p above part) as [w|] eqn:E; [|apply IH].
  intros [= <-]. unfold prototype_property in E.
  destruct p.
  - destruct (part =? "__proto__").
    + injection E as <-. destruct above; reflexivity.
    + destruct (existsb _ _); [injection E as <-; reflexivity | discriminate].
  - destruct (part =? "length").
    + injection E as <-. reflexivity.
    + destruct (existsb _ _); [injection E as <-; reflexivity | discriminate].
Qed.

Lemma get_property_safe current part v :
  safe current = true -> get_property current part = Some v -> safe v = true.
Proof.
  destruct current as [j|[]|p name]; cbn [get_property safe];
    try (intros _ H; apply inherited_safe in H; exact H); try discriminate.
  destruct j; try discriminate.
  - cbn [plain]. intros Hp.
    destruct (array_property items part) as [x|] eqn:E.
    + intros [= <-]. cbn [safe]. unfold array_property in E.
      destruct (part =? "length"); [injection E as <-; reflexivity|].
      destruct (array_index part) as [n|]; [|discriminate].
      destruct (n <? N.of_nat (List.length items))%N; [|discriminate].
      eapply plain_items_nth; eassumption.
    + apply inherited_safe.
  - cbn [plain]. intros Hp. apply andb_true_iff in Hp as [_ Hf].
    destruct (own_property fields part) as [x|] eqn:E.
    + intros [= <-]. cbn [safe]. eapply plain_fields_own; eassumption.
    + apply inherited_safe.
Qed.

Lemma resolve_parts_safe parts : forall current v,
  safe current = true -> resolve_parts current parts = Some v -> safe v = true.
Proof.
  induction parts as [|part parts IH]; intros current v Hs; cbn [resolve_parts].
  - intros [= <-]. exact Hs.
  - destruct (get_property current part) as [w|] eqn:E; [|discriminate].
    apply IH. eapply get_property_safe; eassumption.
Qed.

(** The transformation branch returns, whatever the transformation does. *)
Lemma callTransformation_returns d f argsString :
  exists r, callTransformation d f argsString = Normal r.
Proof.
  unfold callTransformation. destruct (f _ _); cbn [try_catch bind]; eauto.
Qed.

Lemma replacer_returns host d m :
  plain d = true -> exists r, replacer host d m = Normal r.
Proof.
  intros Hd. unfold replacer.
  destruct (is_empty _); [eauto|].
  destruct (match_ _ transformationRegex) as [tm|].
  - destruct (lookup _ _); [apply callTransformation_returns | eauto].
  - unfold resolveDataPath. destruct (is_empty _); [eauto|].
    destruct (resolve_parts _ _) as [v|] eqn:E; [|eauto].
    apply resolve_parts_safe in E; [|exact Hd].
    destruct (safe_toString host v E) as [s Hs].
    destruct v as [[]| |]; eauto.
Qed.

Lemma scan_returns f s :
  (forall m, exists r, f m = Normal r) ->
  forall skip, exists out, scan f s skip = Normal out.
Proof.
  intros Hf. induction s as [|c s IH]; intros skip.
  - destruct skip; cbn; eauto.
  - destruct skip as [|n]; [|cbn [scan]; apply IH].
    rewrite scan_0. destruct (placeholder_at _) as [[body len]|].
    + destruct (Hf [substring 0 len (String c s); body]) as [v ->].
      destruct (IH (len - 1)) as [rest ->]. cbn [bind]. eauto.
    + destruct (IH 0) as [t ->]. cbn [bind]. eauto.
Qed.

(** X5. On a document in which no object has an own property named
    [toString], [formatStringWithData] returns a string for every
    template. *)
Theorem format_returns_on_plain_data host template data :
  plain (dataToUse data) = true ->
  exists out, formatStringWithData host template data = Normal out.
Proof.
  intros Hd. destruct template as [t|]; [|cbn; eauto].
  rewrite format_scan. apply scan_returns. intros m. apply replacer_returns, Hd.
Qed.

Lemma format_returns_on_plain_data_witness :
  let data := Some (JObject [("a", JArray [JNumber 1; JObject [("b", JNull)]])]) in
  plain (dataToUse data) = true
  /\ exists out,
       formatStringWithData ReferenceHost.host (Some "{{a}} {{a.1}} {{a.1.b}}") data
       = Normal out.
Proof.
  intros data.
  assert (H : plain (dataToUse data) = true) by reflexivity.
  refine (conj H _).
  exact (format_returns_on_plain_data ReferenceHost.host
           (Some "{{a}} {{a.1}} {{a.1.b}}") data H).
Defined.

(** ** The reference replacement on examples *)

Example replaceAll_examples :
  replaceAll "This is a test." "is" "WAS" = "ThWAS WAS a test."
  /\ replaceAll "aaa" "aa" "b" = "ba"
  /\ replaceAll "abc" "x" "y" = "abc"
  /\ apply_pairs "This is a test." [("is", "WAS"); ("", "Z"); ("test", "T")]
     = "ThWAS WAS a T.".
Proof. repeat split. Qed.

(** ** Where a transformation can raise *)

Lemma lookup_registered host name f :
  lookup name (defaultTransformations host) = Some f ->
  f = default host \/ f = date host \/ f = Transformations.replace host.
Proof.
  unfold defaultTransformations. cbn [lookup].
  destruct ("default" =? name); [intros [= <-]; auto|].
  destruct ("date" =? name); [intros [= <-]; auto|].
  destruct ("replace" =? name); [intros [= <-]; auto | discriminate].
Qed.

Lemma bind_Normal_Throw {A B} (c : completion A) (g : A -> B) e :
  (x <- c ;; Normal (g x)) = Throw e -> c = Throw e.
Proof. destruct c; cbn [bind]; [discriminate | intros [= <-]; reflexivity]. Qed.

(** X29. A transformation of the registry raises only where [String(value)]
    raises: the number and the shape of the other arguments raise
    nothing. *)
Lemma transformation_raises_on_value_only host name f value rest e :
  lookup name (defaultTransformations host) = Some f ->
  f value rest = Throw e ->
  exists v, value = Some v /\ ToString host v = Throw e.
Proof.
  intros Hf. destruct (lookup_registered host name f Hf) as [->|[->| ->]].
  - unfold default. destruct value as [v|]; [|discriminate].
    intros H. exists v. split; [reflexivity|].
    destruct v as [[]| |]; try discriminate;
      exact (bind_Normal_Throw _ _ _ H).
  - unfold date. destruct (match value with None => _ | Some _ => _ end);
      discriminate.
  - unfold Transformations.replace. destruct value as [v|]; [|discriminate].
    intros H. exists v. split; [reflexivity|].
    destruct v as [[]| |]; try discriminate;
      exact (bind_Normal_Throw _ _ _ H).
Qed.

Lemma transformation_raises_on_value_only_witness :
  let bad := VJson (JObject [("toString", JNumber 1)]) in
  let e := TypeError "Cannot convert object to primitive value" in
  lookup "replace" (defaultTransformations ReferenceHost.host)
    = Some (Transformations.replace ReferenceHost.host)
  /\ Transformations.replace ReferenceHost.host (Some bad) [] = Throw e
  /\ exists v, Some bad = Some v /\ ToString ReferenceHost.host v = Throw e.
Proof.
  intros bad e.
  assert (H1 : lookup "replace" (defaultTransformations ReferenceHost.host)
               = Some (Transformations.replace ReferenceHost.host)) by reflexivity.
  assert (H2 : Transformations.replace ReferenceHost.host (Some bad) [] = Throw e)
    by reflexivity.
  refine (conj H1 (conj H2 _)).
  exact (transformation_raises_on_value_only ReferenceHost.host "replace" _
           (Some bad) [] e H1 H2).
Defined.

(** * The argument expressions as a tokenizer *)

(** ** The tokenizer agrees with the argument expressions *)

Lemma take_drop_while p s : take_while p s ++ drop_while p s = s.
Proof.
  induction s as [|c s IH]; [reflexivity|]. cbn [take_while drop_while].
  destruct (p c); [cbn [append]; now rewrite IH | reflexivity].
Qed.

Lemma all_chars_take_while p s : all_chars p (take_while p s) = true.
Proof.
  induction s as [|c s IH]; [reflexivity|]. cbn [take_while].
  destruct (p c) eqn:E; [cbn [all_chars]; now rewrite E | reflexivity].
Qed.

Lemma drop_while_head p s c rest :
  drop_while p s = String c rest -> p c = false.
Proof.
  induction s as [|a s IH]; [discriminate|]. cbn [drop_while].
  destruct (p a) eqn:E; [exact IH|]. intros [= <- _]. exact E.
Qed.

Lemma take_while_all p x rest :
  all_chars p x = true ->
  match rest with String c _ => p c = false | EmptyString => True end ->
  take_while p (x ++ rest) = x /\ drop_while p (x ++ rest) = rest.
Proof.
  intros Hx Hrest. induction x as [|a x IH].
  - cbn [append]. destruct rest as [|c rest]; [auto|].
    cbn [take_while drop_while]. rewrite Hrest. auto.
  - cbn [all_chars] in Hx. apply andb_true_iff in Hx as [Ha Hx].
    cbn [append take_while drop_while]. rewrite Ha.
    destruct (IH Hx) as [-> ->]. auto.
Qed.

Lemma rmatch_Seq r1 r2 i s caps k :
  rmatch (r1 +> r2) i s caps k
  = rmatch r1 i s caps (fun i' s' caps' => rmatch r2 i' s' caps' k).
Proof. reflexivity. Qed.

Lemma star_greedy_ext p s : forall i caps k1 k2,
  (forall j y caps', k1 j y caps' = k2 j y caps') ->
  star_greedy p i s caps k1 = star_greedy p i s caps k2.
Proof.
  induction s as [|c s IH]; intros i caps k1 k2 H; cbn [star_greedy]; [apply H|].
  rewrite (IH _ _ k1 k2 H), H. reflexivity.
Qed.

(** A greedy star whose continuation fails wherever the input still
    starts in the class takes the longest run, or nothing matches. *)
Lemma star_greedy_commit p k s : forall i caps,
  (forall j c y caps', p c = true -> k j (String c y) caps' = None) ->
  star_greedy p i s caps k
  = k (i + length (take_while p s)) (drop_while p s) caps.
Proof.
  intros i caps Hk. revert i. induction s as [|c s IH]; intros i.
  - cbn [star_greedy take_while drop_while length]. now rewrite Nat.add_0_r.
  - cbn [star_greedy take_while drop_while]. destruct (p c) eqn:E.
    + rewrite IH. cbn [length].
      replace (i + S (length (take_while p s))) with (S i + length (take_while p s)) by lia.
      destruct (k _ (drop_while p s) caps); [reflexivity|].
      apply Hk, E.
    + cbn [length]. now rewrite Nat.add_0_r.
Qed.

(** A greedy star whose continuation accepts behind the longest run
    stops there. *)
Lemma star_greedy_at_max p k s a : forall i caps,
  k (i + length (take_while p s)) (drop_while p s) caps = Some a ->
  star_greedy p i s caps k = Some a.
Proof.
  induction s as [|c s IH]; intros i caps.
  - cbn [star_greedy take_while drop_while length]. now rewrite Nat.add_0_r.
  - cbn [star_greedy take_while drop_while]. destruct (p c) eqn:E.
    + cbn [length]. intros H. rewrite (IH (S i) caps); [reflexivity|].
      replace (S i + length (take_while p s)) with (i + S (length (take_while p s))) by lia.
      exact H.
    + cbn [length]. now rewrite Nat.add_0_r.
Qed.

Lemma space_not c a : is_space c = true -> is_space a = false -> char a c = false.
Proof.
  intros Hc Ha. unfold char. destruct (Ascii.eqb_spec a c) as [->|]; congruence.
Qed.

Lemma none_of_one a c : none_of [a] c = negb (char a c).
Proof.
  unfold none_of, char. cbn [existsb]. rewrite orb_false_r.
  now rewrite Ascii.eqb_sym.
Qed.

Lemma token_cont_eq i s tok rest caps :
  s = tok ++ rest ->
  token_cont i s (i + length tok) rest caps
  = match token_end rest with
    | Some (g2, n) => Some (g2 :: tok :: caps, i + length tok + n)
    | None => None
    end.
Proof.
  intros ->. unfold token_cont, token_end.
  replace (i + length tok - i) with (length tok) by lia.
  rewrite substring_0_length. rewrite rmatch_Seq.
  change (rmatch (Star is_space) ?j ?s ?c ?k) with (star_greedy is_space j s c k).
  rewrite star_greedy_commit.
  - set (j := i + length tok + length (take_while is_space rest)).
    destruct (drop_while is_space rest) as [|c r] eqn:E.
    + cbn [rmatch]. rewrite Nat.sub_diag. reflexivity.
    + cbn [rmatch]. destruct (char "," c) eqn:Hc.
      * replace (S j - j) with 1 by lia. cbn [substring].
        rewrite substring_0_0. apply Ascii.eqb_eq in Hc. subst c.
        unfold j. f_equal. f_equal. lia.
      * reflexivity.
  - intros j c y caps' Hc. cbn [rmatch].
    now rewrite (space_not c "," Hc eq_refl).
Qed.

Lemma delimited_split o c s tok rest :
  delimited o c s = Some (tok, rest) -> s = tok ++ rest.
Proof.
  unfold delimited. destruct s as [|a s1]; [discriminate|].
  destruct (char o a); [|discriminate].
  destruct (drop_while (none_of [c]) s1) as [|c' r] eqn:E; [discriminate|].
  intros [= <- <-]. cbn [append]. rewrite append_assoc. cbn [append].
  rewrite <- E, take_drop_while. reflexivity.
Qed.

(** [opening [^closing]* closing], whatever follows. *)
Lemma rmatch_delimited o c i s caps k :
  rmatch (Chr (char o) +> Star (none_of [c]) +> Chr (char c)) i s caps k
  = match delimited o c s with
    | Some (tok, rest) => k (i + length tok) rest caps
    | None => None
    end.
Proof.
  unfold delimited. rewrite rmatch_Seq. cbn [rmatch].
  destruct s as [|a s1]; [reflexivity|].
  destruct (char o a); [|reflexivity].
  rewrite star_greedy_commit.
  - destruct (drop_while (none_of [c]) s1) as [|c' r] eqn:E; [reflexivity|].
    apply drop_while_head in E. rewrite none_of_one in E.
    apply negb_false_iff in E. rewrite E. f_equal.
    cbn [length]. rewrite length_append. cbn [length]. lia.
  - intros j x y caps' Hx. rewrite none_of_one in Hx.
    apply negb_true_iff in Hx. now rewrite Hx.
Qed.

Lemma rmatch_delimited_token o c i s caps :
  rmatch (Chr (char o) +> Star (none_of [c]) +> Chr (char c)) i s caps
         (token_cont i s)
  = match delimited_token o c s with
    | Some (tok, g2, n) => Some (g2 :: tok :: caps, i + n)
    | None => None
    end.
Proof.
  rewrite rmatch_delimited. unfold delimited_token.
  destruct (delimited o c s) as [[tok rest]|] eqn:E; [|reflexivity].
  rewrite (token_cont_eq i s tok rest caps (delimited_split _ _ _ _ _ E)).
  destruct (token_end rest) as [[g2 n]|]; [|reflexivity].
  now rewrite Nat.add_assoc.
Qed.

Lemma token_end_comma_or_end rest :
  match rest with
  | String c _ => none_of [","%char] c = false
  | EmptyString => True
  end ->
  token_end rest
  = match rest with
    | EmptyString => Some ("", 0)
    | String _ _ => Some (",", 1)
    end.
Proof.
  destruct rest as [|c r]; [reflexivity|]. intros H.
  rewrite none_of_one in H. apply negb_false_iff in H.
  pose proof H as Hc. apply Ascii.eqb_eq in Hc. subst c.
  reflexivity.
Qed.

Lemma rmatch_bare_token i s caps :
  rmatch (Chr (fun c => none_of [","%char] c && negb (is_space c))
          +> Star (none_of [","%char])) i s caps (token_cont i s)
  = match bare_token s with
    | Some (tok, g2, n) => Some (g2 :: tok :: caps, i + n)
    | None => None
    end.
Proof.
  unfold bare_token. rewrite rmatch_Seq. cbn [rmatch].
  destruct s as [|a s1]; [reflexivity|].
  destruct (none_of [","%char] a && negb (is_space a)); [|reflexivity].
  change (rmatch (Star ?p) ?j ?s ?cs ?k') with (star_greedy p j s cs k').
  set (tw := take_while (none_of [","%char]) s1).
  assert (Hs : String a s1 = String a tw ++ drop_while (none_of [","%char]) s1).
  { cbn [append]. unfold tw. now rewrite take_drop_while. }
  assert (Hmax : token_cont i (String a s1) (S i + length tw)
                   (drop_while (none_of [","%char]) s1) caps
                 = match drop_while (none_of [","%char]) s1 with
                   | EmptyString => Some ("" :: String a tw :: caps, i + length (String a tw))
                   | String _ _ =>
                       Some ("," :: String a tw :: caps, i + (length (String a tw) + 1))
                   end).
  { replace (S i + length tw) with (i + length (String a tw)) by (cbn [length]; lia).
    rewrite (token_cont_eq _ _ _ _ caps Hs).
    rewrite token_end_comma_or_end.
    - destruct (drop_while (none_of [","%char]) s1); f_equal; f_equal; lia.
    - destruct (drop_while (none_of [","%char]) s1) as [|c r] eqn:E; [exact I|].
      exact (drop_while_head _ _ _ _ E). }
  destruct (drop_while (none_of [","%char]) s1) eqn:E;
    (erewrite star_greedy_at_max; [reflexivity|]; fold tw; rewrite E; exact Hmax).
Qed.

Lemma rmatch_Alt r1 r2 i s caps k :
  rmatch (r1 <|> r2) i s caps k
  = match rmatch r1 i s caps k with
    | Some a => Some a
    | None => rmatch r2 i s caps k
    end.
Proof. reflexivity. Qed.

Lemma space_headed_no_token (b : bool) j c y caps k :
  is_space c = true ->
  rmatch (if b
          then (Chr (char "[") +> Star (none_of ["]"%char]) +> Chr (char "]"))
               <|> (Chr (char "'") +> Star (none_of ["'"%char]) +> Chr (char "'"))
               <|> (Chr (fun c => none_of [","%char] c && negb (is_space c))
                    +> Star (none_of [","%char]))
          else (Chr (char "'") +> Star (none_of ["'"%char]) +> Chr (char "'"))
               <|> (Chr (fun c => none_of [","%char] c && negb (is_space c))
                    +> Star (none_of [","%char])))
         j (String c y) caps k = None.
Proof.
  intros Hc. destruct b; cbn [rmatch];
    rewrite ?(space_not c "[" Hc eq_refl), ?(space_not c "'" Hc eq_refl), Hc;
    rewrite andb_false_r; reflexivity.
Qed.

Lemma match_here_tokens (b : bool) i s :
  match_here (if b then argsRegex else arrRegex) i s
  = match arg_at b s with
    | Some (m, n) => Some (m, i + n)
    | None => None
    end.
Proof.
  unfold match_here, arg_at.
  set (G := if b
            then (Chr (char "[") +> Star (none_of ["]"%char]) +> Chr (char "]"))
                 <|> (Chr (char "'") +> Star (none_of ["'"%char]) +> Chr (char "'"))
                 <|> (Chr (fun c => none_of [","%char] c && negb (is_space c))
                      +> Star (none_of [","%char]))
            else (Chr (char "'") +> Star (none_of ["'"%char]) +> Chr (char "'"))
                 <|> (Chr (fun c => none_of [","%char] c && negb (is_space c))
                      +> Star (none_of [","%char]))).
  assert (HR : (if b then argsRegex else arrRegex)
               = Star is_space +> Group G
                 +> Star is_space +> Group (Chr (char ",") <|> Eos))
    by (destruct b; reflexivity).
  rewrite HR. rewrite rmatch_Seq.
  change (rmatch (Star ?p) ?j ?s ?cs ?k') with (star_greedy p j s cs k').
  rewrite (star_greedy_ext _ _ _ _ _
             (fun i' s' caps' => rmatch G i' s' caps' (token_cont i' s')))
    by reflexivity.
  rewrite star_greedy_commit
    by (intros j c y caps' Hc; apply space_headed_no_token, Hc).
  set (ws := take_while is_space s). set (q := drop_while is_space s).
  assert (HG : rmatch G (i + length ws) q [] (token_cont (i + length ws) q)
               = match token_at b q with
                 | Some (g1, g2, n) => Some ([g2; g1], i + length ws + n)
                 | None => None
                 end).
  { unfold G, token_at. destruct b; rewrite !rmatch_Alt;
      rewrite ?rmatch_delimited_token, rmatch_bare_token; cbn [or_else].
    - destruct (delimited_token "[" "]" q) as [[[t g] n]|]; [reflexivity|].
      destruct (delimited_token "'" "'" q) as [[[t g] n]|]; [reflexivity|].
      cbn [or_else]. destruct (bare_token q) as [[[t g] n]|]; reflexivity.
    - destruct (delimited_token "'" "'" q) as [[[t g] n]|]; [reflexivity|].
      cbn [or_else]. destruct (bare_token q) as [[[t g] n]|]; reflexivity. }
  rewrite HG. destruct (token_at b q) as [[[g1 g2] n]|]; [|reflexivity].
  cbn [rev app]. f_equal. f_equal; [|lia]. f_equal. f_equal. lia.
Qed.

Lemma arg_at_length b s m n : arg_at b s = Some (m, n) -> 1 <= n.
Proof.
  intros H. pose proof (match_here_tokens b 0 s) as E. rewrite H in E.
  apply match_here_progress in E.
  replace (min_width (if b then argsRegex else arrRegex)) with 1 in E
    by (destruct b; reflexivity).
  lia.
Qed.

(** The [exec] loop of either expression is [tokenize]. *)
Lemma exec_loop_tokenize (b : bool) s : forall i skip,
  exec_loop (if b then argsRegex else arrRegex) s i skip = tokenize b s skip.
Proof.
  induction s as [|c s IH]; intros i skip.
  - destruct skip; cbn [exec_loop tokenize]; [rewrite match_here_tokens|];
      [destruct (arg_at b "") as [[m n]|]|]; reflexivity.
  - destruct skip as [|k]; cbn [exec_loop tokenize]; [|apply IH].
    rewrite match_here_tokens.
    destruct (arg_at b (String c s)) as [[m n]|] eqn:E.
    + apply arg_at_length in E.
      replace (i + n - i - 1) with (n - 1) by lia. now rewrite IH.
    + apply IH.
Qed.

Lemma parseTransformationArgs_tokenize argsString :
  parseTransformationArgs argsString = map parseToken (tokenize true argsString 0).
Proof.
  unfold parseTransformationArgs, exec_all.
  now rewrite (exec_loop_tokenize true).
Qed.

Lemma parse_elements_tokenize inner :
  map parseElement (exec_all arrRegex inner)
  = map parseElement (tokenize false inner 0).
Proof. unfold exec_all. now rewrite (exec_loop_tokenize false). Qed.

(** ** Strings: trimming and the ends of a token *)

Lemma prefix_char c0 c s : prefix (String c0 "") (String c s) = char c0 c.
Proof.
  unfold char. cbn [prefix]. destruct (ascii_dec c0 c) as [<-|n].
  - rewrite Ascii.eqb_refl. destruct s; reflexivity.
  - symmetry. now apply Ascii.eqb_neq.
Qed.

Lemma endsWith_last x c : endsWith (x ++ String c "") (String c "") = true.
Proof.
  unfold endsWith. rewrite length_append. cbn [length].
  replace (1 <=? length x + 1)%nat with true by (symmetry; apply Nat.leb_le; lia).
  replace (length x + 1 - 1) with (length x) by lia.
  cbn [andb]. apply String.eqb_eq.
  induction x as [|a x IH]; [reflexivity | exact IH].
Qed.

Lemma slice_1_m1_inside a x c : slice_1_m1 (String a (x ++ String c "")) = x.
Proof.
  unfold slice_1_m1. cbn [length substring]. rewrite length_append. cbn [length].
  replace (S (length x + 1) - 2) with (length x) by lia.
  apply substring_0_length.
Qed.

Lemma trimEnd_spaces ws : all_chars is_space ws = true -> trimEnd ws = "".
Proof.
  induction ws as [|c ws IH]; [reflexivity|]. cbn [all_chars trimEnd].
  intros H. apply andb_true_iff in H as [Hc Hws]. rewrite (IH Hws), Hc. reflexivity.
Qed.

Lemma trimEnd_last x c ws :
  is_space c = false -> all_chars is_space ws = true ->
  trimEnd (x ++ String c ws) = x ++ String c "".
Proof.
  intros Hc Hws. induction x as [|a x IH].
  - cbn [append trimEnd]. rewrite (trimEnd_spaces ws Hws), Hc. reflexivity.
  - cbn [append trimEnd]. rewrite IH.
    destruct x; cbn [append]; rewrite andb_false_r; reflexivity.
Qed.

Lemma trimStart_head c s : is_space c = false -> trimStart (String c s) = String c s.
Proof. intros H. cbn [trimStart]. now rewrite H. Qed.

(** A text that starts and ends outside white space is its own trim, and
    white space behind it is trimmed away. *)
Lemma trim_between a x c ws :
  is_space a = false -> is_space c = false -> all_chars is_space ws = true ->
  trim (String a (x ++ String c ws)) = String a (x ++ String c "").
Proof.
  intros Ha Hc Hws. unfold trim. rewrite (trimStart_head _ _ Ha).
  exact (trimEnd_last (String a x) c ws Hc Hws).
Qed.

Lemma trim_single a ws :
  is_space a = false -> all_chars is_space ws = true ->
  trim (String a ws) = String a "".
Proof.
  intros Ha Hws. unfold trim. rewrite (trimStart_head _ _ Ha).
  exact (trimEnd_last "" a ws Ha Hws).
Qed.

Lemma trim_spaces ws : all_chars is_space ws = true -> trim ws = "".
Proof.
  intros H. unfold trim. induction ws as [|c ws IH]; [reflexivity|].
  cbn [all_chars] in H. apply andb_true_iff in H as [Hc Hws].
  cbn [trimStart]. rewrite Hc. exact (IH Hws).
Qed.

Lemma drop_app x y : drop (length x) (x ++ y) = y.
Proof. induction x as [|c x IH]; [destruct y; reflexivity | exact IH]. Qed.

Lemma all_chars_app p x y :
  all_chars p (x ++ y) = all_chars p x && all_chars p y.
Proof.
  induction x as [|c x IH]; [reflexivity|]. cbn [append all_chars].
  now rewrite IH, andb_assoc.
Qed.

Lemma all_chars_weaken (p q : ascii -> bool) x :
  (forall c, p c = true -> q c = true) ->
  all_chars p x = true -> all_chars q x = true.
Proof.
  intros Hpq. induction x as [|c x IH]; [reflexivity|]. cbn [all_chars].
  intros H. apply andb_true_iff in H as [Hc Hx]. now rewrite (Hpq c Hc), IH.
Qed.

(** ** The tokenizer, token by token *)

Lemma arg_at_empty b : arg_at b "" = None.
Proof. destruct b; reflexivity. Qed.

Lemma tokenize_drop b s : forall n,
  tokenize b s n = tokenize b (drop n s) 0.
Proof.
  induction s as [|c s IH]; intros n.
  - destruct n; cbn [tokenize drop]; rewrite ?arg_at_empty; reflexivity.
  - destruct n as [|n]; [reflexivity|]. cbn [tokenize drop]. apply IH.
Qed.

Lemma tokenize_match b s m n :
  arg_at b s = Some (m, n) ->
  tokenize b s 0 = m :: tokenize b (drop n s) 0.
Proof.
  intros H. destruct s as [|c s]; [rewrite arg_at_empty in H; discriminate|].
  pose proof (arg_at_length b _ _ _ H) as Hn.
  cbn [tokenize]. rewrite H, tokenize_drop.
  destruct n as [|n]; [lia|]. cbn [drop].
  replace (S n - 1) with n by lia. reflexivity.
Qed.

Lemma tokenize_spaces b ws :
  all_chars is_space ws = true -> tokenize b ws 0 = [].
Proof.
  induction ws as [|c ws IH]; intros H.
  - cbn [tokenize]. now rewrite arg_at_empty.
  - assert (E : arg_at b (String c ws) = None).
    { unfold arg_at.
      destruct (take_while_all is_space (String c ws) "" H I) as [_ Hd].
      rewrite append_nil_r in Hd. rewrite Hd. destruct b; reflexivity. }
    cbn [tokenize]. rewrite E. apply IH.
    cbn [all_chars] in H. apply andb_true_iff in H. tauto.
Qed.

(** One turn of the loop on white space, a token and what is behind
    it: the match array holds the token and the loop goes on behind the
    match. *)
Lemma tokenize_token b ws q g1 g2 n :
  all_chars is_space ws = true ->
  match q with String c _ => is_space c = false | EmptyString => True end ->
  token_at b q = Some (g1, g2, n) ->
  tokenize b (ws ++ q) 0
  = [substring 0 (length ws + n) (ws ++ q); g1; g2] :: tokenize b (drop n q) 0.
Proof.
  intros Hws Hq Ht.
  destruct (take_while_all is_space ws q Hws Hq) as [Htw Hdw].
  assert (E : arg_at b (ws ++ q)
              = Some ([substring 0 (length ws + n) (ws ++ q); g1; g2], length ws + n)).
  { unfold arg_at. now rewrite Htw, Hdw, Ht. }
  rewrite (tokenize_match _ _ _ _ E). f_equal.
  f_equal. clear. induction ws as [|c ws IH]; [reflexivity | exact IH].
Qed.

Lemma token_end_behind ws rest :
  all_chars is_space ws = true ->
  token_end (ws ++ behind rest)
  = Some (match rest with None => "" | Some _ => "," end,
          length ws + match rest with None => 0 | Some _ => 1 end).
Proof.
  intros Hws. unfold token_end.
  assert (Hhead : match behind rest with
                  | String c _ => is_space c = false
                  | EmptyString => True
                  end) by (destruct rest; [reflexivity | exact I]).
  destruct (take_while_all is_space ws (behind rest) Hws Hhead) as [-> ->].
  destruct rest; [reflexivity|]. cbn [behind]. now rewrite Nat.add_0_r.
Qed.

Lemma drop_behind ws rest :
  drop (length ws + match rest with None => 0 | Some _ => 1 end) (ws ++ behind rest)
  = match rest with None => "" | Some r => r end.
Proof.
  induction ws as [|c ws IH]; [destruct rest; reflexivity | exact IH].
Qed.

Lemma delimited_body o c body rest :
  all_chars (none_of [c]) body = true ->
  delimited o c (String o (body ++ String c rest))
  = Some (String o (body ++ String c ""), rest).
Proof.
  intros Hbody. unfold delimited. unfold char at 1. rewrite Ascii.eqb_refl.
  assert (Hhead : none_of [c] c = false)
    by (rewrite none_of_one; unfold char; now rewrite Ascii.eqb_refl).
  destruct (take_while_all (none_of [c]) body (String c rest) Hbody Hhead) as [-> ->].
  reflexivity.
Qed.

(** A delimited token, white space and what is behind. *)
Lemma delimited_token_behind o c body ws rest :
  all_chars (none_of [c]) body = true ->
  all_chars is_space ws = true ->
  delimited_token o c (String o (body ++ String c (ws ++ behind rest)))
  = Some (String o (body ++ String c ""),
          match rest with None => "" | Some _ => "," end,
          length body + 2 + (length ws + match rest with None => 0 | Some _ => 1 end)).
Proof.
  intros Hbody Hws. unfold delimited_token.
  rewrite (delimited_body o c body _ Hbody), (token_end_behind ws rest Hws).
  cbn [length]. rewrite length_append. cbn [length].
  repeat f_equal. lia.
Qed.

Lemma delimited_other o c a s :
  char o a = false -> delimited_token o c (String a s) = None.
Proof. intros H. unfold delimited_token, delimited. now rewrite H. Qed.

Lemma bare_char_facts c :
  bare_char c = true ->
  char "[" c = false /\ char "'" c = false /\ is_space c = false
  /\ none_of [","%char] c = true.
Proof.
  unfold bare_char, none_of, char. cbn [existsb]. intros H.
  apply andb_true_iff in H as [H Hs]. apply negb_true_iff in Hs.
  apply negb_true_iff in H. repeat (apply orb_false_iff in H as [? H]).
  rewrite (Ascii.eqb_sym "[" c), (Ascii.eqb_sym "'" c).
  repeat split; try assumption. now rewrite orb_false_r, H0.
Qed.

Lemma space_is_no_comma c : is_space c = true -> none_of [","%char] c = true.
Proof.
  intros H. rewrite none_of_one. apply negb_true_iff.
  exact (space_not c "," H eq_refl).
Qed.

Lemma bare_token_behind a t ws rest :
  all_chars bare_char (String a t) = true ->
  all_chars is_space ws = true ->
  bare_token (String a (t ++ ws ++ behind rest))
  = Some (String a (t ++ ws),
          match rest with None => "" | Some _ => "," end,
          length (String a (t ++ ws)) + match rest with None => 0 | Some _ => 1 end).
Proof.
  intros Htok Hws. cbn [all_chars] in Htok.
  apply andb_true_iff in Htok as [Ha Ht].
  destruct (bare_char_facts a Ha) as (_ & _ & Hsp & Hcomma).
  unfold bare_token. rewrite Hcomma, Hsp. cbn [andb negb].
  assert (Hall : all_chars (none_of [","%char]) (t ++ ws) = true).
  { rewrite all_chars_app.
    rewrite (all_chars_weaken bare_char _ t (fun c H => proj2 (proj2 (proj2 (bare_char_facts c H)))) Ht).
    now rewrite (all_chars_weaken is_space _ ws space_is_no_comma Hws). }
  assert (Hhead : match behind rest with
                  | String c _ => none_of [","%char] c = false
                  | EmptyString => True
                  end) by (destruct rest; [reflexivity | exact I]).
  rewrite <- append_assoc.
  destruct (take_while_all _ (t ++ ws) (behind rest) Hall Hhead) as [-> ->].
  destruct rest; cbn [behind append]; [reflexivity|]. now rewrite Nat.add_0_r.
Qed.

Lemma trim_bare a t ws :
  all_chars bare_char (String a t) = true ->
  all_chars is_space ws = true ->
  trim (String a (t ++ ws)) = String a t.
Proof.
  intros Htok Hws. cbn [all_chars] in Htok. apply andb_true_iff in Htok as [Ha Ht].
  destruct (bare_char_facts a Ha) as (_ & _ & Hsp & _).
  unfold trim. rewrite (trimStart_head _ _ Hsp).
  cbn [trimEnd]. rewrite Hsp. cbn [andb]. f_equal.
  induction t as [|c t IH].
  - exact (trimEnd_spaces ws Hws).
  - cbn [all_chars] in Ht. apply andb_true_iff in Ht as [Hc Ht].
    destruct (bare_char_facts c Hc) as (_ & _ & Hcs & _).
    cbn [append trimEnd]. rewrite Hcs, (IH Ht). reflexivity.
Qed.

(** What [parseToken] and [parseElement] make of the three kinds of
    token. *)
Lemma parseToken_bare whole a t ws g2 :
  all_chars bare_char (String a t) = true ->
  all_chars is_space ws = true ->
  parseToken [whole; String a (t ++ ws); g2] = AString (String a t)
  /\ parseElement [whole; String a (t ++ ws); g2] = String a t.
Proof.
  intros Htok Hws. unfold parseToken, parseElement. cbn [nth].
  rewrite (trim_bare a t ws Htok Hws).
  cbn [all_chars] in Htok. apply andb_true_iff in Htok as [Ha _].
  destruct (bare_char_facts a Ha) as (Hb & Hq & _ & _).
  unfold startsWith. rewrite !prefix_char, Hb, Hq. auto.
Qed.

Lemma parseToken_quoted whole str g2 :
  parseToken [whole; String "'" (str ++ "'"); g2] = AString str
  /\ parseElement [whole; String "'" (str ++ "'"); g2] = str.
Proof.
  unfold parseToken, parseElement. cbn [nth].
  rewrite (trim_between "'" str "'" "" eq_refl eq_refl eq_refl).
  unfold startsWith. rewrite !prefix_char.
  change (char "[" "'") with false. change (char "'" "'") with true.
  cbn [andb]. pose proof (endsWith_last (String "'" str) "'") as E.
  cbn [append] in E. rewrite E, slice_1_m1_inside. auto.
Qed.

Lemma parseToken_array whole inner g2 :
  parseToken [whole; String "[" (inner ++ "]"); g2]
  = if is_empty (trim inner) then AArray []
    else AArray (map parseElement (tokenize false (trim inner) 0)).
Proof.
  unfold parseToken. cbn [nth].
  rewrite (trim_between "[" inner "]" "" eq_refl eq_refl eq_refl).
  unfold startsWith. rewrite prefix_char. change (char "[" "[") with true.
  cbn [andb]. pose proof (endsWith_last (String "[" inner) "]") as E.
  cbn [append] in E. rewrite E, slice_1_m1_inside.
  now rewrite parse_elements_tokenize.
Qed.

Lemma drop_add x y m : drop (length x + m) (x ++ y) = drop m y.
Proof. induction x as [|c x IH]; [reflexivity | exact IH]. Qed.

Lemma token_at_delimited (b : bool) (o c : ascii) s :
  (o = "'"%char \/ (b = true /\ o = "["%char /\ c = "]"%char)) ->
  (o = "'"%char -> c = "'"%char) ->
  forall r, delimited_token o c (String o s) = Some r ->
  token_at b (String o s) = Some r.
Proof.
  intros Ho Hc r Hr. unfold token_at.
  destruct Ho as [->|(-> & -> & ->)].
  - rewrite (Hc eq_refl) in Hr. rewrite Hr.
    destruct b; [rewrite (delimited_other "[" "]" "'" s eq_refl)|]; reflexivity.
  - now rewrite Hr.
Qed.

Lemma tokenize_quoted b ws1 str ws2 rest :
  all_chars is_space ws1 = true ->
  quotable str = true ->
  all_chars is_space ws2 = true ->
  exists whole g2,
    tokenize b (ws1 ++ quote str ++ ws2 ++ behind rest) 0
    = [whole; String "'" (str ++ "'"); g2]
        :: tokenize b (match rest with None => "" | Some r => r end) 0.
Proof.
  intros H1 Hstr H2. unfold quote.
  replace (("'" ++ str ++ "'") ++ ws2 ++ behind rest)
    with (String "'" (str ++ String "'" (ws2 ++ behind rest)))
    by (cbn [append]; now rewrite append_assoc).
  pose proof (delimited_token_behind "'" "'" str ws2 rest Hstr H2) as Hd.
  apply (token_at_delimited b) in Hd; [|now left|auto].
  rewrite (tokenize_token b ws1 (String "'" _) _ _ _ H1 eq_refl Hd).
  do 2 eexists. f_equal. f_equal.
  replace (String "'" (str ++ String "'" (ws2 ++ behind rest)))
    with (String "'" (str ++ "'") ++ (ws2 ++ behind rest))
    by (cbn [append]; now rewrite append_assoc).
  replace (length str + 2) with (length (String "'" (str ++ "'")))
    by (cbn [length]; rewrite length_append; cbn [length]; lia).
  rewrite drop_add. apply drop_behind.
Qed.

Lemma tokenize_array ws1 inner ws2 rest :
  all_chars is_space ws1 = true ->
  all_chars (none_of ["]"%char]) inner = true ->
  all_chars is_space ws2 = true ->
  exists whole g2,
    tokenize true (ws1 ++ ("[" ++ inner ++ "]") ++ ws2 ++ behind rest) 0
    = [whole; String "[" (inner ++ "]"); g2]
        :: tokenize true (match rest with None => "" | Some r => r end) 0.
Proof.
  intros H1 Hin H2.
  replace (("[" ++ inner ++ "]") ++ ws2 ++ behind rest)
    with (String "[" (inner ++ String "]" (ws2 ++ behind rest)))
    by (cbn [append]; now rewrite append_assoc).
  pose proof (delimited_token_behind "[" "]" inner ws2 rest Hin H2) as Hd.
  apply (token_at_delimited true) in Hd; [|right; auto|discriminate].
  rewrite (tokenize_token true ws1 (String "[" _) _ _ _ H1 eq_refl Hd).
  do 2 eexists. f_equal. f_equal.
  replace (String "[" (inner ++ String "]" (ws2 ++ behind rest)))
    with (String "[" (inner ++ "]") ++ (ws2 ++ behind rest))
    by (cbn [append]; now rewrite append_assoc).
  replace (length inner + 2) with (length (String "[" (inner ++ "]")))
    by (cbn [length]; rewrite length_append; cbn [length]; lia).
  rewrite drop_add. apply drop_behind.
Qed.

Lemma tokenize_bare b ws1 a t ws2 rest :
  all_chars is_space ws1 = true ->
  all_chars bare_char (String a t) = true ->
  all_chars is_space ws2 = true ->
  exists whole g2,
    tokenize b (ws1 ++ String a t ++ ws2 ++ behind rest) 0
    = [whole; String a (t ++ ws2); g2]
        :: tokenize b (match rest with None => "" | Some r => r end) 0.
Proof.
  intros H1 Htok H2.
  pose proof (bare_token_behind a t ws2 rest Htok H2) as Hb.
  assert (Ha : bare_char a = true)
    by (cbn [all_chars] in Htok; apply andb_true_iff in Htok; tauto).
  destruct (bare_char_facts a Ha) as (Hbr & Hq & Hsp & _).
  assert (Ht : token_at b (String a (t ++ ws2 ++ behind rest))
               = Some (String a (t ++ ws2),
                       match rest with None => "" | Some _ => "," end,
                       length (String a (t ++ ws2))
                       + match rest with None => 0 | Some _ => 1 end)).
  { unfold token_at. rewrite (delimited_other "'" "'" a _ Hq), Hb.
    destruct b; [rewrite (delimited_other "[" "]" a _ Hbr)|]; reflexivity. }
  change (String a t ++ ws2 ++ behind rest) with (String a (t ++ ws2 ++ behind rest)).
  rewrite (tokenize_token b ws1 (String a _) _ _ _ H1 Hsp Ht).
  do 2 eexists. f_equal. f_equal.
  replace (String a (t ++ ws2 ++ behind rest))
    with (String a t ++ (ws2 ++ behind rest)) by reflexivity.
  replace (length (String a (t ++ ws2)) + match rest with None => 0 | Some _ => 1 end)
    with (length (String a t) + (length ws2 + match rest with None => 0 | Some _ => 1 end))
    by (cbn [length]; rewrite length_append; lia).
  rewrite drop_add. apply drop_behind.
Qed.

Lemma tokenize_rest rest :
  map parseToken (tokenize true (match rest with None => "" | Some r => r end) 0)
  = match rest with
    | None => []
    | Some r => parseTransformationArgs r
    end.
Proof.
  destruct rest as [r|]; [now rewrite parseTransformationArgs_tokenize | reflexivity].
Qed.

(** ** The argument parser on rendered arguments *)

Lemma elements_round_trip l : forall ws,
  all_chars is_space ws = true ->
  forallb quotable l = true ->
  map parseElement (tokenize false (ws ++ render_elements l) 0) = l.
Proof.
  induction l as [|x l IH]; intros ws Hws Hl.
  - cbn [render_elements]. rewrite append_nil_r, (tokenize_spaces false ws Hws).
    reflexivity.
  - cbn [forallb] in Hl. apply andb_true_iff in Hl as [Hx Hl].
    assert (E : exists rest,
               render_elements (x :: l) = quote x ++ "" ++ behind rest
               /\ map parseElement
                    (tokenize false (match rest with None => "" | Some r => r end) 0)
                  = l).
    { destruct l as [|y l'].
      - exists None. split; [cbn [render_elements behind append]; now rewrite append_nil_r|].
        reflexivity.
      - exists (Some (" " ++ render_elements (y :: l'))). split; [reflexivity|].
        apply (IH " " eq_refl Hl). }
    destruct E as (rest & -> & Hrest).
    destruct (tokenize_quoted false ws x "" rest Hws Hx eq_refl) as (whole & g2 & ->).
    cbn [map]. rewrite Hrest.
    now rewrite (proj2 (parseToken_quoted whole x g2)).
Qed.

Lemma render_elements_shape x l :
  exists y, render_elements (x :: l) = String "'" (y ++ "'").
Proof.
  revert x. induction l as [|z l IH]; intros x.
  - exists x. reflexivity.
  - destruct (IH z) as [y Hy].
    exists (x ++ "', " ++ String "'" y).
    change (render_elements (x :: z :: l))
      with (quote x ++ ", " ++ render_elements (z :: l)).
    rewrite Hy. unfold quote. cbn [append]. f_equal.
    rewrite !append_assoc. cbn [append]. reflexivity.
Qed.

Lemma render_elements_no_bracket l :
  forallb (fun s => quotable s && all_chars (none_of ["]"%char]) s) l = true ->
  all_chars (none_of ["]"%char]) (render_elements l) = true.
Proof.
  induction l as [|x l IH]; [reflexivity|]. cbn [forallb]. intros H.
  apply andb_true_iff in H as [Hx Hl]. apply andb_true_iff in Hx as [_ Hx].
  specialize (IH Hl).
  assert (Hq : all_chars (none_of ["]"%char]) (quote x) = true).
  { unfold quote. rewrite !all_chars_app, Hx. reflexivity. }
  destruct l as [|y l']; [exact Hq|].
  change (render_elements (x :: y :: l'))
    with (quote x ++ ", " ++ render_elements (y :: l')).
  rewrite !all_chars_app, Hq, IH. reflexivity.
Qed.

Lemma forallb_quotable l :
  forallb (fun s => quotable s && all_chars (none_of ["]"%char]) s) l = true ->
  forallb quotable l = true.
Proof.
  induction l as [|x l IH]; [reflexivity|]. cbn [forallb]. intros H.
  apply andb_true_iff in H as [Hx Hl]. apply andb_true_iff in Hx as [Hx _].
  now rewrite Hx, IH.
Qed.

Lemma parse_rendered_array whole l g2 :
  forallb (fun s => quotable s && all_chars (none_of ["]"%char]) s) l = true ->
  parseToken [whole; String "[" (render_elements l ++ "]"); g2] = AArray l.
Proof.
  intros Hl. rewrite parseToken_array. destruct l as [|x l]; [reflexivity|].
  destruct (render_elements_shape x l) as [y Hy].
  assert (Ht : trim (render_elements (x :: l)) = render_elements (x :: l)).
  { rewrite Hy. exact (trim_between "'" y "'" "" eq_refl eq_refl eq_refl). }
  rewrite Ht. rewrite Hy at 1. cbn [is_empty].
  pose proof (elements_round_trip (x :: l) "" eq_refl (forallb_quotable _ Hl)) as E.
  cbn [append] in E. now rewrite E.
Qed.

Lemma args_round_trip l : forall ws,
  all_chars is_space ws = true ->
  forallb renderable l = true ->
  map parseToken (tokenize true (ws ++ render_args l) 0) = l.
Proof.
  induction l as [|a l IH]; intros ws Hws Hl.
  - cbn [render_args]. rewrite append_nil_r, (tokenize_spaces true ws Hws).
    reflexivity.
  - cbn [forallb] in Hl. apply andb_true_iff in Hl as [Ha Hl].
    assert (E : exists rest,
               render_args (a :: l) = render_arg a ++ "" ++ behind rest
               /\ map parseToken
                    (tokenize true (match rest with None => "" | Some r => r end) 0)
                  = l).
    { destruct l as [|b l'].
      - exists None. split; [cbn [render_args behind append]; now rewrite append_nil_r|].
        reflexivity.
      - exists (Some (" " ++ render_args (b :: l'))). split; [reflexivity|].
        apply (IH " " eq_refl Hl). }
    destruct E as (rest & -> & Hrest).
    destruct a as [s|el]; cbn [render_arg renderable] in *.
    + destruct (tokenize_quoted true ws s "" rest Hws Ha eq_refl) as (whole & g2 & ->).
      cbn [map]. rewrite Hrest.
      now rewrite (proj1 (parseToken_quoted whole s g2)).
    + destruct (tokenize_array ws (render_elements el) "" rest Hws
                  (render_elements_no_bracket el Ha) eq_refl) as (whole & g2 & ->).
      cbn [map]. rewrite Hrest. now rewrite (parse_rendered_array whole el g2 Ha).
Qed.

(** ** Recognising a transformation call *)

Lemma rmatch_Group r i s caps k :
  rmatch (Group r) i s caps k
  = rmatch r i s caps (fun i' s' caps' => k i' s' (substring 0 (i' - i) s :: caps')).
Proof. reflexivity. Qed.

Lemma rmatch_Chr p i c s caps k :
  p c = true -> rmatch (Chr p) i (String c s) caps k = k (S i) s caps.
Proof. intros H. cbn [rmatch]. now rewrite H. Qed.

Lemma substring_0_all s : substring 0 (length s) s = s.
Proof.
  pose proof (substring_0_length s "") as H. now rewrite append_nil_r in H.
Qed.

(** A greedy star that ran to the end of the input gives back its last
    code unit when the continuation wants it. *)
Lemma star_greedy_back p k x c a : forall i caps,
  all_chars p x = true ->
  k (i + length x + 1) "" caps = None ->
  k (i + length x) (String c "") caps = Some a ->
  star_greedy p i (x ++ String c "") caps k = Some a.
Proof.
  induction x as [|b x IH]; intros i caps Hx Hend Hlast.
  - cbn [append star_greedy length] in *.
    rewrite Nat.add_0_r in *. replace (i + 1) with (S i) in Hend by lia.
    rewrite Hend. destruct (p c); exact Hlast.
  - cbn [all_chars] in Hx. apply andb_true_iff in Hx as [Hb Hx].
    cbn [append star_greedy]. rewrite Hb.
    rewrite (IH (S i) caps Hx); [reflexivity| |];
      cbn [length] in *;
      [replace (S i + length x + 1) with (i + S (length x) + 1) by lia
      |replace (S i + length x) with (i + S (length x)) by lia]; assumption.
Qed.

Lemma transformation_match_here_call a t inner :
  all_chars is_word (String a t) = true ->
  all_chars is_dot inner = true ->
  let s := String a t ++ "(" ++ inner ++ ")" in
  match_here transformationRegex 0 s = Some ([s; String a t; inner], length s).
Proof.
  intros Hname Hinner s.
  cbn [all_chars] in Hname. apply andb_true_iff in Hname as [Ha Ht].
  assert (Hs : s = String a (t ++ String "(" (inner ++ ")"))) by reflexivity.
  set (j := S (length t)).
  assert (E : rmatch transformationRegex 0 s [] (fun i' _ caps => Some (caps, i'))
              = Some ([inner; String a t], length s)).
  { unfold transformationRegex. rewrite rmatch_Seq. cbn [rmatch Nat.eqb].
    rewrite Hs at 1. unfold Plus. cbn [rmatch]. rewrite Ha.
    assert (Hhead : is_word "(" = false) by reflexivity.
    destruct (take_while_all is_word t (String "(" (inner ++ ")")) Ht Hhead) as [Htw Hdw].
    apply star_greedy_at_max. rewrite Htw, Hdw.
    change (char "(" "(") with true. cbv iota.
    apply star_greedy_back; [exact Hinner|reflexivity|].
    change (char ")" ")") with true. cbv iota. f_equal. f_equal.
    - f_equal.
      + replace (S (1 + length t) + length inner - S (1 + length t)) with (length inner) by lia.
        apply substring_0_length.
      + f_equal. rewrite Hs.
        replace (1 + length t - 0) with (length (String a t)) by (cbn [length]; lia).
        exact (substring_0_length (String a t) _).
    - rewrite Hs. cbn [length]. rewrite !length_append. cbn [length].
      rewrite length_append. cbn [length]. lia. }
  unfold match_here. rewrite E. cbn [rev app].
  now rewrite Nat.sub_0_r, substring_0_all.
Qed.

(** A word, an opening parenthesis, a text without line terminators and
    a closing parenthesis is a transformation call, of that name and with
    that text as arguments. *)
Lemma transformation_call_match name inner :
  name <> "" ->
  all_chars is_word name = true ->
  all_chars is_dot inner = true ->
  match_ (name ++ "(" ++ inner ++ ")") transformationRegex
  = Some [name ++ "(" ++ inner ++ ")"; name; inner].
Proof.
  intros Hne Hname Hinner. destruct name as [|a t]; [congruence|].
  pose proof (transformation_match_here_call a t inner Hname Hinner) as H.
  cbn zeta in H. unfold match_. cbn [append] in *. cbn [search_from].
  now rewrite H.
Qed.

(** ** Classes of code units *)

Ltac by_cases_on c :=
  destruct c as [[] [] [] [] [] [] [] []]; try reflexivity; try discriminate.

Lemma path_char_bare c : path_char c = true -> bare_char c = true.
Proof. by_cases_on c. Qed.

Lemma path_char_dot c : path_char c = true -> is_dot c = true.
Proof. by_cases_on c. Qed.

Lemma path_char_nb c : path_char c = true -> nb c = true.
Proof. by_cases_on c. Qed.

Lemma word_dot c : is_word c = true -> is_dot c = true.
Proof. by_cases_on c. Qed.

Lemma word_nb c : is_word c = true -> nb c = true.
Proof. by_cases_on c. Qed.

Lemma space_nb c : is_space c = true -> nb c = true.
Proof. by_cases_on c. Qed.

Lemma word_no_space c : is_word c = true -> is_space c = false.
Proof. by_cases_on c. Qed.

Lemma literal_char_facts c :
  literal_char c = true ->
  is_dot c = true /\ nb c = true
  /\ none_of ["'"%char] c = true /\ none_of ["]"%char] c = true.
Proof.
  unfold literal_char. intros H.
  apply andb_true_iff in H as [H Hq]. apply andb_true_iff in H as [Hd Hn].
  repeat split; try assumption; rewrite none_of_one; apply negb_true_iff;
    unfold none_of, char in *; cbn [existsb] in Hq; apply negb_true_iff in Hq;
    repeat (apply orb_false_iff in Hq as [? Hq]);
    rewrite Ascii.eqb_sym; assumption.
Qed.

Lemma brace_free_all s : brace_free s = all_chars nb s.
Proof. induction s as [|c s IH]; [reflexivity|]. cbn [brace_free all_chars]. now rewrite IH. Qed.

(** ** Whole calls *)

Ltac normalize_append :=
  repeat first [rewrite !append_assoc | progress cbn [append]].

Lemma trimStart_spaces ws s :
  all_chars is_space ws = true -> trimStart (ws ++ s) = trimStart s.
Proof.
  induction ws as [|c ws IH]; [reflexivity|]. cbn [all_chars append trimStart].
  intros H. apply andb_true_iff in H as [Hc Hws]. rewrite Hc. exact (IH Hws).
Qed.

Lemma trim_padded ws1 a x c ws2 :
  all_chars is_space ws1 = true -> all_chars is_space ws2 = true ->
  is_space a = false -> is_space c = false ->
  trim (ws1 ++ String a (x ++ String c ws2)) = String a (x ++ String c "").
Proof.
  intros H1 H2 Ha Hc. unfold trim. rewrite (trimStart_spaces ws1 _ H1).
  exact (trim_between a x c ws2 Ha Hc H2).
Qed.

Lemma all_chars_render_elements p l :
  p "'"%char = true -> p ","%char = true -> p " "%char = true ->
  forallb (all_chars p) l = true ->
  all_chars p (render_elements l) = true.
Proof.
  intros Hq Hc Hs. induction l as [|x l IH]; [reflexivity|]. cbn [forallb].
  intros H. apply andb_true_iff in H as [Hx Hl]. specialize (IH Hl).
  assert (Hquote : all_chars p (quote x) = true).
  { unfold quote. rewrite !all_chars_app, Hx. cbn [all_chars]. now rewrite Hq. }
  destruct l as [|y l']; [exact Hquote|].
  change (render_elements (x :: y :: l'))
    with (quote x ++ ", " ++ render_elements (y :: l')).
  rewrite !all_chars_app, Hquote, IH. cbn [all_chars]. now rewrite Hc, Hs.
Qed.

Lemma all_chars_render_args p l :
  p "'"%char = true -> p ","%char = true -> p " "%char = true ->
  p "["%char = true -> p "]"%char = true ->
  forallb (fun a => match a with
                    | AString s => all_chars p s
                    | AArray el => forallb (all_chars p) el
                    end) l = true ->
  all_chars p (render_args l) = true.
Proof.
  intros Hq Hc Hs Ho Hcl. induction l as [|a l IH]; [reflexivity|]. cbn [forallb].
  intros H. apply andb_true_iff in H as [Ha Hl]. specialize (IH Hl).
  assert (Harg : all_chars p (render_arg a) = true).
  { destruct a as [s|el]; cbn [render_arg].
    - unfold quote. rewrite !all_chars_app, Ha. cbn [all_chars]. now rewrite Hq.
    - rewrite !all_chars_app, (all_chars_render_elements p el Hq Hc Hs Ha).
      cbn [all_chars]. now rewrite Ho, Hcl. }
  destruct l as [|b l']; [exact Harg|].
  change (render_args (a :: b :: l'))
    with (render_arg a ++ ", " ++ render_args (b :: l')).
  rewrite !all_chars_app, Harg, IH. cbn [all_chars]. now rewrite Hc, Hs.
Qed.

Lemma forallb_impl {A} (f g : A -> bool) l :
  (forall x, f x = true -> g x = true) ->
  forallb f l = true -> forallb g l = true.
Proof.
  intros H. induction l as [|x l IH]; [reflexivity|]. cbn [forallb].
  intros E. apply andb_true_iff in E as [Hx Hl]. now rewrite (H x Hx), IH.
Qed.

Lemma literal_all p s :
  (forall c, literal_char c = true -> p c = true) ->
  literal s = true -> all_chars p s = true.
Proof. intros H. apply all_chars_weaken, H. Qed.

Lemma literal_args_all p args :
  (forall c, literal_char c = true -> p c = true) ->
  forallb literal_arg args = true ->
  forallb (fun a => match a with
                    | AString s => all_chars p s
                    | AArray el => forallb (all_chars p) el
                    end) args = true.
Proof.
  intros H. apply forallb_impl. intros [s|el]; cbn [literal_arg].
  - apply literal_all, H.
  - apply forallb_impl. intros s. apply literal_all, H.
Qed.

Lemma literal_args_renderable args :
  forallb literal_arg args = true -> forallb renderable args = true.
Proof.
  apply forallb_impl. intros [s|el]; cbn [literal_arg renderable].
  - apply literal_all. intros c Hc. apply literal_char_facts in Hc. tauto.
  - apply forallb_impl. intros s Hs. unfold quotable.
    rewrite (literal_all (none_of ["'"%char]) s), (literal_all (none_of ["]"%char]) s);
      try assumption; try reflexivity;
      intros c Hc; apply literal_char_facts in Hc; tauto.
Qed.

Lemma call_args_all p key args :
  (forall c, path_char c = true -> p c = true) ->
  (forall c, literal_char c = true -> p c = true) ->
  p "'"%char = true -> p ","%char = true -> p " "%char = true ->
  p "["%char = true -> p "]"%char = true ->
  all_chars path_char key = true ->
  forallb literal_arg args = true ->
  all_chars p (call_args key args) = true.
Proof.
  intros Hpath Hlit Hq Hc Hs Ho Hcl Hkey Hargs.
  pose proof (all_chars_weaken path_char p key Hpath Hkey) as Hk.
  unfold call_args. destruct args as [|a l]; [exact Hk|].
  rewrite !all_chars_app, Hk,
    (all_chars_render_args p (a :: l) Hq Hc Hs Ho Hcl (literal_args_all p _ Hlit Hargs)).
  cbn [all_chars]. now rewrite Hc, Hs.
Qed.

(** The arguments of a call in rendered form parse to the key and the
    arguments. *)
Lemma parse_call_args key args :
  key <> "" ->
  all_chars path_char key = true ->
  forallb renderable args = true ->
  parseTransformationArgs (call_args key args) = AString key :: args.
Proof.
  intros Hne Hkey Hargs. destruct key as [|a t]; [congruence|].
  pose proof (all_chars_weaken path_char bare_char _ path_char_bare Hkey) as Hbare.
  rewrite parseTransformationArgs_tokenize. unfold call_args.
  destruct args as [|b l].
  - destruct (tokenize_bare true "" a t "" None eq_refl Hbare eq_refl)
      as (whole & g2 & E).
    pose proof (proj1 (parseToken_bare whole a t "" g2 Hbare eq_refl)) as P.
    cbn [append behind] in E. rewrite !append_nil_r in E, P. rewrite E.
    cbn [map]. f_equal. exact P.
  - destruct (tokenize_bare true "" a t "" (Some (" " ++ render_args (b :: l)))
                eq_refl Hbare eq_refl) as (whole & g2 & E).
    pose proof (proj1 (parseToken_bare whole a t "" g2 Hbare eq_refl)) as P.
    cbn [append behind] in E. cbn [append]. rewrite E.
    cbn [map]. f_equal; [exact P|].
    exact (args_round_trip (b :: l) " " eq_refl Hargs).
Qed.

Lemma keyValue_key d key args :
  key <> "" -> keyValue d (AString key :: args) = resolveDataPath d key.
Proof. intros H. destruct key; [congruence | reflexivity]. Qed.

(** A call between the delimiters, anywhere in a template. *)
Lemma format_call host data pre ws1 name inner ws2 post :
  name <> "" ->
  all_chars is_word name = true ->
  all_chars is_dot inner = true ->
  all_chars nb inner = true ->
  all_chars is_space ws1 = true ->
  all_chars is_space ws2 = true ->
  formatStringWithData host (Some (pre ++ call ws1 name inner ws2 ++ post)) data =
  (a <- formatStringWithData host (Some pre) data ;;
   v <- match lookup name (defaultTransformations host) with
        | Some f => callTransformation (dataToUse data) f inner
        | None => Normal "#ERROR"
        end ;;
   b <- formatStringWithData host (Some post) data ;;
   Normal (a ++ v ++ b)).
Proof.
  intros Hne Hname Hdot Hnb H1 H2. destruct name as [|a t]; [congruence|].
  set (body := ws1 ++ String a t ++ "(" ++ inner ++ ")" ++ ws2).
  assert (Hshape : call ws1 (String a t) inner ws2 ++ post
                   = "{{" ++ body ++ "}}" ++ post).
  { unfold call, body. normalize_append. reflexivity. }
  assert (Hbody : brace_free body = true).
  { rewrite brace_free_all. unfold body.
    rewrite !all_chars_app, Hnb,
      (all_chars_weaken is_space nb ws1 space_nb H1),
      (all_chars_weaken is_space nb ws2 space_nb H2),
      (all_chars_weaken is_word nb _ word_nb Hname).
    reflexivity. }
  assert (Htrim : trim body = String a t ++ "(" ++ inner ++ ")").
  { unfold body.
    replace (String a t ++ "(" ++ inner ++ ")" ++ ws2)
      with (String a ((t ++ "(" ++ inner) ++ String ")" ws2))
      by (normalize_append; reflexivity).
    rewrite trim_padded; try assumption; try reflexivity.
    - normalize_append. reflexivity.
    - cbn [all_chars] in Hname. apply andb_true_iff in Hname as [Ha _].
      exact (word_no_space a Ha). }
  rewrite Hshape, (format_placeholder host data pre body post Hbody).
  unfold replacer. cbn [nth]. rewrite Htrim.
  rewrite (transformation_call_match (String a t) inner Hne Hname Hdot).
  reflexivity.
Qed.

(** * Further properties of the code *)

(** ** The scanner *)

(** X1. A placeholder with a brace free body is replaced in place: the
    text before it and the text after it are formatted as they would be on
    their own, and the placeholder gives way to what the replacement
    function returns on its body; a raise in one part is the raise of the
    whole call. *)
Theorem placeholder_replaced_in_place host data pre body post :
  brace_free body = true ->
  formatStringWithData host (Some (pre ++ "{{" ++ body ++ "}}" ++ post)) data =
  (a <- formatStringWithData host (Some pre) data ;;
   v <- replacer host (dataToUse data) ["{{" ++ body ++ "}}"; body] ;;
   b <- formatStringWithData host (Some post) data ;;
   Normal (a ++ v ++ b)).
Proof. exact (format_placeholder host data pre body post). Qed.

Lemma placeholder_replaced_in_place_witness :
  brace_free "date(t)" = true
  /\ formatStringWithData ReferenceHost.host
       (Some ("{{a}}, " ++ "{{" ++ "date(t)" ++ "}}" ++ " {{b}"))
       (Some (JObject [("a", JString "x"); ("t", JNumber 0)]))
     = Normal "x, 1/1/1970 {{b}".
Proof.
  assert (H : brace_free "date(t)" = true) by reflexivity.
  refine (conj H _).
  exact (placeholder_replaced_in_place ReferenceHost.host
           (Some (JObject [("a", JString "x"); ("t", JNumber 0)]))
           "{{a}}, " "date(t)" " {{b}" H).
Defined.

Lemma placeholder_starts_open s r : placeholder_at s = Some r -> starts_open s = true.
Proof.
  unfold placeholder_at, starts_open. destruct s as [|c1 [|c2 s]]; try discriminate.
  destruct (char "{" c1 && char "{" c2); [reflexivity | discriminate].
Qed.

Lemma scan_no_open f s : has_open s = false -> scan f s 0 = Normal s.
Proof.
  induction s as [|c s IH]; intros H; [reflexivity|].
  cbn [has_open] in H. apply orb_false_iff in H as [Hs Ht].
  rewrite scan_0. destruct (placeholder_at (String c s)) as [r|] eqn:E.
  - apply placeholder_starts_open in E. congruence.
  - rewrite (IH Ht). reflexivity.
Qed.

(** X2. A template in which no opening pair occurs, or no closing pair,
    comes back unchanged, whatever the data. *)
Theorem template_without_placeholder_unchanged host data t :
  has_open t = false \/ has_close t = false ->
  formatStringWithData host (Some t) data = Normal t.
Proof.
  intros [H|H]; rewrite format_scan; [apply scan_no_open | apply scan_no_close];
    exact H.
Qed.

Lemma template_without_placeholder_unchanged_witness :
  (has_open "a } b }} c { d" = false \/ has_close "a } b }} c { d" = false)
  /\ formatStringWithData ReferenceHost.host (Some "a } b }} c { d") None
     = Normal "a } b }} c { d".
Proof.
  assert (H : has_open "a } b }} c { d" = false \/ has_close "a } b }} c { d" = false)
    by (left; reflexivity).
  refine (conj H _).
  exact (template_without_placeholder_unchanged ReferenceHost.host None _ H).
Defined.

(** X3. A placeholder whose body is empty or white space only is removed
    from the output. *)
Theorem blank_placeholder_removed host data pre body post :
  all_chars is_space body = true ->
  formatStringWithData host (Some (pre ++ "{{" ++ body ++ "}}" ++ post)) data =
  (a <- formatStringWithData host (Some pre) data ;;
   b <- formatStringWithData host (Some post) data ;;
   Normal (a ++ b)).
Proof.
  intros H.
  assert (Hb : brace_free body = true)
    by (rewrite brace_free_all; exact (all_chars_weaken is_space nb body space_nb H)).
  rewrite (format_placeholder host data pre body post Hb).
  unfold replacer. cbn [nth]. rewrite (trim_spaces body H). reflexivity.
Qed.

Lemma blank_placeholder_removed_witness :
  all_chars is_space "  " = true
  /\ formatStringWithData ReferenceHost.host (Some ("a" ++ "{{" ++ "  " ++ "}}" ++ "b"))
       None
     = Normal "ab".
Proof.
  assert (H : all_chars is_space "  " = true) by reflexivity.
  refine (conj H _).
  exact (blank_placeholder_removed ReferenceHost.host None "a" "  " "b" H).
Defined.

(** X4. A placeholder that is a transformation call never raises: it
    gives way to some text, whatever the name, the arguments and the data,
    and the rest of the template is formatted as usual. *)
Theorem transformation_placeholder_never_raises host data pre body post tm :
  brace_free body = true ->
  match_ (trim body) transformationRegex = Some tm ->
  exists v,
    formatStringWithData host (Some (pre ++ "{{" ++ body ++ "}}" ++ post)) data =
    (a <- formatStringWithData host (Some pre) data ;;
     b <- formatStringWithData host (Some post) data ;;
     Normal (a ++ v ++ b)).
Proof.
  intros Hb Hcall. rewrite (format_placeholder host data pre body post Hb).
  unfold replacer. cbn [nth].
  rewrite (transformation_match_nonempty _ _ Hcall), Hcall.
  destruct (lookup _ _) as [f|].
  - destruct (callTransformation_returns (dataToUse data) f (nth 2 tm "")) as [v ->].
    exists v. reflexivity.
  - exists "#ERROR". reflexivity.
Qed.

Lemma transformation_placeholder_never_raises_witness :
  let data := Some (JObject [("x", JObject [("toString", JNumber 1)])]) in
  brace_free "replace(x, ['a','b'])" = true
  /\ match_ (trim "replace(x, ['a','b'])") transformationRegex
     = Some ["replace(x, ['a','b'])"; "replace"; "x, ['a','b']"]
  /\ exists v,
       formatStringWithData ReferenceHost.host
         (Some ("" ++ "{{" ++ "replace(x, ['a','b'])" ++ "}}" ++ "")) data
       = (a <- formatStringWithData ReferenceHost.host (Some "") data ;;
          b <- formatStringWithData ReferenceHost.host (Some "") data ;;
          Normal (a ++ v ++ b)).
Proof.
  intros data.
  assert (H1 : brace_free "replace(x, ['a','b'])" = true) by reflexivity.
  assert (H2 : match_ (trim "replace(x, ['a','b'])") transformationRegex
               = Some ["replace(x, ['a','b'])"; "replace"; "x, ['a','b']"])
    by reflexivity.
  refine (conj H1 (conj H2 _)).
  exact (transformation_placeholder_never_raises ReferenceHost.host data
           "" "replace(x, ['a','b'])" "" _ H1 H2).
Defined.

(** ** Simple keys *)

Lemma word_path c : is_word c = true -> path_char c = true.
Proof. by_cases_on c. Qed.

Lemma word_no_dot c : is_word c = true -> negb (Ascii.eqb c ".") = true.
Proof. by_cases_on c. Qed.

Lemma path_char_no_paren c : path_char c = true -> negb (Ascii.eqb c ")") = true.
Proof. by_cases_on c. Qed.

Lemma dot_free_all s : dot_free s = all_chars (fun c => negb (Ascii.eqb c ".")) s.
Proof. induction s as [|c s IH]; [reflexivity|]. cbn [dot_free all_chars]. now rewrite IH. Qed.

Lemma word_dot_free s : all_chars is_word s = true -> dot_free s = true.
Proof. rewrite dot_free_all. apply all_chars_weaken, word_no_dot. Qed.

Lemma endsWith_all p s c :
  all_chars p s = true -> endsWith s (String c "") = true -> p c = true.
Proof.
  induction s as [|a s IH]; [discriminate|].
  cbn [all_chars]. intros H. apply andb_true_iff in H as [Ha Hs].
  destruct s as [|b r].
  - unfold endsWith. cbn. destruct (Ascii.eqb_spec a c) as [<-|]; [auto | discriminate].
  - intros E. apply (IH Hs). revert E. unfold endsWith. cbn [length].
    cbn [Nat.leb Nat.sub]. rewrite !Nat.sub_0_r. cbn [substring andb]. auto.
Qed.

Lemma path_not_a_call t :
  all_chars path_char t = true -> match_ t transformationRegex = None.
Proof.
  intros H. unfold match_.
  destruct (search_from transformationRegex 0 t) as [m|] eqn:E; [|reflexivity].
  apply transformation_search in E as [_ E].
  pose proof (endsWith_all _ t ")" (all_chars_weaken _ _ _ path_char_no_paren H) E).
  discriminate.
Qed.

(** A key path between the delimiters, anywhere in a template. *)
Lemma format_path host data pre ws1 key ws2 post :
  key <> "" ->
  all_chars path_char key = true ->
  all_chars is_space ws1 = true ->
  all_chars is_space ws2 = true ->
  formatStringWithData host
    (Some (pre ++ "{{" ++ (ws1 ++ key ++ ws2) ++ "}}" ++ post)) data =
  (a <- formatStringWithData host (Some pre) data ;;
   t <- match resolveDataPath (dataToUse data) key with
        | None | Some (VJson JNull) => Normal ""
        | Some v => ToString host v
        end ;;
   b <- formatStringWithData host (Some post) data ;;
   Normal (a ++ t ++ b)).
Proof.
  intros Hne Hkey H1 H2. destruct key as [|c k]; [congruence|].
  assert (Hb : brace_free (ws1 ++ String c k ++ ws2) = true).
  { rewrite brace_free_all, !all_chars_app,
      (all_chars_weaken is_space nb ws1 space_nb H1),
      (all_chars_weaken is_space nb ws2 space_nb H2),
      (all_chars_weaken path_char nb _ path_char_nb Hkey). reflexivity. }
  assert (Ht : trim (ws1 ++ String c k ++ ws2) = String c k).
  { unfold trim. rewrite (trimStart_spaces ws1 _ H1).
    exact (trim_bare c k ws2 (all_chars_weaken path_char bare_char _ path_char_bare Hkey) H2). }
  rewrite (format_placeholder host _ pre _ post Hb).
  unfold replacer. cbn [nth]. rewrite Ht. cbn [is_empty].
  now rewrite (path_not_a_call _ Hkey).
Qed.

Lemma resolve_simple_key fields key :
  key <> "" -> dot_free key = true ->
  resolveDataPath (JObject fields) key = get_property (VJson (JObject fields)) key.
Proof.
  intros Hne Hdot. unfold resolveDataPath.
  destruct key as [|c k]; [congruence|]. cbn [is_empty]. unfold split. cbn [is_empty].
  rewrite (split_go_dot_free _ "" Hdot). cbn [append resolve_parts].
  now destruct (get_property _ _).
Qed.

(** X6. A placeholder [{{key}}] on an object that has [key] as own
    property gives way to the text of that value: nothing for [null],
    [String(value)] otherwise, with the white space around the key
    ignored.  The text is inserted as it is, whatever it contains. *)
Theorem simple_key_placeholder host fields pre ws1 key ws2 post v :
  key <> "" ->
  all_chars is_word key = true ->
  all_chars is_space ws1 = true ->
  all_chars is_space ws2 = true ->
  own_property fields key = Some v ->
  formatStringWithData host
    (Some (pre ++ "{{" ++ (ws1 ++ key ++ ws2) ++ "}}" ++ post))
    (Some (JObject fields)) =
  (a <- formatStringWithData host (Some pre) (Some (JObject fields)) ;;
   t <- match v with JNull => Normal "" | _ => Json_toString v end ;;
   b <- formatStringWithData host (Some post) (Some (JObject fields)) ;;
   Normal (a ++ t ++ b)).
Proof.
  intros Hne Hkey H1 H2 Hown.
  rewrite (format_path host _ pre ws1 key ws2 post Hne
             (all_chars_weaken _ _ _ word_path Hkey) H1 H2).
  change (dataToUse (Some (JObject fields))) with (JObject fields).
  rewrite (resolve_simple_key fields key Hne (word_dot_free _ Hkey)).
  cbn [get_property]. rewrite Hown. destruct v; reflexivity.
Qed.

Lemma simple_key_placeholder_witness :
  let fields := [("name", JString "{{name}} & co")] in
  "name" <> ""
  /\ all_chars is_word "name" = true
  /\ all_chars is_space " " = true
  /\ all_chars is_space "" = true
  /\ own_property fields "name" = Some (JString "{{name}} & co")
  /\ formatStringWithData ReferenceHost.host
       (Some ("Hi " ++ "{{" ++ (" " ++ "name" ++ "") ++ "}}" ++ "!"))
       (Some (JObject fields))
     = Normal "Hi {{name}} & co!".
Proof.
  intros fields.
  assert (H0 : "name" <> "") by discriminate.
  assert (H1 : all_chars is_word "name" = true) by reflexivity.
  assert (H2 : all_chars is_space " " = true) by reflexivity.
  assert (H3 : all_chars is_space "" = true) by reflexivity.
  assert (H4 : own_property fields "name" = Some (JString "{{name}} & co")) by reflexivity.
  refine (conj H0 (conj H1 (conj H2 (conj H3 (conj H4 _))))).
  exact (simple_key_placeholder ReferenceHost.host fields "Hi " " " "name" "" "!"
           (JString "{{name}} & co") H0 H1 H2 H3 H4).
Defined.

(** ** The path resolver *)

Lemma split_nonempty path : split path "." <> [].
Proof. unfold split. cbn [is_empty]. apply split_go_nonempty. Qed.

Lemma get_property_indexable current part v :
  get_property current part = Some v -> indexable current = true.
Proof. destruct current as [[]|[]|]; cbn [get_property indexable]; congruence. Qed.

(** X10. On a value that is neither an object nor an array ([null], a
    boolean, a number, a string as the whole data document), every path
    resolves to nothing. *)
Theorem primitive_data_resolves_nothing data path :
  indexable (VJson data) = false ->
  resolveDataPath data path = None.
Proof.
  intros H. unfold resolveDataPath. destruct (is_empty path); [reflexivity|].
  destruct (split path ".") as [|part parts] eqn:E; [now apply split_nonempty in E|].
  cbn [resolve_parts].
  destruct (get_property (VJson data) part) as [v|] eqn:G; [|reflexivity].
  apply get_property_indexable in G. congruence.
Qed.

Lemma primitive_data_resolves_nothing_witness :
  indexable (VJson (JString "text")) = false
  /\ resolveDataPath (JString "text") "length" = None.
Proof.
  assert (H : indexable (VJson (JString "text")) = false) by reflexivity.
  refine (conj H _).
  exact (primitive_data_resolves_nothing (JString "text") "length" H).
Defined.

Lemma split_go_app p q : forall cur,
  split_go "." (p ++ String "." q) 0 cur
  = (split_go "." p 0 cur ++ split_go "." q 0 "")%list.
Proof.
  induction p as [|c p IH]; intros cur.
  - cbn [append split_go]. rewrite prefix_dot. change (Ascii.eqb "." ".") with true.
    reflexivity.
  - cbn [append split_go]. rewrite !prefix_dot.
    destruct (Ascii.eqb c "."); cbn [length Nat.sub]; rewrite IH; reflexivity.
Qed.

Lemma resolve_parts_app l1 l2 : forall v,
  resolve_parts v (l1 ++ l2)
  = match resolve_parts v l1 with
    | Some w => resolve_parts w l2
    | None => None
    end.
Proof.
  induction l1 as [|part l1 IH]; intros v; [reflexivity|].
  cbn [app resolve_parts]. destruct (get_property v part); [apply IH | reflexivity].
Qed.

Lemma resolve_longer data p q :
  p <> "" ->
  resolveDataPath data (p ++ "." ++ q)
  = match resolveDataPath data p with
    | Some v => resolve_parts v (split q ".")
    | None => None
    end.
Proof.
  intros Hp. unfold resolveDataPath.
  destruct p as [|c p]; [congruence|]. cbn [append is_empty].
  unfold split. cbn [is_empty].
  change (String c (p ++ String "." q)) with (String c p ++ String "." q).
  now rewrite split_go_app, resolve_parts_app.
Qed.

(** X11. Paths compose: resolving [p.q] is resolving [p] and then going on
    from the value found along the segments of [q]; where [p] resolves to
    nothing, so does [p.q]. *)
Theorem resolve_path_composes data p q :
  p <> "" ->
  resolveDataPath data (p ++ "." ++ q)
  = match resolveDataPath data p with
    | Some v => resolve_parts v (split q ".")
    | None => None
    end.
Proof. exact (resolve_longer data p q). Qed.

Lemma resolve_path_composes_witness :
  let data := JObject [("a", JObject [("b", JObject [("c", JNumber 7)])])] in
  "a.b" <> ""
  /\ resolveDataPath data ("a.b" ++ "." ++ "c")
     = match resolveDataPath data "a.b" with
       | Some v => resolve_parts v (split "c" ".")
       | None => None
       end.
Proof.
  intros data. assert (H : "a.b" <> "") by discriminate.
  refine (conj H _). exact (resolve_path_composes data "a.b" "c" H).
Defined.

(** X12. Resolution stops without an error at a value that has no
    properties to look into: where [p] resolves to [null], a boolean, a
    number, a string or a built-in function, every longer path [p.q]
    resolves to nothing. *)
Theorem resolve_stops_at_primitive data p q v :
  resolveDataPath data p = Some v ->
  indexable v = false ->
  resolveDataPath data (p ++ "." ++ q) = None.
Proof.
  intros Hp Hv.
  assert (Hne : p <> "") by (intros ->; discriminate).
  rewrite (resolve_longer data p q Hne), Hp.
  destruct (split q ".") as [|part parts] eqn:E; [now apply split_nonempty in E|].
  cbn [resolve_parts].
  destruct (get_property v part) as [w|] eqn:G; [|reflexivity].
  apply get_property_indexable in G. congruence.
Qed.

Lemma resolve_stops_at_primitive_witness :
  let data := JObject [("user", JObject [("name", JNull)])] in
  resolveDataPath data "user.name" = Some (VJson JNull)
  /\ indexable (VJson JNull) = false
  /\ resolveDataPath data ("user.name" ++ "." ++ "first") = None.
Proof.
  intros data.
  assert (H1 : resolveDataPath data "user.name" = Some (VJson JNull)) by reflexivity.
  assert (H2 : indexable (VJson JNull) = false) by reflexivity.
  refine (conj H1 (conj H2 _)).
  exact (resolve_stops_at_primitive data "user.name" "first" _ H1 H2).
Defined.

Lemma not_inherited key :
  inherited_name key = false ->
  inherited [ObjectPrototype] (Some ObjectPrototype) key = None.
Proof.
  unfold inherited_name. intros H. apply orb_false_iff in H as [H1 H2].
  cbn [inherited prototype_property]. now rewrite H1, H2.
Qed.

(** X7. A placeholder naming a key that the object does not have, and
    that is not a name every object inherits, is removed from the text:
    no error, no marker. *)
Theorem missing_key_placeholder_removed host fields pre ws1 key ws2 post :
  key <> "" ->
  all_chars is_word key = true ->
  all_chars is_space ws1 = true ->
  all_chars is_space ws2 = true ->
  own_property fields key = None ->
  inherited_name key = false ->
  formatStringWithData host
    (Some (pre ++ "{{" ++ (ws1 ++ key ++ ws2) ++ "}}" ++ post))
    (Some (JObject fields)) =
  (a <- formatStringWithData host (Some pre) (Some (JObject fields)) ;;
   b <- formatStringWithData host (Some post) (Some (JObject fields)) ;;
   Normal (a ++ b)).
Proof.
  intros Hne Hkey H1 H2 Hown Hinh.
  rewrite (format_path host _ pre ws1 key ws2 post Hne
             (all_chars_weaken _ _ _ word_path Hkey) H1 H2).
  change (dataToUse (Some (JObject fields))) with (JObject fields).
  rewrite (resolve_simple_key fields key Hne (word_dot_free _ Hkey)).
  cbn [get_property]. rewrite Hown, (not_inherited key Hinh).
  destruct (formatStringWithData host (Some pre) _); reflexivity.
Qed.

Lemma missing_key_placeholder_removed_witness :
  let fields := [("name", JString "Ann")] in
  "age" <> ""
  /\ all_chars is_word "age" = true
  /\ all_chars is_space "" = true
  /\ all_chars is_space " " = true
  /\ own_property fields "age" = None
  /\ inherited_name "age" = false
  /\ formatStringWithData ReferenceHost.host
       (Some ("{{name}} is " ++ "{{" ++ ("" ++ "age" ++ " ") ++ "}}" ++ "."))
       (Some (JObject fields))
     = Normal "Ann is .".
Proof.
  intros fields.
  assert (H0 : "age" <> "") by discriminate.
  assert (H1 : all_chars is_word "age" = true) by reflexivity.
  assert (H2 : all_chars is_space "" = true) by reflexivity.
  assert (H3 : all_chars is_space " " = true) by reflexivity.
  assert (H4 : own_property fields "age" = None) by reflexivity.
  assert (H5 : inherited_name "age" = false) by reflexivity.
  refine (conj H0 (conj H1 (conj H2 (conj H3 (conj H4 (conj H5 _)))))).
  exact (missing_key_placeholder_removed ReferenceHost.host fields "{{name}} is "
           "" "age" " " "." H0 H1 H2 H3 H4 H5).
Defined.

(** X8. A placeholder naming a method of [Object.prototype]
    ([toString], [constructor], [hasOwnProperty], ...) on an object
    without such an own key finds the built-in function through the
    [in] test and puts the text of that function into the output. *)
Theorem inherited_method_placeholder host fields pre ws1 key ws2 post :
  all_chars is_word key = true ->
  all_chars is_space ws1 = true ->
  all_chars is_space ws2 = true ->
  own_property fields key = None ->
  existsb (String.eqb key) Object_prototype = true ->
  formatStringWithData host
    (Some (pre ++ "{{" ++ (ws1 ++ key ++ ws2) ++ "}}" ++ post))
    (Some (JObject fields)) =
  (a <- formatStringWithData host (Some pre) (Some (JObject fields)) ;;
   b <- formatStringWithData host (Some post) (Some (JObject fields)) ;;
   Normal (a ++ Function_toString host ObjectPrototype key ++ b)).
Proof.
  intros Hkey H1 H2 Hown Hin.
  assert (Hne : key <> "") by (intros ->; discriminate).
  rewrite (format_path host _ pre ws1 key ws2 post Hne
             (all_chars_weaken _ _ _ word_path Hkey) H1 H2).
  change (dataToUse (Some (JObject fields))) with (JObject fields).
  rewrite (resolve_simple_key fields key Hne (word_dot_free _ Hkey)).
  cbn [get_property inherited prototype_property]. rewrite Hown, Hin.
  destruct (key =? "__proto__") eqn:E.
  - apply String.eqb_eq in E. subst key. discriminate.
  - reflexivity.
Qed.

Lemma inherited_method_placeholder_witness :
  all_chars is_word "toString" = true
  /\ all_chars is_space "" = true
  /\ own_property [] "toString" = None
  /\ existsb (String.eqb "toString") Object_prototype = true
  /\ formatStringWithData ReferenceHost.host
       (Some ("" ++ "{{" ++ ("" ++ "toString" ++ "") ++ "}}" ++ ""))
       (Some (JObject []))
     = Normal "function toString() { [native code] }".
Proof.
  assert (H1 : all_chars is_word "toString" = true) by reflexivity.
  assert (H2 : all_chars is_space "" = true) by reflexivity.
  assert (H3 : own_property [] "toString" = None) by reflexivity.
  assert (H4 : existsb (String.eqb "toString") Object_prototype = true) by reflexivity.
  refine (conj H1 (conj H2 (conj H3 (conj H4 _)))).
  exact (inherited_method_placeholder ReferenceHost.host [] "" "" "toString" "" ""
           H1 H2 H2 H3 H4).
Defined.

Lemma index_key_no_method i names :
  forallb (fun name => match array_index name with None => true | Some _ => false end)
          names = true ->
  existsb (String.eqb (index_key i)) names = false.
Proof.
  intros H. apply not_true_is_false. intros E.
  apply existsb_exists in E as (x & Hin & E). apply String.eqb_eq in E. subst x.
  rewrite forallb_forall in H. specialize (H _ Hin).
  now rewrite array_index_key in H.
Qed.

Lemma index_key_not_inherited i :
  inherited [ArrayPrototype; ObjectPrototype] (Some ArrayPrototype) (index_key i) = None.
Proof.
  cbn [inherited prototype_property].
  rewrite index_key_not_length.
  rewrite (index_key_no_method i Array_prototype) by reflexivity.
  rewrite (index_key_no_method i Object_prototype) by reflexivity.
  destruct (index_key i =? "__proto__") eqn:E; [|reflexivity].
  apply String.eqb_eq in E. pose proof (array_index_key i) as H.
  rewrite E in H. discriminate.
Qed.

(** X13. An index past the end of an array resolves to nothing: where
    the object holds an array of [n] elements under [key], the path
    [key.i] with [n <= i] is undefined, and is not taken from the
    prototypes of the array. *)
Theorem index_out_of_range_resolves_nothing fields key items (i : nat) :
  key <> "" -> dot_free key = true ->
  own_property fields key = Some (JArray items) ->
  (List.length items <= i)%nat ->
  resolveDataPath (JObject fields) (key ++ "." ++ index_key i) = None.
Proof.
  intros Hne Hdot Hown Hi.
  rewrite (resolve_longer _ key (index_key i) Hne),
    (resolve_simple_key fields key Hne Hdot).
  cbn [get_property]. rewrite Hown.
  unfold split.
  rewrite (split_go_dot_free (index_key i) "" (dot_free_uint _)).
  cbn [is_empty append resolve_parts get_property].
  rewrite array_property_index.
  replace (nth_error items i) with (@None Json) by (symmetry; now apply nth_error_None).
  now rewrite index_key_not_inherited.
Qed.

Lemma index_out_of_range_resolves_nothing_witness :
  let fields := [("items", JArray [JString "apple"; JString "banana"])] in
  "items" <> "" /\ dot_free "items" = true
  /\ own_property fields "items" = Some (JArray [JString "apple"; JString "banana"])
  /\ (List.length [JString "apple"; JString "banana"] <= 2)%nat
  /\ resolveDataPath (JObject fields) ("items" ++ "." ++ index_key 2) = None.
Proof.
  intros fields.
  assert (H0 : "items" <> "") by discriminate.
  assert (H1 : dot_free "items" = true) by reflexivity.
  assert (H2 : own_property fields "items"
               = Some (JArray [JString "apple"; JString "banana"])) by reflexivity.
  assert (H3 : (List.length [JString "apple"; JString "banana"] <= 2)%nat) by (cbn; lia).
  refine (conj H0 (conj H1 (conj H2 (conj H3 _)))).
  exact (index_out_of_range_resolves_nothing fields "items" _ 2 H0 H1 H2 H3).
Defined.

(** X9. The path [key.length] on an array gives the number of its
    elements, so [{{items.length}}] prints it. *)
Theorem array_length_placeholder host fields pre ws1 key ws2 post items :
  key <> "" ->
  all_chars is_word key = true ->
  all_chars is_space ws1 = true ->
  all_chars is_space ws2 = true ->
  own_property fields key = Some (JArray items) ->
  formatStringWithData host
    (Some (pre ++ "{{" ++ (ws1 ++ (key ++ ".length") ++ ws2) ++ "}}" ++ post))
    (Some (JObject fields)) =
  (a <- formatStringWithData host (Some pre) (Some (JObject fields)) ;;
   b <- formatStringWithData host (Some post) (Some (JObject fields)) ;;
   Normal (a ++ Number_toString (Z.of_nat (List.length items)) ++ b)).
Proof.
  intros Hne Hkey H1 H2 Hown.
  assert (Hp : all_chars path_char (key ++ ".length") = true).
  { rewrite all_chars_app, (all_chars_weaken _ _ _ word_path Hkey). reflexivity. }
  assert (Hne' : key ++ ".length" <> "") by (destruct key; [congruence | discriminate]).
  rewrite (format_path host _ pre ws1 _ ws2 post Hne' Hp H1 H2).
  change (dataToUse (Some (JObject fields))) with (JObject fields).
  change (key ++ ".length") with (key ++ "." ++ "length").
  rewrite (resolve_longer _ key "length" Hne),
    (resolve_simple_key fields key Hne (word_dot_free _ Hkey)).
  cbn [get_property]. rewrite Hown.
  destruct (formatStringWithData host (Some pre) _); reflexivity.
Qed.

Lemma array_length_placeholder_witness :
  let fields := [("items", JArray [JString "apple"; JString "banana"])] in
  "items" <> ""
  /\ all_chars is_word "items" = true
  /\ all_chars is_space "" = true
  /\ own_property fields "items" = Some (JArray [JString "apple"; JString "banana"])
  /\ formatStringWithData ReferenceHost.host
       (Some ("n = " ++ "{{" ++ ("" ++ ("items" ++ ".length") ++ "") ++ "}}" ++ ""))
       (Some (JObject fields))
     = Normal "n = 2".
Proof.
  intros fields.
  assert (H0 : "items" <> "") by discriminate.
  assert (H1 : all_chars is_word "items" = true) by reflexivity.
  assert (H2 : all_chars is_space "" = true) by reflexivity.
  assert (H3 : own_property fields "items"
               = Some (JArray [JString "apple"; JString "banana"])) by reflexivity.
  refine (conj H0 (conj H1 (conj H2 (conj H3 _)))).
  exact (array_length_placeholder ReferenceHost.host fields "n = " "" "items" "" ""
           _ H0 H1 H2 H2 H3).
Defined.

(** ** The argument parser *)

(** X14. An argument text that is empty or white space only holds no
    argument. *)
Theorem blank_arguments_parse_to_none argsString :
  all_chars is_space argsString = true ->
  parseTransformationArgs argsString = [].
Proof.
  intros H. rewrite parseTransformationArgs_tokenize.
  now rewrite (tokenize_spaces true argsString H).
Qed.

Lemma blank_arguments_parse_to_none_witness :
  all_chars is_space "   " = true /\ parseTransformationArgs "   " = [].
Proof.
  assert (H : all_chars is_space "   " = true) by reflexivity.
  refine (conj H _). exact (blank_arguments_parse_to_none "   " H).
Defined.

(** X15. An unquoted token, a run without comma, quote, bracket or white
    space, is an argument as it stands: the white space around it is
    dropped, and the parser goes on behind the comma that follows, or
    stops at the end of the text. *)
Theorem bare_argument_parsed ws1 a t ws2 rest :
  all_chars is_space ws1 = true ->
  all_chars bare_char (String a t) = true ->
  all_chars is_space ws2 = true ->
  parseTransformationArgs (ws1 ++ String a t ++ ws2 ++ behind rest)
  = AString (String a t)
      :: match rest with
         | None => []
         | Some r => parseTransformationArgs r
         end.
Proof.
  intros H1 Htok H2. rewrite parseTransformationArgs_tokenize.
  destruct (tokenize_bare true ws1 a t ws2 rest H1 Htok H2) as (whole & g2 & E).
  rewrite E. cbn [map]. rewrite tokenize_rest. f_equal.
  exact (proj1 (parseToken_bare whole a t ws2 g2 Htok H2)).
Qed.

Lemma bare_argument_parsed_witness :
  all_chars is_space " " = true
  /\ all_chars bare_char "user.name" = true
  /\ all_chars is_space "  " = true
  /\ parseTransformationArgs (" " ++ "user.name" ++ "  " ++ behind (Some " 'N/A'"))
     = [AString "user.name"; AString "N/A"].
Proof.
  assert (H1 : all_chars is_space " " = true) by reflexivity.
  assert (H2 : all_chars bare_char "user.name" = true) by reflexivity.
  assert (H3 : all_chars is_space "  " = true) by reflexivity.
  refine (conj H1 (conj H2 (conj H3 _))).
  exact (bare_argument_parsed " " "u" "ser.name" "  " (Some " 'N/A'") H1 H2 H3).
Defined.

(** X16. A token in single quotes is an argument without its quotes and
    with everything between them kept: commas, brackets and white space
    inside the quotes do not split or trim it. *)
Theorem quoted_argument_parsed ws1 str ws2 rest :
  all_chars is_space ws1 = true ->
  quotable str = true ->
  all_chars is_space ws2 = true ->
  parseTransformationArgs (ws1 ++ quote str ++ ws2 ++ behind rest)
  = AString str
      :: match rest with
         | None => []
         | Some r => parseTransformationArgs r
         end.
Proof.
  intros H1 Hstr H2. rewrite parseTransformationArgs_tokenize.
  destruct (tokenize_quoted true ws1 str ws2 rest H1 Hstr H2) as (whole & g2 & E).
  rewrite E. cbn [map]. rewrite tokenize_rest. f_equal.
  exact (proj1 (parseToken_quoted whole str g2)).
Qed.

Lemma quoted_argument_parsed_witness :
  all_chars is_space " " = true
  /\ quotable " a, [b] " = true
  /\ all_chars is_space "" = true
  /\ parseTransformationArgs (" " ++ quote " a, [b] " ++ "" ++ behind (Some "x"))
     = [AString " a, [b] "; AString "x"].
Proof.
  assert (H1 : all_chars is_space " " = true) by reflexivity.
  assert (H2 : quotable " a, [b] " = true) by reflexivity.
  assert (H3 : all_chars is_space "" = true) by reflexivity.
  refine (conj H1 (conj H2 (conj H3 _))).
  exact (quoted_argument_parsed " " " a, [b] " "" (Some "x") H1 H2 H3).
Defined.

(** X17. An array literal of quoted elements is one argument, the list
    of its elements: the commas between the elements do not split the
    argument list. *)
Theorem array_argument_parsed ws1 l ws2 rest :
  all_chars is_space ws1 = true ->
  forallb (fun s => quotable s && all_chars (none_of ["]"%char]) s) l = true ->
  all_chars is_space ws2 = true ->
  parseTransformationArgs
    (ws1 ++ ("[" ++ render_elements l ++ "]") ++ ws2 ++ behind rest)
  = AArray l
      :: match rest with
         | None => []
         | Some r => parseTransformationArgs r
         end.
Proof.
  intros H1 Hl H2. rewrite parseTransformationArgs_tokenize.
  destruct (tokenize_array ws1 (render_elements l) ws2 rest H1
              (render_elements_no_bracket l Hl) H2) as (whole & g2 & E).
  rewrite E. cbn [map]. rewrite tokenize_rest. f_equal.
  exact (parse_rendered_array whole l g2 Hl).
Qed.

Lemma array_argument_parsed_witness :
  all_chars is_space " " = true
  /\ forallb (fun s => quotable s && all_chars (none_of ["]"%char]) s)
       ["is"; "WAS, was"] = true
  /\ all_chars is_space "" = true
  /\ parseTransformationArgs
       (" " ++ ("[" ++ render_elements ["is"; "WAS, was"] ++ "]") ++ ""
            ++ behind (Some " ['a', 'b']"))
     = [AArray ["is"; "WAS, was"]; AArray ["a"; "b"]].
Proof.
  assert (H1 : all_chars is_space " " = true) by reflexivity.
  assert (H2 : forallb (fun s => quotable s && all_chars (none_of ["]"%char]) s)
                 ["is"; "WAS, was"] = true) by reflexivity.
  assert (H3 : all_chars is_space "" = true) by reflexivity.
  refine (conj H1 (conj H2 (conj H3 _))).
  exact (array_argument_parsed " " ["is"; "WAS, was"] "" (Some " ['a', 'b']") H1 H2 H3).
Defined.

(** X18. Parsing inverts writing: a list of arguments, strings without
    a quote in them and arrays of strings without a quote or a closing
    bracket, written as quoted strings and bracketed arrays with a comma
    and a space between them, parses back to that list. *)
Theorem parse_rendered_arguments args :
  forallb renderable args = true ->
  parseTransformationArgs (render_args args) = args.
Proof.
  intros H. rewrite parseTransformationArgs_tokenize.
  exact (args_round_trip args "" eq_refl H).
Qed.

Lemma parse_rendered_arguments_witness :
  let args := [AString "a, b"; AArray ["x"; "[y"]; AArray []; AString ""] in
  forallb renderable args = true
  /\ parseTransformationArgs (render_args args) = args.
Proof.
  intros args.
  assert (H : forallb renderable args = true) by reflexivity.
  refine (conj H _). exact (parse_rendered_arguments args H).
Defined.

(** X21. A word, an opening parenthesis, any text without a line
    terminator and a closing parenthesis is read as a transformation
    call: the word is the name, and the argument text runs up to the last
    closing parenthesis, other parentheses included. *)
Theorem transformation_call_recognised name inner :
  name <> "" ->
  all_chars is_word name = true ->
  all_chars is_dot inner = true ->
  match_ (name ++ "(" ++ inner ++ ")") transformationRegex
  = Some [name ++ "(" ++ inner ++ ")"; name; inner].
Proof. exact (transformation_call_match name inner). Qed.

Lemma transformation_call_recognised_witness :
  "f" <> ""
  /\ all_chars is_word "f" = true
  /\ all_chars is_dot "a) (b" = true
  /\ match_ ("f" ++ "(" ++ "a) (b" ++ ")") transformationRegex
     = Some ["f(a) (b)"; "f"; "a) (b"].
Proof.
  assert (H1 : "f" <> "") by discriminate.
  assert (H2 : all_chars is_word "f" = true) by reflexivity.
  assert (H3 : all_chars is_dot "a) (b" = true) by reflexivity.
  refine (conj H1 (conj H2 (conj H3 _))).
  exact (transformation_call_recognised "f" "a) (b" H1 H2 H3).
Defined.

(** ** Calls of the registered transformations *)

Lemma lookup_name host name f :
  lookup name (defaultTransformations host) = Some f ->
  name = "default" \/ name = "date" \/ name = "replace".
Proof.
  unfold defaultTransformations. cbn [lookup].
  destruct (String.eqb_spec "default" name); [auto|].
  destruct (String.eqb_spec "date" name); [auto|].
  destruct (String.eqb_spec "replace" name); [auto | discriminate].
Qed.

(** A call of a registered transformation on a key and arguments in
    rendered form, anywhere in a template. *)
Lemma format_call_args host data pre ws1 name key args ws2 post f :
  lookup name (defaultTransformations host) = Some f ->
  key <> "" ->
  all_chars path_char key = true ->
  forallb literal_arg args = true ->
  all_chars is_space ws1 = true ->
  all_chars is_space ws2 = true ->
  formatStringWithData host
    (Some (pre ++ call ws1 name (call_args key args) ws2 ++ post)) data =
  (a <- formatStringWithData host (Some pre) data ;;
   r <- try_catch (f (resolveDataPath (dataToUse data) key) args)
          (Some (AString "#ERROR")) ;;
   b <- formatStringWithData host (Some post) data ;;
   Normal (a ++ arg_toString r ++ b)).
Proof.
  intros Hf Hne Hkey Hargs H1 H2.
  assert (Hname : name <> "" /\ all_chars is_word name = true).
  { destruct (lookup_name host name f Hf) as [->|[->| ->]]; split;
      solve [discriminate | reflexivity]. }
  destruct Hname as [Hn Hw].
  assert (Hdot : all_chars is_dot (call_args key args) = true).
  { apply call_args_all; try assumption; try reflexivity.
    - exact path_char_dot.
    - intros c Hc. apply literal_char_facts in Hc. tauto. }
  assert (Hnb : all_chars nb (call_args key args) = true).
  { apply call_args_all; try assumption; try reflexivity.
    - exact path_char_nb.
    - intros c Hc. apply literal_char_facts in Hc. tauto. }
  rewrite (format_call host data pre ws1 name _ ws2 post Hn Hw Hdot Hnb H1 H2), Hf.
  unfold callTransformation.
  rewrite (parse_call_args key args Hne Hkey (literal_args_renderable args Hargs)).
  rewrite (keyValue_key _ key args Hne). cbn [tl].
  destruct (formatStringWithData host (Some pre) data); [|reflexivity].
  cbn [bind]. destruct (f _ _); reflexivity.
Qed.

(** X22. A call [name(key, arg, ...)] of a registered transformation
    between the delimiters applies the transformation to the value at
    [key] and to the arguments as written, strings and arrays of strings;
    what it returns takes the place of the placeholder, and ["#ERROR"]
    does where it raises. *)
Theorem call_applies_transformation host data pre ws1 name key args ws2 post f :
  lookup name (defaultTransformations host) = Some f ->
  key <> "" ->
  all_chars path_char key = true ->
  forallb literal_arg args = true ->
  all_chars is_space ws1 = true ->
  all_chars is_space ws2 = true ->
  formatStringWithData host
    (Some (pre ++ call ws1 name (call_args key args) ws2 ++ post)) data =
  (a <- formatStringWithData host (Some pre) data ;;
   r <- try_catch (f (resolveDataPath (dataToUse data) key) args)
          (Some (AString "#ERROR")) ;;
   b <- formatStringWithData host (Some post) data ;;
   Normal (a ++ arg_toString r ++ b)).
Proof. exact (format_call_args host data pre ws1 name key args ws2 post f). Qed.

Lemma call_applies_transformation_witness :
  let data := Some (JObject [("user", JObject [("name", JNull)])]) in
  lookup "default" (defaultTransformations ReferenceHost.host)
    = Some (default ReferenceHost.host)
  /\ "user.name" <> ""
  /\ all_chars path_char "user.name" = true
  /\ forallb literal_arg [AString "N/A"] = true
  /\ all_chars is_space " " = true
  /\ formatStringWithData ReferenceHost.host
       (Some ("Name: " ++ call " " "default" (call_args "user.name" [AString "N/A"]) " "
              ++ "."))
       data
     = Normal "Name: N/A.".
Proof.
  intros data.
  assert (H1 : lookup "default" (defaultTransformations ReferenceHost.host)
               = Some (default ReferenceHost.host)) by reflexivity.
  assert (H2 : "user.name" <> "") by discriminate.
  assert (H3 : all_chars path_char "user.name" = true) by reflexivity.
  assert (H4 : forallb literal_arg [AString "N/A"] = true) by reflexivity.
  assert (H5 : all_chars is_space " " = true) by reflexivity.
  refine (conj H1 (conj H2 (conj H3 (conj H4 (conj H5 _))))).
  exact (call_applies_transformation ReferenceHost.host data "Name: " " " "default"
           "user.name" [AString "N/A"] " " "." _ H1 H2 H3 H4 H5 H5).
Defined.

(** X23. [{{default(key, 'text')}}] prints [text] wherever the path
    [key] resolves to nothing or to [null], whatever the template around
    it and whatever the text, as long as it can be written between
    quotes. *)
Theorem default_call_prints_fallback host data pre ws1 key fallback ws2 post :
  key <> "" ->
  all_chars path_char key = true ->
  literal fallback = true ->
  all_chars is_space ws1 = true ->
  all_chars is_space ws2 = true ->
  resolveDataPath (dataToUse data) key = None
  \/ resolveDataPath (dataToUse data) key = Some (VJson JNull) ->
  formatStringWithData host
    (Some (pre ++ call ws1 "default" (call_args key [AString fallback]) ws2 ++ post))
    data =
  (a <- formatStringWithData host (Some pre) data ;;
   b <- formatStringWithData host (Some post) data ;;
   Normal (a ++ fallback ++ b)).
Proof.
  intros Hne Hkey Hfb H1 H2 Hres.
  assert (Hargs : forallb literal_arg [AString fallback] = true)
    by (cbn [forallb literal_arg]; now rewrite Hfb).
  rewrite (format_call_args host data pre ws1 "default" key _ ws2 post (default host)
             eq_refl Hne Hkey Hargs H1 H2).
  destruct Hres as [-> | ->]; reflexivity.
Qed.

Lemma default_call_prints_fallback_witness :
  let data := Some (JObject [("user", JObject [])]) in
  "user.age" <> ""
  /\ all_chars path_char "user.age" = true
  /\ literal "n/a, really" = true
  /\ all_chars is_space "" = true
  /\ (resolveDataPath (dataToUse data) "user.age" = None
      \/ resolveDataPath (dataToUse data) "user.age" = Some (VJson JNull))
  /\ formatStringWithData ReferenceHost.host
       (Some ("Age: " ++ call "" "default" (call_args "user.age" [AString "n/a, really"]) ""
              ++ ""))
       data
     = Normal "Age: n/a, really".
Proof.
  intros data.
  assert (H1 : "user.age" <> "") by discriminate.
  assert (H2 : all_chars path_char "user.age" = true) by reflexivity.
  assert (H3 : literal "n/a, really" = true) by reflexivity.
  assert (H4 : all_chars is_space "" = true) by reflexivity.
  assert (H5 : resolveDataPath (dataToUse data) "user.age" = None
               \/ resolveDataPath (dataToUse data) "user.age" = Some (VJson JNull))
    by (left; reflexivity).
  refine (conj H1 (conj H2 (conj H3 (conj H4 (conj H5 _))))).
  exact (default_call_prints_fallback ReferenceHost.host data "Age: " "" "user.age"
           "n/a, really" "" "" H1 H2 H3 H4 H4 H5).
Defined.

Lemma literal_pairs pairs :
  forallb (fun p => literal (fst p) && literal (snd p)) pairs = true ->
  forallb literal_arg (map pair_arg pairs) = true.
Proof.
  induction pairs as [|[s r] pairs IH]; [reflexivity|].
  cbn [forallb map pair_arg literal_arg fst snd]. intros H.
  apply andb_true_iff in H as [H Hl]. apply andb_true_iff in H as [Hs Hr].
  now rewrite Hs, Hr, (IH Hl).
Qed.

(** X24. [{{replace(key, ['s1', 'r1'], ['s2', 'r2'], ...)}}] prints the
    text of the value at [key] with every occurrence of [s1] replaced by
    [r1], then every occurrence of [s2] in the result by [r2], and so on,
    whatever the template around it. *)
Theorem replace_call_prints_replaced host data pre ws1 key pairs ws2 post v text :
  key <> "" ->
  all_chars path_char key = true ->
  forallb (fun p => literal (fst p) && literal (snd p)) pairs = true ->
  all_chars is_space ws1 = true ->
  all_chars is_space ws2 = true ->
  resolveDataPath (dataToUse data) key = Some v ->
  v <> VJson JNull ->
  ToString host v = Normal text ->
  formatStringWithData host
    (Some (pre ++ call ws1 "replace" (call_args key (map pair_arg pairs)) ws2 ++ post))
    data =
  (a <- formatStringWithData host (Some pre) data ;;
   b <- formatStringWithData host (Some post) data ;;
   Normal (a ++ apply_pairs text pairs ++ b)).
Proof.
  intros Hne Hkey Hpairs H1 H2 Hres Hv Htext.
  rewrite (format_call_args host data pre ws1 "replace" key _ ws2 post
             (Transformations.replace host)
             eq_refl Hne Hkey (literal_pairs pairs Hpairs) H1 H2).
  rewrite Hres. unfold Transformations.replace.
  replace (match v with VJson JNull => VJson (JString "") | _ => v end) with v
    by (destruct v as [[]| |]; congruence).
  rewrite Htext. cbn [bind try_catch]. now rewrite fold_replace_step.
Qed.

Lemma replace_call_prints_replaced_witness :
  let data := Some (JObject [("d", JString "This is a test.")]) in
  let pairs := [("is", "WAS"); ("test", "T")] in
  "d" <> ""
  /\ all_chars path_char "d" = true
  /\ forallb (fun p => literal (fst p) && literal (snd p)) pairs = true
  /\ all_chars is_space "" = true
  /\ resolveDataPath (dataToUse data) "d" = Some (VJson (JString "This is a test."))
  /\ VJson (JString "This is a test.") <> VJson JNull
  /\ ToString ReferenceHost.host (VJson (JString "This is a test."))
     = Normal "This is a test."
  /\ formatStringWithData ReferenceHost.host
       (Some ("> " ++ call "" "replace" (call_args "d" (map pair_arg pairs)) "" ++ " <"))
       data
     = Normal "> ThWAS WAS a T. <".
Proof.
  intros data pairs.
  assert (H1 : "d" <> "") by discriminate.
  assert (H2 : all_chars path_char "d" = true) by reflexivity.
  assert (H3 : forallb (fun p => literal (fst p) && literal (snd p)) pairs = true)
    by reflexivity.
  assert (H4 : all_chars is_space "" = true) by reflexivity.
  assert (H5 : resolveDataPath (dataToUse data) "d"
               = Some (VJson (JString "This is a test."))) by reflexivity.
  assert (H6 : VJson (JString "This is a test.") <> VJson JNull) by discriminate.
  assert (H7 : ToString ReferenceHost.host (VJson (JString "This is a test."))
               = Normal "This is a test.") by reflexivity.
  refine (conj H1 (conj H2 (conj H3 (conj H4 (conj H5 (conj H6 (conj H7 _))))))).
  exact (replace_call_prints_replaced ReferenceHost.host data "> " "" "d" pairs "" " <"
           _ _ H1 H2 H3 H4 H4 H5 H6 H7).
Defined.

(** ** The transformations on their own *)

(** X25. [date] never raises and always hands back a string: whatever
    the value and the other arguments, a failure inside it is caught and
    gives ["#ERROR"]. *)
Theorem date_always_returns_string host value rest :
  exists s, date host value rest = Normal (Some (AString s)).
Proof.
  unfold date. destruct value as [v|]; [|cbn [try_catch]; eauto].
  destruct v as [j|p|p name]; [destruct j|..]; cbn [try_catch bind Date_of_value];
    repeat match goal with
           | |- context [ToString ?h ?v] =>
               destruct (ToString h v); cbn [try_catch bind]
           | |- context [match ?x with _ => _ end] =>
               destruct x; cbn [try_catch bind]
           end; eauto.
Qed.

(** X26. A number that is no time value, more than 8.64e15
    milliseconds from the epoch once a number below 1e11 has been
    multiplied by 1000, makes [date] answer ["#ERROR"]. *)
Theorem date_out_of_range_is_error host (n : Z) rest :
  (8640000000000000 < Z.abs (if n <? 10 ^ 11 then n * 1000 else n))%Z ->
  date host (Some (VJson (JNumber n))) rest = Normal (Some (AString "#ERROR")).
Proof.
  intros H. rewrite date_number. unfold instant_text, JsDate.of_number, JsDate.TimeClip.
  destruct (Z.leb_spec (Z.abs (if (n <? 10 ^ 11)%Z then (n * 1000)%Z else n))
              8640000000000000); [lia | reflexivity].
Qed.

Lemma date_out_of_range_is_error_witness :
  (8640000000000000 < Z.abs (if 8640000000000001 <? 10 ^ 11 then 8640000000000001 * 1000
                             else 8640000000000001))%Z
  /\ date ReferenceHost.host (Some (VJson (JNumber 8640000000000001))) []
     = Normal (Some (AString "#ERROR")).
Proof.
  assert (H : (8640000000000000
               < Z.abs (if 8640000000000001 <? 10 ^ 11 then 8640000000000001 * 1000
                        else 8640000000000001))%Z) by (vm_compute; reflexivity).
  refine (conj H _).
  exact (date_out_of_range_is_error ReferenceHost.host 8640000000000001 [] H).
Defined.

Lemma replaceAll_go_absent search r s :
  occurs search s = false -> replaceAll_go search r s 0 = s.
Proof.
  induction s as [|c s IH]; [reflexivity|]. cbn [occurs replaceAll_go]. intros H.
  apply orb_false_iff in H as [Hp Hs]. now rewrite Hp, (IH Hs).
Qed.

(** X27. A pair of [replace] whose search text does not occur in the
    text so far leaves it as it is. *)
Theorem replace_pair_absent_changes_nothing result search replacement :
  occurs search result = false ->
  replace_step result (AArray [search; replacement]) = result.
Proof.
  intros H. change (AArray [search; replacement]) with (pair_arg (search, replacement)).
  rewrite replace_step_pair. cbn [fst snd].
  destruct (is_empty search); [reflexivity|]. now apply replaceAll_go_absent.
Qed.

Lemma replace_pair_absent_changes_nothing_witness :
  occurs "xy" "x, y and z" = false
  /\ replace_step "x, y and z" (AArray ["xy"; "!"]) = "x, y and z".
Proof.
  assert (H : occurs "xy" "x, y and z" = false) by reflexivity.
  refine (conj H _).
  exact (replace_pair_absent_changes_nothing "x, y and z" "xy" "!" H).
Defined.

(** X28. A pair of [replace] that holds a search text and no
    replacement puts the text [undefined] in the place of every
    occurrence. *)
Theorem replace_pair_without_replacement result search :
  search <> "" ->
  replace_step result (AArray [search]) = replaceAll result search "undefined".
Proof.
  intros H. destruct search as [|c search]; [congruence|].
  unfold replace_step. cbn [destructure2 nth_error String_opt].
  unfold split, replaceAll. cbn [is_empty]. now rewrite join_split_go.
Qed.

Lemma replace_pair_without_replacement_witness :
  "b" <> ""
  /\ replace_step "abc" (AArray ["b"]) = "aundefinedc".
Proof.
  assert (H : "b" <> "") by discriminate.
  refine (conj H _). exact (replace_pair_without_replacement "abc" "b" H).
Defined.

